(** * Evidence extraction and payload compaction of [analysis.py]

    A shallow embedding of the deterministic core of [src/analysis.py]:
    the URL helper [abs_url], the anchor checks and the scan for
    secrets of [analyze_html], the script scanner [analyze_js] and the
    payload compactor [_shrink_payload] together with [_truncate_text]
    and the nested walker [truncate].

    Conventions.
    - A Python [str] is a [string]; its characters are the code points
      0..255 (every code point above 255 behaves, for all functions
      modelled here, like an ordinary printable character).
    - A Python [int] is a [Z].
    - A value that can be serialised by [json.dumps] is a [json] tree;
      a [dict] is an association list in insertion order (Python keeps
      keys distinct; every operation below preserves that).  The
      payload of [build_messages] shares no dictionary between two
      places, so the in-place updates of the compactor are updates of
      the tree.
    - A Python call that may raise returns [option] (or [res]), [None]
      standing for the raised exception. *)

From Stdlib Require Import ZArith List Bool Ascii String Lia Arith Sorted.
From Stdlib Require Import Numbers.DecimalString.
From Stdlib Require Import Floats Uint63.
Import ListNotations.

Local Open Scope string_scope.
Local Open Scope Z_scope.

(** ** Python strings and slices *)

Module Py.

Definition chr (n : nat) : ascii := ascii_of_nat n.
Definition ord (c : ascii) : nat := nat_of_ascii c.

Definition nl : ascii := chr 10.
Definition dquote : ascii := chr 34.
Definition bslash : ascii := chr 92.

Definition len (s : string) : Z := Z.of_nat (String.length s).

Fixpoint take (n : nat) (s : string) : string :=
  match n, s with
  | S k, String c r => String c (take k r)
  | _, _ => EmptyString
  end.

Fixpoint drop (n : nat) (s : string) : string :=
  match n, s with
  | S k, String _ r => drop k r
  | _, _ => s
  end.

(** Index of a slice bound: [n] itself when non-negative, [len + n]
    clamped at zero when negative. *)
Definition bound (length : nat) (n : Z) : nat :=
  if 0 <=? n then Z.to_nat n else (length - Z.to_nat (- n))%nat.

(** [s[:n]] and [s[n:]] on strings. *)
Definition str_to (s : string) (n : Z) : string :=
  take (bound (String.length s) n) s.
Definition str_from (s : string) (n : Z) : string :=
  drop (bound (String.length s) n) s.

(** [l[:n]] on lists. *)
Definition list_to {A} (l : list A) (n : Z) : list A :=
  firstn (bound (List.length l) n) l.

(** [int(limit * 0.6)] and [int(limit * 0.3)]: the product is taken in
    binary64 and truncated towards zero.  The two constants are the
    doubles nearest to 6/10 and 3/10, both short of them by a third of
    2^-53 in relative terms, so for every [limit] below 2^50 in absolute
    value the result is the truncated exact quotient; that is the
    definition used here.  [binary64_int_mul] is the computation in
    binary64 itself, against which the definition is checked below. *)
Definition int_mul_0_6 (limit : Z) : Z := Z.quot (6 * limit) 10.
Definition int_mul_0_3 (limit : Z) : Z := Z.quot (3 * limit) 10.

Definition float_of_int (n : Z) : float :=
  if 0 <=? n then of_uint63 (Uint63.of_Z n)
  else PrimFloat.opp (of_uint63 (Uint63.of_Z (- n))).

Definition int_of_float (f : float) : Z :=
  match Prim2SF f with
  | S754_finite sign m e =>
      let v := if 0 <=? e then Z.pos m * 2 ^ e else Z.quot (Z.pos m) (2 ^ (- e)) in
      if sign then - v else v
  | _ => 0
  end.

Definition binary64_int_mul (c : float) (limit : Z) : Z :=
  int_of_float (PrimFloat.mul (float_of_int limit) c).

(** [str.isspace] on one character. *)
Definition isspace (c : ascii) : bool :=
  let n := ord c in
  ((9 <=? n) && (n <=? 13) || (28 <=? n) && (n <=? 32)
   || (n =? 133) || (n =? 160))%nat.

(** [str.lower] on one character. *)
Definition lower_char (c : ascii) : ascii :=
  let n := ord c in
  if ((65 <=? n) && (n <=? 90))%nat then chr (n + 32)
  else if ((192 <=? n) && (n <=? 222) && negb (n =? 215))%nat then chr (n + 32)
  else c.

Fixpoint lower (s : string) : string :=
  match s with
  | EmptyString => EmptyString
  | String c r => String (lower_char c) (lower r)
  end.

Fixpoint lstrip (s : string) : string :=
  match s with
  | String c r => if isspace c then lstrip r else s
  | EmptyString => EmptyString
  end.

Fixpoint rstrip (s : string) : string :=
  match s with
  | EmptyString => EmptyString
  | String c r =>
      match rstrip r with
      | EmptyString => if isspace c then EmptyString else String c EmptyString
      | r' => String c r'
      end
  end.

Definition strip (s : string) : string := rstrip (lstrip s).

Definition startswith (s p : string) : bool := String.prefix p s.

(** [sub in s]. *)
Fixpoint contains (sub s : string) : bool :=
  String.prefix sub s ||
  match s with
  | EmptyString => false
  | String _ r => contains sub r
  end.

(** [sep.join(parts)]. *)
Fixpoint join (sep : string) (parts : list string) : string :=
  match parts with
  | [] => EmptyString
  | [p] => p
  | p :: rest => p ++ sep ++ join sep rest
  end.

End Py.

(** ** Values that [json.dumps] serialises *)

Unset Elimination Schemes.
Inductive json : Type :=
| JNull
| JBool (b : bool)
| JInt (z : Z)
| JStr (s : string)
| JList (items : list json)
| JDict (entries : list (string * json)).
Set Elimination Schemes.

Definition pydict : Type := list (string * json).

Section JsonInduction.
Variable P : json -> Prop.
Hypothesis Hnull : P JNull.
Hypothesis Hbool : forall b, P (JBool b).
Hypothesis Hint : forall z, P (JInt z).
Hypothesis Hstr : forall s, P (JStr s).
Hypothesis Hlist : forall l, Forall P l -> P (JList l).
Hypothesis Hdict : forall d, Forall (fun kv => P (snd kv)) d -> P (JDict d).

Fixpoint json_ind (v : json) : P v :=
  match v with
  | JNull => Hnull
  | JBool b => Hbool b
  | JInt z => Hint z
  | JStr s => Hstr s
  | JList l =>
      Hlist l
        (list_ind (Forall P) (Forall_nil P)
           (fun x _ IH => Forall_cons x (json_ind x) IH) l)
  | JDict d =>
      Hdict d
        (list_ind (Forall (fun kv => P (snd kv))) (Forall_nil _)
           (fun kv _ IH => Forall_cons kv (json_ind (snd kv)) IH) d)
  end.
End JsonInduction.

(** [d.get(k)], [d.get(k, default)] and [d[k] = v]. *)
Fixpoint lookup (k : string) (d : pydict) : option json :=
  match d with
  | [] => None
  | (k', v) :: r => if String.eqb k k' then Some v else lookup k r
  end.

Definition dict_get (k : string) (default : json) (d : pydict) : json :=
  match lookup k d with
  | Some v => v
  | None => default
  end.

Fixpoint assign (k : string) (v : json) (d : pydict) : pydict :=
  match d with
  | [] => [(k, v)]
  | (k', v') :: r =>
      if String.eqb k k' then (k', v) :: r else (k', v') :: assign k v r
  end.

(** ** [json.dumps(obj, ensure_ascii=False)] *)

Definition hex_digit (n : nat) : ascii :=
  nth n (list_ascii_of_string "0123456789abcdef") "0"%char.

(** One character inside a JSON string literal: the quote, the
    backslash and the control characters below 0x20 are escaped, every
    other character is emitted as it is. *)
Definition escape_char (c : ascii) : string :=
  let n := Py.ord c in
  let esc (x : string) := String Py.bslash x in
  if (n =? 34)%nat then esc (String Py.dquote "")
  else if (n =? 92)%nat then esc (String Py.bslash "")
  else if (n =? 10)%nat then esc "n"
  else if (n =? 13)%nat then esc "r"
  else if (n =? 9)%nat then esc "t"
  else if (n =? 8)%nat then esc "b"
  else if (n =? 12)%nat then esc "f"
  else if (n <? 32)%nat then
    esc (String "u" (String "0" (String "0"
      (String (hex_digit (n / 16)) (String (hex_digit (n mod 16)) "")))))
  else String c "".

Fixpoint escape (s : string) : string :=
  match s with
  | EmptyString => EmptyString
  | String c r => escape_char c ++ escape r
  end.

Definition dumps_str (s : string) : string :=
  String Py.dquote (escape s ++ String Py.dquote "").

Definition dumps_int (z : Z) : string := NilZero.string_of_int (Z.to_int z).

Fixpoint dumps (v : json) : string :=
  match v with
  | JNull => "null"
  | JBool true => "true"
  | JBool false => "false"
  | JInt z => dumps_int z
  | JStr s => dumps_str s
  | JList l => "[" ++ Py.join ", " (map dumps l) ++ "]"
  | JDict d =>
      "{" ++ Py.join ", " (map (fun kv => dumps_str (fst kv) ++ ": " ++ dumps (snd kv)) d)
          ++ "}"
  end.

(** The local helper [size] of [_shrink_payload]. *)
Definition size (obj : json) : Z := Py.len (dumps obj).

(** ** Limits read from the environment at import time *)

Record limits : Type := Limits {
  MAX_HTML_EVIDENCE_PER_BUCKET : Z;
  MAX_JS_FILES : Z;
  MAX_JS_EVIDENCE_PER_FILE : Z;
  MAX_STR_FIELD : Z
}.

Definition default_limits : limits := Limits 50 50 25 4000.
Definition MAX_TOTAL_CHARS : Z := 220000.

(** ** [_truncate_text] *)

Definition elision : string := String Py.nl ("..." ++ String Py.nl "").

(** The argument is always a [str] at the call site, so the [None]
    branch of the source is not reachable through [truncate]. *)
Definition _truncate_text (s : string) (limit : Z) : string :=
  if Py.len s <=? limit then s
  else
    let head := Py.str_to s (Py.int_mul_0_6 limit) in
    let tail := Py.str_from s (- Py.int_mul_0_3 limit) in
    head ++ elision ++ tail.

(** ** The compactor *)

(** The nested walker [truncate]: dictionaries are rewritten entry by
    entry, the entry called [outer_html] is skipped whatever it holds,
    string entries longer than the limit are elided, any other entry is
    walked; lists are walked item by item (a string that is a list item
    is left alone); everything else is left alone. *)
Fixpoint truncate (L : limits) (node : json) : json :=
  match node with
  | JDict d =>
      JDict (map (fun kv : string * json =>
                    let (k, v) := kv in
                    if String.eqb k "outer_html" then (k, v)
                    else match v with
                         | JStr s =>
                             if MAX_STR_FIELD L <? Py.len s
                             then (k, JStr (_truncate_text s (MAX_STR_FIELD L)))
                             else (k, v)
                         | _ => (k, truncate L v)
                         end) d)
  | JList l => JList (map (truncate L) l)
  | _ => node
  end.

(** [len(x)]: defined on strings, lists and dictionaries. *)
Definition py_len (v : json) : option Z :=
  match v with
  | JStr s => Some (Py.len s)
  | JList l => Some (Z.of_nat (List.length l))
  | JDict d => Some (Z.of_nat (List.length d))
  | _ => None
  end.

(** [x[:n]]: defined on strings and lists. *)
Definition py_slice_to (v : json) (n : Z) : option json :=
  match v with
  | JStr s => Some (JStr (Py.str_to s n))
  | JList l => Some (JList (Py.list_to l n))
  | _ => None
  end.

(** [for f in x]: the items of a list, the characters of a string, the
    keys of a dictionary. *)
Definition py_iter (v : json) : option (list json) :=
  match v with
  | JList l => Some l
  | JStr s => Some (map (fun c => JStr (String c "")) (list_ascii_of_string s))
  | JDict d => Some (map (fun kv => JStr (fst kv)) d)
  | _ => None
  end.

Definition bind {A B} (x : option A) (f : A -> option B) : option B :=
  match x with
  | Some a => f a
  | None => None
  end.

Notation "x <- e ;; k" := (bind e (fun x => k))
  (at level 61, e at next level, right associativity).

Fixpoint mapM {A B} (f : A -> option B) (l : list A) : option (list B) :=
  match l with
  | [] => Some []
  | x :: r => y <- f x ;; ys <- mapM f r ;; Some (y :: ys)
  end.

(** [cur.get("javascript", {}).get("files", [])] *)
Definition js_files_of (cur : json) : option json :=
  match cur with
  | JDict d =>
      match dict_get "javascript" (JDict []) d with
      | JDict js => Some (dict_get "files" (JList []) js)
      | _ => None
      end
  | _ => None
  end.

(** [cur["javascript"]["files"] = v] *)
Definition store_files (cur v : json) : option json :=
  match cur with
  | JDict d =>
      match lookup "javascript" d with
      | Some (JDict js) =>
          Some (JDict (assign "javascript" (JDict (assign "files" v js)) d))
      | _ => None
      end
  | _ => None
  end.

(** One round of the loop over the files: the evidences of [f] are cut
    to the limit; the flag tells whether [shrunk] was set. *)
Definition cap_evidences (L : limits) (f : json) : option (json * bool) :=
  match f with
  | JDict fd =>
      n <- py_len (dict_get "evidences" (JList []) fd) ;;
      if MAX_JS_EVIDENCE_PER_FILE L <? n then
        ev <- lookup "evidences" fd ;;
        ev' <- py_slice_to ev (MAX_JS_EVIDENCE_PER_FILE L) ;;
        Some (JDict (assign "evidences" ev' fd), true)
      else Some (f, false)
  | _ => None
  end.

(** [cur.get("html", {}).get("highlights", {})], then [.items()] *)
Definition html_highlights_of (cur : json) : option pydict :=
  match cur with
  | JDict d =>
      match dict_get "html" (JDict []) d with
      | JDict h =>
          match dict_get "highlights" (JDict []) h with
          | JDict hh => Some hh
          | _ => None
          end
      | _ => None
      end
  | _ => None
  end.

Definition cap_bucket (L : limits) (kv : string * json) : (string * json) * bool :=
  match snd kv with
  | JList arr =>
      if MAX_HTML_EVIDENCE_PER_BUCKET L <? Z.of_nat (List.length arr)
      then ((fst kv, JList (Py.list_to arr (MAX_HTML_EVIDENCE_PER_BUCKET L))), true)
      else (kv, false)
  | _ => (kv, false)
  end.

(** The buckets are updated in place inside [cur["html"]["highlights"]];
    when one of the two keys is absent the loop ran over the empty
    default and nothing was updated. *)
Definition store_highlights (cur : json) (hh : pydict) : json :=
  match cur with
  | JDict d =>
      match lookup "html" d with
      | Some (JDict h) =>
          match lookup "highlights" h with
          | Some _ => JDict (assign "html" (JDict (assign "highlights" (JDict hh) h)) d)
          | None => cur
          end
      | _ => cur
      end
  | _ => cur
  end.

(** The body of the [for] loop after the size test: the first of the
    four steps that applies. *)
Definition reduce (L : limits) (cur : json) : option json :=
  js_files <- js_files_of cur ;;
  n <- py_len js_files ;;
  if MAX_JS_FILES L <? n then
    cut <- py_slice_to js_files (MAX_JS_FILES L) ;;
    store_files cur cut
  else
    fs <- py_iter js_files ;;
    rs <- mapM (cap_evidences L) fs ;;
    if existsb snd rs then
      match js_files with
      | JList _ => store_files cur (JList (map fst rs))
      | _ => Some cur
      end
    else
      hh <- html_highlights_of cur ;;
      let bs := map (cap_bucket L) hh in
      if existsb snd bs then Some (store_highlights cur (map fst bs))
      else Some (truncate L cur).

(** [for _ in range(fuel)]: stop as soon as the size fits, give back
    whatever is there when the rounds are used up.  The second component
    counts the rounds whose body ran. *)
Fixpoint shrink_loop (fuel : nat) (L : limits) (limit : Z) (cur : json)
  : option (json * nat) :=
  match fuel with
  | O => Some (cur, O)
  | S k =>
      if size cur <=? limit then Some (cur, O)
      else
        next <- reduce L cur ;;
        r <- shrink_loop k L limit next ;;
        Some (fst r, S (snd r))
  end.

Definition max_rounds : nat := 20.

Definition shrink_run (L : limits) (payload : json) (limit : Z) : option (json * nat) :=
  shrink_loop max_rounds L limit payload.

Definition _shrink_payload (L : limits) (payload : json) (limit : Z) : option json :=
  option_map fst (shrink_run L payload limit).

(** The state after [k] rounds whose body ran. *)
Fixpoint rounds (L : limits) (k : nat) (cur : json) : option json :=
  match k with
  | O => Some cur
  | S k' => next <- reduce L cur ;; rounds L k' next
  end.

(** ** [is_data_uri] and [abs_url] *)

(** The outcome of a call: a value, or a raised exception. *)
Inductive res (A : Type) : Type :=
| Ret (a : A)
| Raise.
Arguments Ret {A} a.
Arguments Raise {A}.

(** [try: body  except Exception: handler] *)
Definition try_except {A} (body handler : res A) : res A :=
  match body with
  | Ret a => Ret a
  | Raise => handler
  end.

Definition is_data_uri (u : option string) : bool :=
  match u with
  | Some s => Py.startswith (Py.lower (Py.strip s)) "data:"
  | None => false
  end.

(** Truth value of an optional string: [None] and [""] are false. *)
Definition truthy (u : option string) : bool :=
  match u with
  | Some (String _ _) => true
  | _ => false
  end.

(** [x or ""] *)
Definition or_empty (u : option string) : string :=
  match u with
  | Some (String c r) => String c r
  | _ => EmptyString
  end.

Section AbsUrl.
(** [urllib.parse.urljoin], which is not part of this repository. *)
Variable urljoin : string -> string -> res string.

Definition abs_url (base_url maybe_rel : option string) : res (option string) :=
  if negb (truthy maybe_rel) then Ret None
  else if is_data_uri maybe_rel then Ret maybe_rel
  else
    try_except
      (match urljoin (or_empty base_url) (or_empty maybe_rel) with
       | Ret u => Ret (Some u)
       | Raise => Raise
       end)
      (Ret maybe_rel).
End AbsUrl.

(** ** The anchor loop of [analyze_html] *)

(** An element of [soup.find_all("a", href=True)]: the parser gives
    [href] and [target] as strings and the multi-valued [rel] as the
    list of its tokens; [a_outer] is [outer(a)]. *)
Record anchor : Type := Anchor {
  a_outer : string;
  a_href : string;
  a_target : option string;
  a_rel : option (list string)
}.

Definition opt_str (u : option string) : json :=
  match u with
  | Some s => JStr s
  | None => JNull
  end.

Definition opt_tokens (u : option (list string)) : json :=
  match u with
  | Some l => JList (map JStr l)
  | None => JNull
  end.

Definition res_json (r : res (option string)) : json :=
  match r with
  | Ret u => opt_str u
  | Raise => JNull
  end.

(** [not a.get("rel") or "noopener" not in " ".join(a.get("rel"))] *)
Definition rel_lacks_noopener (rel : option (list string)) : bool :=
  match rel with
  | None => true
  | Some [] => true
  | Some l => negb (Py.contains "noopener" (Py.join " " l))
  end.

Definition is_target_blank (a : anchor) : bool :=
  match a_target a with
  | Some t => String.eqb t "_blank"
  | None => false
  end.

Record anchor_buckets : Type := AnchorBuckets {
  javascript_href_links : list json;
  target_blank_without_noopener : list json;
  links : list json
}.

Section AnalyzeHtml.
Variable urljoin : string -> string -> res string.
Variable site_url : option string.

Definition javascript_href_record (a : anchor) : json :=
  JDict [("outer_html", JStr (a_outer a)); ("href", JStr (a_href a))].

Definition target_blank_record (a : anchor) : json :=
  JDict [("outer_html", JStr (a_outer a));
         ("href", JStr (a_href a));
         ("href_abs", res_json (abs_url urljoin site_url (Some (a_href a))));
         ("target", opt_str (a_target a));
         ("rel", opt_tokens (a_rel a))].

Definition link_record (a : anchor) : json :=
  JDict [("outer_html", JStr (a_outer a));
         ("href", JStr (a_href a));
         ("href_abs", res_json (abs_url urljoin site_url (Some (a_href a))))].

(** One pass of the body of [for a in soup.find_all("a", href=True)]. *)
Definition anchor_step (ev : anchor_buckets) (a : anchor) : anchor_buckets :=
  let js :=
    if Py.startswith (Py.lower (Py.strip (a_href a))) "javascript:"
    then (javascript_href_links ev ++ [javascript_href_record a])%list
    else javascript_href_links ev in
  let tb :=
    if is_target_blank a && rel_lacks_noopener (a_rel a)
    then (target_blank_without_noopener ev ++ [target_blank_record a])%list
    else target_blank_without_noopener ev in
  AnchorBuckets js tb (links ev ++ [link_record a])%list.

Definition analyze_anchors (anchors : list anchor) : anchor_buckets :=
  fold_left anchor_step anchors (AnchorBuckets [] [] []).
End AnalyzeHtml.

(** ** The part of [re] that [JS_PATTERNS] uses *)

Module Re.

(** What one character of the text is tested against. *)
Inductive item : Type :=
| Chr (c : ascii)            (* a literal character *)
| Space                      (* \s *)
| OneOf (members : string)   (* [...] *)
| NoneOf (members : string). (* [^...] *)

(** Patterns.  Repetition is only ever applied to a single item in
    [JS_PATTERNS]; groups do not change what is matched and are not
    represented. *)
Inductive regex : Type :=
| Eps
| One (i : item)
| Star (i : item)
| Plus (i : item)
| WordB                      (* \b *)
| Seq (a b : regex)
| Alt (a b : regex).

Fixpoint mem (c : ascii) (members : string) : bool :=
  match members with
  | EmptyString => false
  | String m r => Ascii.eqb c m || mem c r
  end.

(** [ic] is the IGNORECASE flag. *)
Definition item_ok (ic : bool) (i : item) (c : ascii) : bool :=
  match i with
  | Chr x => if ic then Ascii.eqb (Py.lower_char x) (Py.lower_char c) else Ascii.eqb x c
  | Space => Py.isspace c
  | OneOf m => mem c m
  | NoneOf m => negb (mem c m)
  end.

(** \w on one character. *)
Definition is_word (c : ascii) : bool :=
  let n := Py.ord c in
  ((48 <=? n) && (n <=? 57) || (65 <=? n) && (n <=? 90) || (n =? 95)
   || (97 <=? n) && (n <=? 122)
   || (n =? 170) || (n =? 178) || (n =? 179) || (n =? 181) || (n =? 185)
   || (n =? 186) || (188 <=? n) && (n <=? 190)
   || (192 <=? n) && negb (n =? 215) && negb (n =? 247))%nat.

Definition word_before (prev : option ascii) : bool :=
  match prev with
  | Some c => is_word c
  | None => false
  end.

Definition word_after (rest : string) : bool :=
  match rest with
  | String c _ => is_word c
  | EmptyString => false
  end.

(** A continuation receives the character before the cursor, the text
    from the cursor on and the offset of the cursor; it answers with the
    offset at which the whole match ends. *)
Definition cont : Type := option ascii -> string -> nat -> option nat.

(** Greedy repetition of one item, giving characters back on failure. *)
Fixpoint star (ic : bool) (i : item) (prev : option ascii) (rest : string)
  (pos : nat) (k : cont) : option nat :=
  match rest with
  | String c r =>
      if item_ok ic i c then
        match star ic i (Some c) r (S pos) k with
        | Some e => Some e
        | None => k prev rest pos
        end
      else k prev rest pos
  | EmptyString => k prev rest pos
  end.

Fixpoint run (ic : bool) (r : regex) (prev : option ascii) (rest : string)
  (pos : nat) (k : cont) : option nat :=
  match r with
  | Eps => k prev rest pos
  | One i =>
      match rest with
      | String c r' => if item_ok ic i c then k (Some c) r' (S pos) else None
      | EmptyString => None
      end
  | Star i => star ic i prev rest pos k
  | Plus i =>
      match rest with
      | String c r' => if item_ok ic i c then star ic i (Some c) r' (S pos) k else None
      | EmptyString => None
      end
  | WordB => if xorb (word_before prev) (word_after rest) then k prev rest pos else None
  | Seq a b => run ic a prev rest pos (fun p' r' n' => run ic b p' r' n' k)
  | Alt a b =>
      match run ic a prev rest pos k with
      | Some e => Some e
      | None => run ic b prev rest pos k
      end
  end.

(** A match anchored at the cursor: the offset where it ends. *)
Definition match_here (ic : bool) (r : regex) (prev : option ascii) (rest : string)
  (pos : nat) : option nat :=
  run ic r prev rest pos (fun _ _ e => Some e).

(** The matches from the cursor on, as [(m.start(), m.end())], leftmost
    first and without overlap.  [skip] is the number of characters still
    covered by the previous match.  (After an empty match the search
    moves on by one character; no pattern of [JS_PATTERNS] matches the
    empty string.) *)
Fixpoint scan (ic : bool) (r : regex) (prev : option ascii) (rest : string)
  (pos skip : nat) : list (nat * nat) :=
  match rest with
  | EmptyString =>
      match skip, match_here ic r prev rest pos with
      | O, Some e => [(pos, e)]
      | _, _ => []
      end
  | String c rest' =>
      match skip with
      | S skip' => scan ic r (Some c) rest' (S pos) skip'
      | O =>
          match match_here ic r prev rest pos with
          | Some e => (pos, e) :: scan ic r (Some c) rest' (S pos) (e - pos - 1)
          | None => scan ic r (Some c) rest' (S pos) O
          end
      end
  end.

Definition finditer (ic : bool) (r : regex) (text : string) : list (nat * nat) :=
  scan ic r None text O O.

(** Writing patterns. *)
Fixpoint lit (s : string) : regex :=
  match s with
  | EmptyString => Eps
  | String c r => Seq (One (Chr c)) (lit r)
  end.

Fixpoint cat (rs : list regex) : regex :=
  match rs with
  | [] => Eps
  | r :: rest => Seq r (cat rest)
  end.

Fixpoint alt (rs : list regex) : regex :=
  match rs with
  | [] => Eps
  | [r] => r
  | r :: rest => Alt r (alt rest)
  end.

Definition quotes : string := String "'" (String Py.dquote "").
Definition ws : regex := Star Space.                 (* \s* *)
Definition ws1 : regex := Plus Space.                (* \s+ *)
Definition quote : regex := One (OneOf quotes).      (* a quote of either kind *)
Definition unquoted : regex := Plus (NoneOf quotes). (* one or more characters other than quotes *)

End Re.

(** ** [analyze_js] *)

(** [JS_PATTERNS]: the compiled pattern and the label, in source order. *)
Definition JS_PATTERNS : list (Re.regex * string) :=
  let b := Re.WordB in
  let ws := Re.ws in
  let lit := Re.lit in
  let cat := Re.cat in
  let storage := Re.alt [lit "setItem"; lit "getItem"; lit "removeItem"] in
  [ (cat [b; lit "eval"; ws; lit "("], "use_of_eval");
    (cat [b; lit "new"; Re.ws1; lit "Function"; ws; lit "("], "new_Function");
    (cat [b; lit "set"; Re.alt [lit "Timeout"; lit "Interval"]; ws; lit "("; ws; Re.quote],
     "setTimeout_string_code");
    (cat [lit ".innerHTML"; ws; lit "="], "innerHTML_assignment");
    (cat [lit ".outerHTML"; ws; lit "="], "outerHTML_assignment");
    (cat [lit ".insertAdjacentHTML"; ws; lit "("], "insertAdjacentHTML");
    (cat [b; lit "document.write"; ws; lit "("], "document_write");
    (cat [b; lit "document.cookie"; b], "document_cookie_access");
    (cat [b; lit "localStorage."; storage; ws; lit "("], "localStorage_usage");
    (cat [b; lit "sessionStorage."; storage; ws; lit "("], "sessionStorage_usage");
    (cat [b; lit "dangerouslySetInnerHTML"; b], "react_dangerouslySetInnerHTML");
    (cat [b; lit "fetch"; ws; lit "("; ws; Re.quote; Re.unquoted], "fetch_call");
    (cat [b; lit "XMLHttpRequest"; ws; lit "("], "xhr_usage");
    (cat [lit ".open"; ws; lit "("; ws; Re.quote;
          Re.alt [lit "GET"; lit "POST"; lit "PUT"; lit "DELETE"; lit "PATCH"];
          Re.quote; ws; lit ","; ws; Re.quote; Re.unquoted], "xhr_open");
    (cat [b; lit "URLSearchParams"; ws; lit "("], "urlsearchparams_usage");
    (cat [b; lit "location."; Re.alt [lit "hash"; lit "search"; lit "href"]; b],
     "location_usage") ].

(** [str.splitlines]: the line boundaries among the code points 0..255
    are \n, \r, \r\n, \x0b, \x0c, \x1c, \x1d, \x1e and \x85. *)
Definition is_linebreak (c : ascii) : bool :=
  let n := Py.ord c in
  ((10 <=? n) && (n <=? 13) || (28 <=? n) && (n <=? 30) || (n =? 133))%nat.

Fixpoint splitlines_from (s line : string) (after_cr : bool) : list string :=
  match s with
  | EmptyString =>
      match line with
      | EmptyString => []
      | _ => [line]
      end
  | String c r =>
      if after_cr && Ascii.eqb c Py.nl then splitlines_from r line false
      else if is_linebreak c then line :: splitlines_from r EmptyString (Ascii.eqb c (Py.chr 13))
      else splitlines_from r (line ++ String c EmptyString) false
  end.

Definition splitlines (s : string) : list string := splitlines_from s EmptyString false.

(** [s.count(sub, 0, stop)] for a non-empty [sub]: occurrences that do
    not overlap, inside [s[0:stop]]. *)
Fixpoint count_from (sub s : string) (skip : nat) : nat :=
  match s with
  | EmptyString => O
  | String _ r =>
      match skip with
      | S k => count_from sub r k
      | O =>
          if String.prefix sub s
          then S (count_from sub r (String.length sub - 1))
          else count_from sub r O
      end
  end.

Definition count (sub s : string) (stop : nat) : Z :=
  Z.of_nat (count_from sub (Py.take stop s) O).

(** [range(lo, hi)] *)
Definition range (lo hi : Z) : list Z :=
  map (fun i => lo + Z.of_nat i) (seq O (Z.to_nat (hi - lo))).

(** One entry of [evidences]. *)
Record evidence : Type := Evidence {
  pattern : string;
  regex : Re.regex;
  filename : string;
  line_no : Z;
  context : list (Z * string)
}.

Section AnalyzeJs.
Variable js_text : string.
Variable file : string.

Definition lines : list string := splitlines js_text.

(** The body of the inner loop, for the match starting at [start]. *)
Definition evidence_at (pl : Re.regex * string) (start : nat) : evidence :=
  let line_index := count (String Py.nl "") js_text start in
  let line_no := line_index + 1 in
  let ctx :=
    map (fun ln => (ln + 1, nth (Z.to_nat ln) lines EmptyString))
        (range (Z.max 0 (line_no - 1))
               (Z.min (Z.of_nat (List.length lines)) (line_no + 2))) in
  Evidence (snd pl) (fst pl) file line_no ctx.

Definition detector_hits (pl : Re.regex * string) : list evidence :=
  map (fun m => evidence_at pl (fst m)) (Re.finditer true (fst pl) js_text).

(** The [evidences] list of [analyze_js]. *)
Definition analyze_js : list evidence := flat_map detector_hits JS_PATTERNS.
End AnalyzeJs.

(** ** The scan for secrets of [analyze_html] *)

(** [s[lo:hi]] *)
Definition str_slice (s : string) (lo hi : Z) : string :=
  let n := String.length s in
  Py.take (Py.bound n hi - Py.bound n lo) (Py.drop (Py.bound n lo) s).

(** [s[a:b]] for offsets [a] and [b] of [s]. *)
Definition between (a b : nat) (s : string) : string :=
  Py.take (b - a) (Py.drop a s).

(** [x{n}] and [x{n,}] for one item [x]. *)
Definition times (n : nat) (i : Re.item) : Re.regex := Re.cat (repeat (Re.One i) n).
Definition at_least (n : nat) (i : Re.item) : Re.regex := Re.Seq (times n i) (Re.Star i).

Definition ascii_digits : string := "0123456789".
Definition ascii_upper : string := "ABCDEFGHIJKLMNOPQRSTUVWXYZ".
Definition ascii_lower : string := "abcdefghijklmnopqrstuvwxyz".

(** The list [patterns] of [analyze_html]: the compiled pattern and the
    name, in source order. *)
Definition patterns : list (Re.regex * string) :=
  [ (Re.Seq (Re.lit "AKIA") (times 16 (Re.OneOf (ascii_digits ++ ascii_upper))),
     "aws_access_key_id");
    (Re.Seq (Re.lit "AIzaSy") (times 35 (Re.OneOf (ascii_digits ++ ascii_upper ++ ascii_lower ++ "-_"))),
     "gcp_api_key");
    (Re.Seq (Re.lit "sk-") (at_least 20 (Re.OneOf (ascii_upper ++ ascii_lower ++ ascii_digits))),
     "openai_key_like") ].

Section Secrets.
Variable html_text : string.

(** The body of the inner loop, for the match [m]. *)
Definition secret_record (name : string) (m : nat * nat) : json :=
  let start := Z.max 0 (Z.of_nat (fst m) - 60) in
  let end_ := Z.min (Py.len html_text) (Z.of_nat (snd m) + 60) in
  JDict [("name", JStr name); ("match", JStr (str_slice html_text start end_))].

(** The [potential_secrets_in_html] bucket. *)
Definition potential_secrets_in_html : list json :=
  flat_map (fun pn => map (secret_record (snd pn)) (Re.finditer false (fst pn) html_text))
           patterns.
End Secrets.

(** ** Vocabulary of the statements *)

(** The number of newline characters among the first [start] characters. *)
Definition newlines_before (text : string) (start : nat) : Z :=
  Z.of_nat (List.length (filter (Ascii.eqb Py.nl) (firstn start (list_ascii_of_string text)))).

(** The start offsets of the matches of one detector, and of all of
    them in the order in which [analyze_js] visits them. *)
Definition match_starts (text : string) (pl : Re.regex * string) : list nat :=
  map fst (Re.finditer true (fst pl) text).

Definition all_match_starts (text : string) : list nat :=
  flat_map (match_starts text) JS_PATTERNS.

(** The script of the example in section 8 of the specification. *)
Definition eval_script : string :=
  "const x = 1;" ++ String Py.nl ("eval(userInput);" ++ String Py.nl "").

(** URL resolution as the specification words it: a reference that
    starts with the data scheme is passed through, any other reference
    is resolved against the base, and the raw reference is the fallback
    when resolution fails. *)
Definition abs_url_spec (urljoin : string -> string -> res string)
  (base_url : option string) (raw : string) : res (option string) :=
  if Py.startswith (Py.lower (Py.strip raw)) "data:" then Ret (Some raw)
  else match urljoin (or_empty base_url) raw with
       | Ret u => Ret (Some u)
       | Raise => Ret (Some raw)
       end.

(** The target-blank test as the specification words it: the target is
    [_blank] and no token of [rel] is equal to [noopener]. *)
Definition no_noopener_token (rel : option (list string)) : bool :=
  match rel with
  | None => true
  | Some l => negb (existsb (String.eqb "noopener") l)
  end.

Definition target_blank_spec (a : anchor) : bool :=
  is_target_blank a && no_noopener_token (a_rel a).

(** The test that the loop applies. *)
Definition target_blank_test (a : anchor) : bool :=
  is_target_blank a && rel_lacks_noopener (a_rel a).

(** Where a value sits inside a payload: the keys and list indices
    that lead to it from the root. *)
Inductive step : Type :=
| Key (k : string)
| Idx (i : nat).

Fixpoint at_path (path : list step) (v : json) : option json :=
  match path with
  | [] => Some v
  | Key k :: rest =>
      match v with
      | JDict d =>
          match lookup k d with
          | Some w => at_path rest w
          | None => None
          end
      | _ => None
      end
  | Idx i :: rest =>
      match v with
      | JList l =>
          match nth_error l i with
          | Some w => at_path rest w
          | None => None
          end
      | _ => None
      end
  end.

(** The string held by the [outer_html] field of the record at [path]. *)
Definition outer_html_at (path : list step) (v : json) : option string :=
  match at_path (path ++ [Key "outer_html"]) v with
  | Some (JStr s) => Some s
  | _ => None
  end.

(** Every [outer_html] string of [v'] is the [outer_html] string of [v]
    at the same place. *)
Definition keeps_outer_html (v v' : json) : Prop :=
  forall path s, outer_html_at path v' = Some s -> outer_html_at path v = Some s.

(** No [outer_html] string anywhere in [v]. *)
Definition no_outer_html (v : json) : Prop :=
  forall path, outer_html_at path v = None.

(** One round of the loop, as a relation between the payload before and
    after: the four constructors are the four steps, each with the tests
    that lead to it. *)
Inductive reduces (L : limits) : json -> json -> Prop :=
| reduces_files x files n cut y :
    js_files_of x = Some files ->
    py_len files = Some n ->
    MAX_JS_FILES L < n ->
    py_slice_to files (MAX_JS_FILES L) = Some cut ->
    store_files x cut = Some y ->
    reduces L x y
| reduces_evidences x l rs y :
    js_files_of x = Some (JList l) ->
    Z.of_nat (List.length l) <= MAX_JS_FILES L ->
    mapM (cap_evidences L) l = Some rs ->
    existsb snd rs = true ->
    store_files x (JList (map fst rs)) = Some y ->
    reduces L x y
| reduces_buckets x files n fs hh :
    js_files_of x = Some files ->
    py_len files = Some n ->
    n <= MAX_JS_FILES L ->
    py_iter files = Some fs ->
    mapM (cap_evidences L) fs = Some (map (fun f => (f, false)) fs) ->
    html_highlights_of x = Some hh ->
    existsb snd (map (cap_bucket L) hh) = true ->
    reduces L x (store_highlights x (map fst (map (cap_bucket L) hh)))
| reduces_strings x files n fs hh :
    js_files_of x = Some files ->
    py_len files = Some n ->
    n <= MAX_JS_FILES L ->
    py_iter files = Some fs ->
    mapM (cap_evidences L) fs = Some (map (fun f => (f, false)) fs) ->
    html_highlights_of x = Some hh ->
    existsb snd (map (cap_bucket L) hh) = false ->
    reduces L x (truncate L x).

(** What the bucket loop does to the value of one bucket. *)
Definition cap_value (L : limits) (v : json) : json :=
  match v with
  | JList arr =>
      if MAX_HTML_EVIDENCE_PER_BUCKET L <? Z.of_nat (List.length arr)
      then JList (Py.list_to arr (MAX_HTML_EVIDENCE_PER_BUCKET L))
      else v
  | _ => v
  end.

(** [compacted x y]: [y] is [x] with tails of lists dropped and strings
    replaced, and nothing else changed; the keys of every dictionary
    are the same in the same order, and a string stored under
    [outer_html] is the same string. *)
Unset Elimination Schemes.
Inductive compacted : json -> json -> Prop :=
| compacted_null : compacted JNull JNull
| compacted_bool b : compacted (JBool b) (JBool b)
| compacted_int z : compacted (JInt z) (JInt z)
| compacted_str s t : compacted (JStr s) (JStr t)
| compacted_list l l' n :
    Forall2 compacted (firstn n l) l' ->
    compacted (JList l) (JList l')
| compacted_dict d d' :
    Forall2 (fun kv kv' : string * json =>
               fst kv' = fst kv
               /\ (fst kv = "outer_html" -> forall s, snd kv = JStr s -> snd kv' = JStr s)
               /\ compacted (snd kv) (snd kv')) d d' ->
    compacted (JDict d) (JDict d').
Set Elimination Schemes.

(** [s] after [k] elisions at the string limit. *)
Definition elide_n (L : limits) (k : nat) (s : string) : string :=
  Nat.iter k (fun u => _truncate_text u (MAX_STR_FIELD L)) s.

(** [pruned L x y]: [y] is [x] with tails of lists dropped and string
    fields elided, and nothing else changed.  Numbers, booleans and
    [None] are the same; a string that is an item of a list is the same;
    a list of [y] is a prefix of the list of [x], item by item; a
    dictionary of [y] has the keys of the dictionary of [x] in the same
    order; a string stored under [outer_html] is the same string; a
    string stored under any other key is that string after zero or more
    elisions by [_truncate_text] at the limit [MAX_STR_FIELD]. *)
Unset Elimination Schemes.
Inductive pruned (L : limits) : json -> json -> Prop :=
| pruned_null : pruned L JNull JNull
| pruned_bool b : pruned L (JBool b) (JBool b)
| pruned_int z : pruned L (JInt z) (JInt z)
| pruned_str s : pruned L (JStr s) (JStr s)
| pruned_list l l' n :
    Forall2 (pruned L) (firstn n l) l' ->
    pruned L (JList l) (JList l')
| pruned_dict d d' :
    Forall2 (fun kv kv' : string * json =>
               fst kv' = fst kv
               /\ (forall s, snd kv = JStr s -> fst kv = "outer_html" ->
                   snd kv' = JStr s)
               /\ (forall s, snd kv = JStr s -> fst kv <> "outer_html" ->
                   exists k, snd kv' = JStr (elide_n L k s))
               /\ ((forall s, snd kv <> JStr s) -> pruned L (snd kv) (snd kv'))) d d' ->
    pruned L (JDict d) (JDict d').
Set Elimination Schemes.

(** The relation between an entry of a dictionary and the entry that
    takes its place. *)
Definition pruned_entry (L : limits) (kv kv' : string * json) : Prop :=
  fst kv' = fst kv
  /\ (forall s, snd kv = JStr s -> fst kv = "outer_html" -> snd kv' = JStr s)
  /\ (forall s, snd kv = JStr s -> fst kv <> "outer_html" ->
      exists k, snd kv' = JStr (elide_n L k s))
  /\ ((forall s, snd kv <> JStr s) -> pruned L (snd kv) (snd kv')).

(** A record that is still in the output holds the protected field that
    it holds in the input: wherever the output has a value at a path
    and the input has an [outer_html] string under that path, the
    output has the same string there. *)
Definition outer_html_kept (v v' : json) : Prop :=
  forall path r s,
    at_path path v' = Some r ->
    outer_html_at path v = Some s -> outer_html_at path v' = Some s.

(** The shape of the payload that [build_messages] hands to the
    compactor: [html.highlights] is a dictionary, [javascript.files] is
    a list of dictionaries, and each of them has a list of evidences. *)
Definition is_file (f : json) : bool :=
  match f with
  | JDict fd =>
      match lookup "evidences" fd with
      | Some (JList _) => true
      | _ => false
      end
  | _ => false
  end.

Definition assembled (p : json) : bool :=
  match p with
  | JDict d =>
      match lookup "javascript" d, lookup "html" d with
      | Some (JDict js), Some (JDict h) =>
          match lookup "files" js, lookup "highlights" h with
          | Some (JList fs), Some (JDict _) => forallb is_file fs
          | _, _ => false
          end
      | _, _ => false
      end
  | _ => false
  end.

(** Limits under which the compactor behaves as section 4.3 describes:
    the three counts are not negative and the string limit leaves room
    for the elision marker.  The defaults satisfy them. *)
Definition limits_ok (L : limits) : Prop :=
  0 <= MAX_JS_FILES L
  /\ 0 <= MAX_JS_EVIDENCE_PER_FILE L
  /\ 0 <= MAX_HTML_EVIDENCE_PER_BUCKET L
  /\ 51 <= MAX_STR_FIELD L.

(** The length of the serialisation, as a natural number. *)
Definition jsize (v : json) : nat := String.length (dumps v).

(** A value without any container below it holds no [outer_html]. *)
Definition is_leaf (v : json) : Prop :=
  match v with
  | JDict (_ :: _) | JList (_ :: _) => False
  | _ => True
  end.

(** Conditions on the limits under which the loop converges: the three
    counts are not negative, and the string limit is at least 51, or at
    least 4 when the payload has the layout of [build_messages]. *)
Definition counts_ok (L : limits) : Prop :=
  0 <= MAX_JS_FILES L
  /\ 0 <= MAX_JS_EVIDENCE_PER_FILE L
  /\ 0 <= MAX_HTML_EVIDENCE_PER_BUCKET L.

Definition string_limit_ok (L : limits) (x : json) : Prop :=
  51 <= MAX_STR_FIELD L \/ (4 <= MAX_STR_FIELD L /\ assembled x = true).

(** The tests of the first three steps all fail on [x]: the file list,
    every evidence list and every bucket are within their limits. *)
Definition files_capped (L : limits) (x : json) : Prop :=
  exists files n,
    js_files_of x = Some files /\ py_len files = Some n /\ n <= MAX_JS_FILES L.

Definition evidences_capped (L : limits) (x : json) : Prop :=
  exists files fs,
    js_files_of x = Some files /\ py_iter files = Some fs
    /\ Forall (fun f => cap_evidences L f = Some (f, false)) fs.

Definition buckets_capped (L : limits) (x : json) : Prop :=
  exists hh,
    html_highlights_of x = Some hh /\ existsb snd (map (cap_bucket L) hh) = false.

(** What [truncate] does to the value [v] stored under the key [k]. *)
Definition truncate_entry (L : limits) (k : string) (v : json) : json :=
  if String.eqb k "outer_html" then v
  else match v with
       | JStr s =>
           if MAX_STR_FIELD L <? Py.len s
           then JStr (_truncate_text s (MAX_STR_FIELD L))
           else v
       | _ => truncate L v
       end.

(** The text of one entry of a dictionary. *)
Definition entry_text (kv : string * json) : string :=
  dumps_str (fst kv) ++ ": " ++ dumps (snd kv).

(** A small payload with the layout of [build_messages], limits that
    make every step of the compactor apply to it, and what the compactor
    returns for it when the budget cannot be met. *)
Definition sample_form (action : string) : json :=
  JDict [("outer_html",
          JStr ("<form action=" ++ action
                ++ " method=post><input name=user><input name=pass type=password></form>"));
         ("action", JStr action);
         ("action_abs", JStr ("https://a.test" ++ action));
         ("method", JStr "POST")].

Definition sample_hit (line : Z) (code : string) : json :=
  JDict [("pattern", JStr "use_of_eval");
         ("filename", JStr "app.js");
         ("line_no", JInt line);
         ("context", JList [JDict [("line", JInt line); ("code", JStr code)]])].

Definition sample_file (name : string) : json :=
  JDict [("filename", JStr name);
         ("sha1", JStr "da39a3ee5e6b4b0d3255bfef95601890afd80709");
         ("evidences",
          JList [sample_hit 7 "window.eval(  decodeURIComponent(location.hash.slice(1))  );";
                 sample_hit 9 "eval(userInput);"]);
         ("endpoints", JList [])].

Definition sample_payload : json :=
  JDict [("site_url", JStr "https://a.test/page");
         ("html",
          JDict [("highlights",
                  JDict [("meta", JDict [("csp_meta_present", JBool false);
                                         ("csp_meta_tag", JNull);
                                         ("charset", JNull)]);
                         ("forms", JList [sample_form "/login"; sample_form "/signup"]);
                         ("links", JList [])])]);
         ("javascript",
          JDict [("files", JList [sample_file "app.js"; sample_file "lib.js"]);
                 ("summary", JDict [("total_files", JInt 2); ("total_hits", JInt 4)])]);
         ("instructions", JDict [("no_payloads", JBool true)])].

Definition sample_limits : limits := Limits 1 1 1 51.

Definition small_limit_output : json :=
  Eval vm_compute in
    match _shrink_payload (Limits 1 1 1 4) sample_payload 0 with
    | Some out => out
    | None => JNull
    end.

Definition sample_output : json :=
  Eval vm_compute in
    match _shrink_payload sample_limits sample_payload 0 with
    | Some out => out
    | None => JNull
    end.

(** What the compactor returns for the sample payload with a budget of
    1000 characters. *)
Definition sample_fit_output : json :=
  Eval vm_compute in
    match _shrink_payload sample_limits sample_payload 1000 with
    | Some out => out
    | None => JNull
    end.

(** A payload with one string field of eleven characters. *)
Definition note_payload : json :=
  JDict [("html", JDict [("highlights", JDict [])]);
         ("javascript", JDict [("files", JList [])]);
         ("note", JStr "abcdefghijk")].

(** A payload with 42 files. *)
Definition many_files_payload : json :=
  JDict [("html", JDict [("highlights", JDict [])]);
         ("javascript",
          JDict [("files",
                  JList (repeat (JDict [("filename", JStr "a.js"); ("evidences", JList [])])
                                42))])].

(** Every string that [truncate] looks at is within the limit: the
    strings stored in a dictionary under a key other than [outer_html],
    at every depth that the walk reaches (it does not descend below
    [outer_html], and it leaves the items of a list that are strings
    alone). *)
Fixpoint fields_within (limit : Z) (v : json) : bool :=
  match v with
  | JDict d =>
      forallb (fun kv : string * json =>
                 let (k, w) := kv in
                 String.eqb k "outer_html"
                 || match w with
                    | JStr s => Py.len s <=? limit
                    | _ => fields_within limit w
                    end) d
  | JList l => forallb (fields_within limit) l
  | _ => true
  end.

(** The least number of characters that a match of a pattern spans. *)
Fixpoint min_width (r : Re.regex) : nat :=
  match r with
  | Re.Eps | Re.Star _ | Re.WordB => 0
  | Re.One _ | Re.Plus _ => 1
  | Re.Seq a b => min_width a + min_width b
  | Re.Alt a b => Nat.min (min_width a) (min_width b)
  end.

(** The record of the match [m] of the scan for secrets, its excerpt
    written as the text before the match, the match and the text after
    it. *)
Definition excerpt_record (html_text name : string) (m : nat * nat) : json :=
  JDict [("name", JStr name);
         ("match",
          JStr (between (fst m - 60) (fst m) html_text
                ++ between (fst m) (snd m) html_text
                ++ between (snd m) (Nat.min (snd m + 60) (String.length html_text))
                           html_text))].

(** The string limits with which [_truncate_text] does not raise:
    [int(limit * 0.6)] converts the limit to a [float], which raises
    [OverflowError] for an integer of 2^1024 or more in absolute value;
    a positive limit of that size is never exceeded by the length of a
    string, so that the conversion is not reached. *)
Definition float_range (limit : Z) : Prop := - 2 ^ 1023 < limit.

(** A payload on which the loop has nothing left to do: it is within
    the budget, or a round of the loop gives it back unchanged. *)
Definition converged (L : limits) (limit : Z) (x : json) : Prop :=
  size x <= limit \/ reduce L x = Some x.

(** The four blocks of the loop body, each taken alone with its own
    test: the file list is cut when it is over its limit, the evidence
    lists that are over their limit are cut, the buckets that are over
    their limit are cut, the string fields are elided. *)
Definition step_files (L : limits) (cur : json) : option json :=
  js_files <- js_files_of cur ;;
  n <- py_len js_files ;;
  if MAX_JS_FILES L <? n then
    cut <- py_slice_to js_files (MAX_JS_FILES L) ;;
    store_files cur cut
  else Some cur.

Definition step_evidences (L : limits) (cur : json) : option json :=
  js_files <- js_files_of cur ;;
  fs <- py_iter js_files ;;
  rs <- mapM (cap_evidences L) fs ;;
  if existsb snd rs then
    match js_files with
    | JList _ => store_files cur (JList (map fst rs))
    | _ => Some cur
    end
  else Some cur.

Definition step_buckets (L : limits) (cur : json) : option json :=
  hh <- html_highlights_of cur ;;
  if existsb snd (map (cap_bucket L) hh)
  then Some (store_highlights cur (map fst (map (cap_bucket L) hh)))
  else Some cur.

Definition step_strings (L : limits) (cur : json) : option json :=
  Some (truncate L cur).

(** The payload with every configured limit applied to it once: what
    the limits allow the compactor to reach.  It is written without the
    loop, its size test and its [continue]s. *)
Definition apply_limits (L : limits) (payload : json) : option json :=
  x1 <- step_files L payload ;;
  x2 <- step_evidences L x1 ;;
  x3 <- step_buckets L x2 ;;
  step_strings L x3.

(** A payload with one string field of 51 characters, a payload whose
    [javascript] dictionary has no file list, and a payload with an
    empty evidence list, an empty bucket, a bucket of two forms and a
    string field of 400 characters. *)
Definition long_note_payload : json :=
  JDict [("html", JDict [("highlights", JDict [])]);
         ("javascript", JDict [("files", JList [])]);
         ("note", JStr "012345678901234567890123456789012345678901234567890")].

Definition no_files_payload : json :=
  JDict [("javascript", JDict [])].

Definition stalled_payload : json :=
  JDict [("html",
          JDict [("highlights",
                  JDict [("forms", JList [sample_form "/login"; sample_form "/signup"]);
                         ("links", JList [])])]);
         ("javascript",
          JDict [("files",
                  JList [JDict [("filename", JStr "a.js"); ("evidences", JList [])]])]);
         ("note", JStr (string_of_list_ascii (repeat "x"%char 400)))].

(** The test of the first [if] of the anchor loop. *)
Definition javascript_href_test (a : anchor) : bool :=
  Py.startswith (Py.lower (Py.strip (a_href a))) "javascript:".

(** [None], a boolean or a number. *)
Definition is_scalar (v : json) : bool :=
  match v with
  | JNull | JBool _ | JInt _ => true
  | _ => false
  end.

(** * Properties of [analyze_js] *)

Lemma take_firstn (n : nat) (s : string) :
  list_ascii_of_string (Py.take n s) = firstn n (list_ascii_of_string s).
Proof.
  revert n; induction s as [|c r IH]; intros [|n]; simpl; try reflexivity.
  now rewrite IH.
Qed.

Lemma prefix_char (a c : ascii) (r : string) :
  String.prefix (String a "") (String c r) = Ascii.eqb a c.
Proof.
  cbn [String.prefix]. destruct (ascii_dec a c) as [->|Hne].
  - rewrite Ascii.eqb_refl. now destruct r.
  - symmetry. now apply Ascii.eqb_neq.
Qed.

Lemma count_from_char (a : ascii) (s : string) :
  count_from (String a "") s O
  = List.length (filter (Ascii.eqb a) (list_ascii_of_string s)).
Proof.
  induction s as [|c r IH]; [reflexivity|].
  cbn [count_from list_ascii_of_string filter String.length Nat.sub].
  rewrite prefix_char. destruct (Ascii.eqb a c); cbn [List.length]; now rewrite IH.
Qed.

Lemma count_newlines (text : string) (start : nat) :
  count (String Py.nl "") text start = newlines_before text start.
Proof.
  unfold count, newlines_before. now rewrite count_from_char, take_firstn.
Qed.

(** C7.  For every script text, the line numbers reported by
    [analyze_js], hit by hit, are 1 plus the number of newline
    characters strictly before the start offset of the match. *)
Theorem analyze_js_line_numbers (text file : string) :
  map line_no (analyze_js text file)
  = map (fun start => 1 + newlines_before text start) (all_match_starts text).
Proof.
  unfold analyze_js, all_match_starts.
  induction JS_PATTERNS as [|pl pls IH]; [reflexivity|].
  cbn [flat_map]. rewrite !map_app, IH. f_equal.
  unfold detector_hits, match_starts. rewrite !map_map.
  apply map_ext; intros m. unfold evidence_at; cbn [line_no].
  rewrite count_newlines. lia.
Qed.

(** Every start offset reported by [scan] is at or after the cursor plus
    the characters still to skip, and the offsets increase strictly. *)
Lemma scan_starts (ic : bool) (r : Re.regex) (rest : string) :
  forall prev pos skip,
    Forall (fun m => (pos + skip <= fst m)%nat) (Re.scan ic r prev rest pos skip)
    /\ StronglySorted lt (map fst (Re.scan ic r prev rest pos skip)).
Proof.
  induction rest as [|c rest IH]; intros prev pos skip; simpl.
  - destruct skip; [destruct (Re.match_here ic r prev "" pos)|]; simpl;
      repeat constructor; simpl; lia.
  - destruct skip as [|skip].
    + destruct (Re.match_here ic r prev (String c rest) pos) as [e|].
      * destruct (IH (Some c) (S pos) (e - pos - 1)%nat) as [Hge Hs].
        split; simpl.
        -- constructor; [simpl; lia|].
           eapply Forall_impl; [|exact Hge]. simpl; intros; lia.
        -- constructor; [exact Hs|].
           rewrite Forall_map. eapply Forall_impl; [|exact Hge]. simpl; intros; lia.
      * destruct (IH (Some c) (S pos) O) as [Hge Hs]. split; [|exact Hs].
        eapply Forall_impl; [|exact Hge]. simpl; intros; lia.
    + destruct (IH (Some c) (S pos) skip) as [Hge Hs]. split; [|exact Hs].
      eapply Forall_impl; [|exact Hge]. simpl; intros; lia.
Qed.

Lemma match_starts_increasing (text : string) (pl : Re.regex * string) :
  StronglySorted lt (match_starts text pl).
Proof. apply scan_starts. Qed.

Lemma pattern_detector_hits (text file : string) (pl : Re.regex * string) :
  map pattern (detector_hits text file pl)
  = repeat (snd pl) (List.length (match_starts text pl)).
Proof.
  unfold detector_hits, match_starts. rewrite map_map, length_map.
  induction (Re.finditer true (fst pl) text) as [|m ms IH]; [reflexivity|].
  cbn [map List.length repeat]. now rewrite IH.
Qed.

(** C10.  The hit list is detector-major: it is the concatenation, in
    the order of [JS_PATTERNS], of one block per detector; the labels of
    the detectors are pairwise distinct, so the hits of one detector are
    consecutive; inside a block the hits follow the strictly increasing
    start offsets of the matches.  The list is not ordered by position
    in the file: a hit on a later line can come first. *)
Theorem analyze_js_detector_major (text file : string) :
  analyze_js text file
  = List.concat (map (fun pl => map (evidence_at text file pl) (match_starts text pl))
                JS_PATTERNS)
  /\ map pattern (analyze_js text file)
     = flat_map (fun pl => repeat (snd pl) (List.length (match_starts text pl)))
                JS_PATTERNS
  /\ NoDup (map snd JS_PATTERNS)
  /\ (forall pl, StronglySorted lt (match_starts text pl))
  /\ (exists script,
        map line_no (analyze_js script file) = [2; 1]
        /\ map pattern (analyze_js script file)
           = ["use_of_eval"; "innerHTML_assignment"]).
Proof.
  split; [|split; [|split; [|split]]].
  - unfold analyze_js. rewrite flat_map_concat_map. f_equal.
    apply map_ext; intros pl. unfold detector_hits, match_starts.
    now rewrite map_map.
  - unfold analyze_js.
    induction JS_PATTERNS as [|pl pls IH]; simpl; [reflexivity|].
    now rewrite map_app, IH, pattern_detector_hits.
  - unfold JS_PATTERNS; simpl.
    repeat (constructor; [simpl; intuition discriminate|]). constructor.
  - apply match_starts_increasing.
  - exists ("a.innerHTML = b;" ++ String Py.nl "eval(c);").
    split; vm_compute; reflexivity.
Qed.

(** C6.  On the script of the specification the hit of the eval
    detector is on line 2 and its context holds line 2 alone: the line
    before the match is not part of the window.  A match on the first
    line of a file of three lines has a context of three entries, the
    matched line and the two lines after it. *)
Theorem analyze_js_context_examples :
  map (fun e => (pattern e, line_no e, context e)) (analyze_js eval_script "a.js")
  = [("use_of_eval", 2, [(2, "eval(userInput);")])]
  /\ map (fun e => (line_no e, context e))
         (analyze_js ("eval(a);" ++ String Py.nl ("b();" ++ String Py.nl "c();")) "a.js")
     = [(1, [(1, "eval(a);"); (2, "b();"); (3, "c();")])].
Proof. split; vm_compute; reflexivity. Qed.

(** The window that [evidence_at] builds: with [i] the newline count
    before the match (the matched line has number [i + 1]), the entries
    are numbered [i + 1], [i + 2], [i + 3], clipped at the end of the
    file: the matched line and the two lines after it. *)
Lemma evidence_at_window (text file : string) (pl : Re.regex * string) (start : nat) :
  map fst (context (evidence_at text file pl start))
  = map (fun ln => ln + 1)
        (range (newlines_before text start)
               (Z.min (Z.of_nat (List.length (lines text)))
                      (newlines_before text start + 3))).
Proof.
  unfold evidence_at. cbn [context]. rewrite map_map. cbn [fst].
  rewrite count_newlines.
  assert (H : 0 <= newlines_before text start) by (unfold newlines_before; lia).
  replace (Z.max 0 (newlines_before text start + 1 - 1))
    with (newlines_before text start) by lia.
  replace (newlines_before text start + 1 + 2)
    with (newlines_before text start + 3) by lia.
  reflexivity.
Qed.

(** * Properties of [abs_url] *)

(** C8 (as stated).  The reference of an element may be the empty
    string; [abs_url] then answers [None], neither the reference itself
    nor its resolution. *)
Lemma abs_url_empty_reference_counterexample :
  ~ (forall urljoin base raw,
       abs_url urljoin base (Some raw) = abs_url_spec urljoin base raw).
Proof.
  intros H.
  specialize (H (fun b r => Ret (b ++ r)) (Some "https://a.test/page") "").
  vm_compute in H. discriminate H.
Qed.

(** C8 (amended).  [abs_url] never raises.  It answers [None] for an
    absent or empty reference; for any other reference it passes a data
    URI through unchanged, resolves every other reference against the
    base and falls back to the raw reference when resolution raises. *)
Theorem abs_url_resolution (urljoin : string -> string -> res string)
  (base_url maybe_rel : option string) :
  abs_url urljoin base_url maybe_rel <> Raise
  /\ abs_url urljoin base_url maybe_rel
     = match maybe_rel with
       | None => Ret None
       | Some EmptyString => Ret None
       | Some raw => abs_url_spec urljoin base_url raw
       end.
Proof.
  assert (E : abs_url urljoin base_url maybe_rel
              = match maybe_rel with
                | None => Ret None
                | Some EmptyString => Ret None
                | Some raw => abs_url_spec urljoin base_url raw
                end).
  { unfold abs_url, abs_url_spec.
    destruct maybe_rel as [[|c r]|]; cbn [truthy negb is_data_uri or_empty];
      try reflexivity.
    destruct (Py.startswith _ _); [reflexivity|].
    destruct (urljoin _ _); reflexivity. }
  split; [|exact E].
  rewrite E. unfold abs_url_spec.
  destruct maybe_rel as [[|c r]|]; try discriminate.
  destruct (Py.startswith _ _); [discriminate|].
  destruct (urljoin _ _); discriminate.
Qed.

(** The example of section 8: a data URI comes back unchanged. *)
Example abs_url_data_uri (urljoin : string -> string -> res string) :
  abs_url urljoin (Some "https://a.test/page") (Some " DATA:text/html,hi")
  = Ret (Some " DATA:text/html,hi").
Proof. reflexivity. Qed.

(** * Properties of the anchor loop *)

Lemma prefix_iff (p s : string) :
  String.prefix p s = true <-> exists suf, s = p ++ suf.
Proof.
  revert s; induction p as [|a p IH]; intros s; cbn [String.prefix].
  - split; [intros _; now exists s|intros _; now destruct s].
  - destruct s as [|b s]; cbn [String.prefix].
    + split; [discriminate|]. intros [suf H]; discriminate H.
    + destruct (ascii_dec a b) as [->|Hne].
      * rewrite IH. split; intros [suf H]; exists suf.
        -- cbn. now rewrite H.
        -- cbn in H. now injection H.
      * split; [discriminate|]. intros [suf H]. cbn in H. injection H; congruence.
Qed.

Lemma contains_iff (sub s : string) :
  Py.contains sub s = true <-> exists pre suf, s = pre ++ sub ++ suf.
Proof.
  induction s as [|c s IH]; cbn [Py.contains].
  - rewrite orb_false_r, prefix_iff. split.
    + intros [suf H]. exists "", suf. exact H.
    + intros [[|a pre] [suf H]]; [now exists suf|discriminate H].
  - rewrite orb_true_iff, prefix_iff, IH. split.
    + intros [[suf H]|[pre [suf H]]].
      * exists "", suf. exact H.
      * exists (String c pre), suf. cbn. now rewrite H.
    + intros [[|a pre] [suf H]].
      * left. now exists suf.
      * right. exists pre, suf. cbn in H. now injection H.
Qed.

Lemma fold_anchor_step_target_blank urljoin site_url (anchors : list anchor) :
  forall ev,
    target_blank_without_noopener (fold_left (anchor_step urljoin site_url) anchors ev)
    = (target_blank_without_noopener ev
       ++ map (target_blank_record urljoin site_url) (filter target_blank_test anchors))%list.
Proof.
  induction anchors as [|a rest IH]; intros ev; cbn [fold_left filter].
  - now rewrite app_nil_r.
  - rewrite IH. unfold anchor_step, target_blank_test.
    cbn [target_blank_without_noopener].
    destruct (is_target_blank a && rel_lacks_noopener (a_rel a));
      [cbn [map]; now rewrite <- app_assoc|reflexivity].
Qed.

Lemma is_target_blank_iff (a : anchor) :
  is_target_blank a = true <-> a_target a = Some "_blank".
Proof.
  unfold is_target_blank. destruct (a_target a) as [t|].
  - rewrite String.eqb_eq. split; congruence.
  - split; discriminate.
Qed.

(** C9 (as stated).  An anchor with [target="_blank"] whose only [rel]
    token is [xnoopener] has no token equal to [noopener], yet the loop
    does not record it. *)
Lemma target_blank_token_counterexample :
  let a := Anchor "<a href=/x rel=xnoopener target=_blank>x</a>" "/x"
             (Some "_blank") (Some ["xnoopener"]) in
  target_blank_spec a = true
  /\ target_blank_without_noopener
       (analyze_anchors (fun b r => Ret (b ++ r)) None [a]) = [].
Proof. split; vm_compute; reflexivity. Qed.

(** C9 (amended).  The bucket holds, in document order, one record for
    every anchor that passes the test of the loop, and an anchor passes
    exactly when its target is [_blank] and the tokens of its [rel],
    joined by single spaces, do not contain [noopener] as a substring
    (in particular when it has no [rel] at all). *)
Theorem target_blank_bucket urljoin site_url (anchors : list anchor) :
  target_blank_without_noopener (analyze_anchors urljoin site_url anchors)
  = map (target_blank_record urljoin site_url) (filter target_blank_test anchors)
  /\ forall a,
       target_blank_test a = true <->
       (a_target a = Some "_blank"
        /\ forall l, a_rel a = Some l ->
             ~ exists pre suf, Py.join " " l = pre ++ "noopener" ++ suf).
Proof.
  split.
  - unfold analyze_anchors. now rewrite fold_anchor_step_target_blank.
  - intros a. unfold target_blank_test.
    rewrite andb_true_iff, is_target_blank_iff.
    apply and_iff_compat_l.
    unfold rel_lacks_noopener. destruct (a_rel a) as [[|t l]|].
    + split; [|reflexivity]. intros _ l' E [pre [suf H]].
      injection E as <-. destruct pre; discriminate H.
    + rewrite negb_true_iff. split.
      * intros Hc l' E Hex. injection E as <-.
        apply contains_iff in Hex. congruence.
      * intros H. destruct (Py.contains "noopener" (Py.join " " (t :: l))) eqn:Hc;
          [|reflexivity].
        exfalso. apply (H (t :: l) eq_refl). now apply contains_iff.
    + split; [|reflexivity]. intros _ l E. discriminate E.
Qed.

(** * Properties of the compactor *)

(** The exact quotients agree with the products taken in binary64 for
    every limit from -2000 to 8000, the default 4000 among them. *)
Lemma int_mul_binary64 :
  forallb (fun i =>
             let limit := Z.of_nat i - 2000 in
             Z.eqb (Py.binary64_int_mul 0x1.3333333333333p-1 limit) (Py.int_mul_0_6 limit)
             && Z.eqb (Py.binary64_int_mul 0x1.3333333333333p-2 limit) (Py.int_mul_0_3 limit))
          (seq 0 10001) = true.
Proof. vm_compute. reflexivity. Qed.


(** ** Association lists *)

Lemma lookup_assign_same (k : string) (v : json) (d : pydict) :
  lookup k (assign k v d) = Some v.
Proof.
  induction d as [|[k' v'] d IH]; cbn [assign lookup].
  - now rewrite String.eqb_refl.
  - destruct (String.eqb k k') eqn:E; cbn [lookup]; rewrite E; [reflexivity|exact IH].
Qed.

Lemma lookup_assign_other (k k' : string) (v : json) (d : pydict) :
  k' <> k -> lookup k' (assign k v d) = lookup k' d.
Proof.
  intros Hne. induction d as [|[k0 v0] d IH]; cbn [assign lookup].
  - apply String.eqb_neq in Hne. now rewrite Hne.
  - destruct (String.eqb k k0) eqn:E; cbn [lookup].
    + apply String.eqb_eq in E. subst k0.
      apply String.eqb_neq in Hne. now rewrite Hne.
    + now rewrite IH.
Qed.

Lemma lookup_map_values (g : string -> json -> json) (k : string) (d : pydict) :
  lookup k (map (fun kv : string * json => (fst kv, g (fst kv) (snd kv))) d)
  = option_map (g k) (lookup k d).
Proof.
  induction d as [|[k' v] d IH]; cbn [map lookup fst snd]; [reflexivity|].
  destruct (String.eqb_spec k k') as [->|Hne]; [reflexivity|exact IH].
Qed.

Lemma lookup_map_snd (g : json -> json) (k : string) (d : pydict) :
  lookup k (map (fun kv : string * json => (fst kv, g (snd kv))) d)
  = option_map g (lookup k d).
Proof. exact (lookup_map_values (fun _ => g) k d). Qed.

(** ** The protected field *)

Lemma truncate_dict (L : limits) (d : pydict) :
  truncate L (JDict d)
  = JDict (map (fun kv : string * json => (fst kv, truncate_entry L (fst kv) (snd kv))) d).
Proof.
  cbn [truncate]. f_equal. apply map_ext. intros [k v]. cbn [fst snd].
  unfold truncate_entry. destruct (String.eqb k "outer_html"); [reflexivity|].
  destruct v; try reflexivity.
  destruct (MAX_STR_FIELD L <? Py.len s); reflexivity.
Qed.

Lemma outer_html_at_nil_dict (d : pydict) :
  outer_html_at [] (JDict d)
  = match lookup "outer_html" d with
    | Some (JStr s) => Some s
    | _ => None
    end.
Proof.
  unfold outer_html_at. cbn [app at_path].
  destruct (lookup "outer_html" d) as [w|]; reflexivity.
Qed.

Lemma outer_html_at_key (k : string) (rest : list step) (d : pydict) :
  outer_html_at (Key k :: rest) (JDict d)
  = match lookup k d with
    | Some w => outer_html_at rest w
    | None => None
    end.
Proof.
  unfold outer_html_at. cbn [app at_path].
  destruct (lookup k d); reflexivity.
Qed.

Lemma outer_html_at_idx (i : nat) (rest : list step) (l : list json) :
  outer_html_at (Idx i :: rest) (JList l)
  = match nth_error l i with
    | Some w => outer_html_at rest w
    | None => None
    end.
Proof.
  unfold outer_html_at. cbn [app at_path].
  destruct (nth_error l i); reflexivity.
Qed.

Lemma outer_html_at_leaf (v : json) (path : list step) :
  is_leaf v -> outer_html_at path v = None.
Proof.
  intros Hleaf. unfold outer_html_at.
  destruct path as [|[k|i] rest]; cbn [app at_path];
    destruct v as [| | | |[|x l]|[|kv d]]; try reflexivity;
      try contradiction; try (now destruct i).
Qed.

Lemma keeps_refl (v : json) : keeps_outer_html v v.
Proof. intros path s H; exact H. Qed.

Lemma keeps_trans (a b c : json) :
  keeps_outer_html a b -> keeps_outer_html b c -> keeps_outer_html a c.
Proof. intros Hab Hbc path s H. apply Hab, Hbc, H. Qed.

Lemma keeps_leaf (v v' : json) : is_leaf v' -> keeps_outer_html v v'.
Proof. intros Hleaf path s H. rewrite outer_html_at_leaf in H by exact Hleaf. discriminate. Qed.

Lemma no_outer_leaf (v : json) : is_leaf v -> no_outer_html v.
Proof. intros H path. now apply outer_html_at_leaf. Qed.

Lemma no_outer_keeps (v v' : json) :
  no_outer_html v -> keeps_outer_html v v' -> no_outer_html v'.
Proof.
  intros Hv Hk path. destruct (outer_html_at path v') as [s|] eqn:E; [|reflexivity].
  apply Hk in E. rewrite Hv in E. discriminate.
Qed.

Lemma keeps_dict (d d' : pydict) :
  (forall s, lookup "outer_html" d' = Some (JStr s) ->
             lookup "outer_html" d = Some (JStr s)) ->
  (forall k w', lookup k d' = Some w' ->
      no_outer_html w' \/ exists w, lookup k d = Some w /\ keeps_outer_html w w') ->
  keeps_outer_html (JDict d) (JDict d').
Proof.
  intros Hroot Hsub [|[k|i] rest] s.
  - rewrite !outer_html_at_nil_dict.
    destruct (lookup "outer_html" d') as [[| | |s'| |]|] eqn:E; try discriminate.
    intros [= ->]. now rewrite (Hroot s eq_refl).
  - rewrite !outer_html_at_key.
    destruct (lookup k d') as [w'|] eqn:E; [|discriminate].
    destruct (Hsub k w' E) as [Hno|[w [Hw Hk]]].
    + now rewrite Hno.
    + rewrite Hw. apply Hk.
  - unfold outer_html_at. cbn [app at_path]. discriminate.
Qed.

Lemma keeps_list (l l' : list json) :
  (forall i w', nth_error l' i = Some w' ->
      exists w, nth_error l i = Some w /\ keeps_outer_html w w') ->
  keeps_outer_html (JList l) (JList l').
Proof.
  intros Hsub [|[k|i] rest] s.
  - unfold outer_html_at. cbn [app at_path]. discriminate.
  - unfold outer_html_at. cbn [app at_path]. discriminate.
  - rewrite !outer_html_at_idx.
    destruct (nth_error l' i) as [w'|] eqn:E; [|discriminate].
    destruct (Hsub i w' E) as [w [Hw Hk]]. rewrite Hw. apply Hk.
Qed.

Lemma keeps_list_to (l : list json) (n : Z) :
  keeps_outer_html (JList l) (JList (Py.list_to l n)).
Proof.
  apply keeps_list. intros i w' H. exists w'. split; [|apply keeps_refl].
  unfold Py.list_to in H. revert H. generalize (Py.bound (List.length l) n).
  intros m. revert i l. induction m as [|m IH]; intros i l H.
  - destruct i; discriminate H.
  - destruct l as [|x l]; [destruct i; discriminate H|].
    destruct i as [|i]; [exact H|]. cbn in H |- *. now apply IH.
Qed.

Lemma keeps_slice (v cut : json) (n : Z) :
  py_slice_to v n = Some cut -> keeps_outer_html v cut.
Proof.
  destruct v; try discriminate; intros [= <-].
  - now apply keeps_leaf.
  - apply keeps_list_to.
Qed.

(** Storing under a key other than [outer_html] a value that keeps the
    protected strings of the value it replaces. *)
Lemma keeps_assign (k : string) (v' : json) (d : pydict) :
  k <> "outer_html" ->
  no_outer_html v' \/ (exists v, lookup k d = Some v /\ keeps_outer_html v v') ->
  keeps_outer_html (JDict d) (JDict (assign k v' d)).
Proof.
  intros Hk Hv. apply keeps_dict.
  - intros s. rewrite lookup_assign_other by congruence. auto.
  - intros k0 w'. destruct (String.eqb_spec k0 k) as [->|Hne].
    + rewrite lookup_assign_same. intros [= <-]. exact Hv.
    + rewrite lookup_assign_other by exact Hne.
      intros H. right. exists w'. split; [exact H|apply keeps_refl].
Qed.

Lemma keeps_truncate (L : limits) (v : json) :
  keeps_outer_html v (truncate L v).
Proof.
  induction v as [| | | |l IH|d IH] using json_ind; try apply keeps_refl.
  - cbn [truncate]. apply keeps_list. intros i w' H.
    rewrite nth_error_map in H.
    destruct (nth_error l i) as [w|] eqn:E; [|discriminate].
    injection H as <-. exists w. split; [reflexivity|].
    rewrite Forall_forall in IH. apply IH. eapply nth_error_In; eassumption.
  - rewrite truncate_dict. apply keeps_dict.
    + intros s. rewrite lookup_map_values.
      destruct (lookup "outer_html" d) as [w|]; [|discriminate].
      cbn [option_map]. unfold truncate_entry. now rewrite String.eqb_refl.
    + intros k w'. rewrite lookup_map_values.
      destruct (lookup k d) as [w|] eqn:E; [|discriminate].
      cbn [option_map]. intros [= <-]. right. exists w. split; [reflexivity|].
      unfold truncate_entry. destruct (String.eqb k "outer_html"); [apply keeps_refl|].
      assert (Hw : keeps_outer_html w (truncate L w)).
      { rewrite Forall_forall in IH.
        assert (Hin : In (k, w) d).
        { clear -E. induction d as [|[k' v'] d IHd]; [discriminate|].
          cbn [lookup] in E. destruct (String.eqb_spec k k') as [->|Hne].
          - injection E as ->. now left.
          - right. auto. }
        apply (IH _ Hin). }
      destruct w; try exact Hw.
      destruct (MAX_STR_FIELD L <? Py.len s); [now apply keeps_leaf|apply keeps_refl].
Qed.

(** ** One round, case by case *)

Lemma bind_some {A B} (x : option A) (f : A -> option B) (b : B) :
  bind x f = Some b -> exists a, x = Some a /\ f a = Some b.
Proof. destruct x as [a|]; [|discriminate]. intros H. now exists a. Qed.

Lemma cap_evidences_inv (L : limits) (f f' : json) (b : bool) :
  cap_evidences L f = Some (f', b) ->
  exists fd n,
    f = JDict fd /\ py_len (dict_get "evidences" (JList []) fd) = Some n
    /\ ((b = false /\ f' = f /\ n <= MAX_JS_EVIDENCE_PER_FILE L)
        \/ (b = true /\ MAX_JS_EVIDENCE_PER_FILE L < n
            /\ exists ev ev',
                 lookup "evidences" fd = Some ev
                 /\ py_slice_to ev (MAX_JS_EVIDENCE_PER_FILE L) = Some ev'
                 /\ f' = JDict (assign "evidences" ev' fd))).
Proof.
  destruct f as [| | | | |fd]; try discriminate. cbn [cap_evidences].
  intros H. apply bind_some in H as [n [Hn H]]. exists fd, n.
  split; [reflexivity|]. split; [exact Hn|].
  destruct (Z.ltb_spec (MAX_JS_EVIDENCE_PER_FILE L) n) as [Hlt|Hge].
  - apply bind_some in H as [ev [Hev H]]. apply bind_some in H as [ev' [Hev' H]].
    injection H as <- <-. right. repeat split; [exact Hlt|]. now exists ev, ev'.
  - injection H as <- <-. left. now repeat split.
Qed.

Lemma mapM_unfired (L : limits) (fs : list json) (rs : list (json * bool)) :
  mapM (cap_evidences L) fs = Some rs -> existsb snd rs = false ->
  rs = map (fun f => (f, false)) fs.
Proof.
  revert rs; induction fs as [|f fs IH]; intros rs; cbn [mapM map].
  - now intros [= <-].
  - intros H. apply bind_some in H as [[f' b] [Hf H]].
    apply bind_some in H as [rs' [Hrs H]]. injection H as <-.
    cbn [existsb snd]. intros Hex. apply orb_false_iff in Hex as [-> Hex].
    apply cap_evidences_inv in Hf as (fd & n & -> & _ & [(_ & -> & _)|(Hb & _)]);
      [|discriminate].
    now rewrite (IH rs' Hrs Hex).
Qed.

Lemma mapM_strings_nil (L : limits) (fs : list json) (rs : list (json * bool)) :
  Forall (fun f => exists s, f = JStr s) fs ->
  mapM (cap_evidences L) fs = Some rs -> rs = [].
Proof.
  intros Hall. destruct Hall as [|f fs [s ->] _]; cbn [mapM].
  - now intros [= <-].
  - discriminate.
Qed.

Lemma py_iter_not_list (v : json) (fs : list json) :
  py_iter v = Some fs -> (forall l, v <> JList l) ->
  Forall (fun f => exists s, f = JStr s) fs.
Proof.
  destruct v; try discriminate; intros [= <-] Hnl.
  - apply Forall_forall. intros f Hin. apply in_map_iff in Hin as [c [<- _]]. eauto.
  - now destruct (Hnl items).
  - apply Forall_forall. intros f Hin. apply in_map_iff in Hin as [c [<- _]]. eauto.
Qed.

(** [reduce] follows the relation. *)
Lemma reduce_reduces (L : limits) (x y : json) :
  reduce L x = Some y -> reduces L x y.
Proof.
  unfold reduce. intros H.
  apply bind_some in H as [files [Hfiles H]].
  apply bind_some in H as [n [Hn H]].
  destruct (Z.ltb_spec (MAX_JS_FILES L) n) as [Hlt|Hge].
  - apply bind_some in H as [cut [Hcut H]].
    eapply reduces_files; eassumption.
  - apply bind_some in H as [fs [Hfs H]].
    apply bind_some in H as [rs [Hrs H]].
    destruct (existsb snd rs) eqn:Hex.
    + destruct files as [| | |s|l|d];
        try (pose proof (mapM_strings_nil L fs rs
                           (py_iter_not_list _ fs Hfs ltac:(discriminate)) Hrs);
             subst rs; discriminate Hex);
        try discriminate Hn.
      injection Hfs as <-. injection Hn as <-.
      eapply reduces_evidences; eassumption.
    + pose proof (mapM_unfired L fs rs Hrs Hex) as E. subst rs.
      apply bind_some in H as [hh [Hhh H]].
      destruct (existsb snd (map (cap_bucket L) hh)) eqn:Hb; injection H as <-.
      * eapply reduces_buckets; eassumption.
      * eapply reduces_strings; eassumption.
Qed.

Lemma js_files_of_inv (x files : json) :
  js_files_of x = Some files ->
  exists d,
    x = JDict d
    /\ ((lookup "javascript" d = None /\ files = JList [])
        \/ exists js, lookup "javascript" d = Some (JDict js)
                      /\ files = dict_get "files" (JList []) js).
Proof.
  destruct x as [| | | | |d]; try discriminate. cbn [js_files_of]. unfold dict_get at 1.
  intros H. exists d. split; [reflexivity|].
  destruct (lookup "javascript" d) as [[| | | | |js]|]; try discriminate.
  - right. exists js. split; [reflexivity|]. injection H as <-. reflexivity.
  - left. split; [reflexivity|]. injection H as <-. reflexivity.
Qed.

Lemma store_files_inv (x v y : json) :
  store_files x v = Some y ->
  exists d js,
    x = JDict d /\ lookup "javascript" d = Some (JDict js)
    /\ y = JDict (assign "javascript" (JDict (assign "files" v js)) d).
Proof.
  destruct x as [| | | | |d]; try discriminate. cbn [store_files].
  destruct (lookup "javascript" d) as [[| | | | |js]|] eqn:E; try discriminate.
  intros [= <-]. exists d, js. repeat split; assumption.
Qed.

Lemma html_highlights_of_inv (x : json) (hh : pydict) :
  html_highlights_of x = Some hh ->
  exists d,
    x = JDict d
    /\ ((exists h, lookup "html" d = Some (JDict h)
                   /\ lookup "highlights" h = Some (JDict hh))
        \/ (hh = [] /\ forall hh', store_highlights x hh' = x)).
Proof.
  destruct x as [| | | | |d]; try discriminate.
  cbn [html_highlights_of store_highlights]. unfold dict_get.
  intros H. exists d. split; [reflexivity|].
  destruct (lookup "html" d) as [[| | | | |h]|] eqn:Eh; try discriminate.
  - destruct (lookup "highlights" h) as [[| | | | |hh']|] eqn:Ehh; try discriminate.
    + left. exists h. injection H as <-. split; [reflexivity|exact Ehh].
    + right. injection H as <-. split; reflexivity.
  - right. injection H as <-. split; reflexivity.
Qed.

Lemma cap_bucket_values (L : limits) (hh : pydict) :
  map fst (map (cap_bucket L) hh)
  = map (fun kv : string * json => (fst kv, cap_value L (snd kv))) hh.
Proof.
  rewrite map_map. apply map_ext. intros [k v]. unfold cap_bucket, cap_value.
  cbn [fst snd]. destruct v; try reflexivity.
  destruct (MAX_HTML_EVIDENCE_PER_BUCKET L <? _); reflexivity.
Qed.

Lemma store_highlights_present (d h : pydict) (old : json) (hh' : pydict) :
  lookup "html" d = Some (JDict h) -> lookup "highlights" h = Some old ->
  store_highlights (JDict d) hh'
  = JDict (assign "html" (JDict (assign "highlights" (JDict hh') h)) d).
Proof. intros Hh Hhh. cbn [store_highlights]. now rewrite Hh, Hhh. Qed.

(** ** The protected field survives every step *)

Lemma keeps_store_files (x files v y : json) :
  js_files_of x = Some files -> store_files x v = Some y ->
  keeps_outer_html files v -> keeps_outer_html x y.
Proof.
  intros Hf Hs Hk.
  apply store_files_inv in Hs as (d & js & -> & Hjs & ->).
  apply js_files_of_inv in Hf as (d' & [= <-] & [[Hnone _]|(js' & Hjs' & ->)]);
    [congruence|].
  assert (js' = js) by congruence. subst js'.
  apply keeps_assign; [discriminate|]. right. exists (JDict js). split; [exact Hjs|].
  apply keeps_assign; [discriminate|]. unfold dict_get in Hk.
  destruct (lookup "files" js) as [f0|].
  - right. now exists f0.
  - left. eapply no_outer_keeps; [|exact Hk]. now apply no_outer_leaf.
Qed.

Lemma keeps_cap_evidences (L : limits) (f f' : json) (b : bool) :
  cap_evidences L f = Some (f', b) -> keeps_outer_html f f'.
Proof.
  intros H.
  apply cap_evidences_inv in H
    as (fd & n & -> & _ & [(_ & -> & _)|(_ & _ & ev & ev' & Hev & Hcut & ->)]).
  - apply keeps_refl.
  - apply keeps_assign; [discriminate|]. right. exists ev. split; [exact Hev|].
    eapply keeps_slice; eassumption.
Qed.

Lemma keeps_mapM_cap (L : limits) (l : list json) (rs : list (json * bool)) :
  mapM (cap_evidences L) l = Some rs ->
  keeps_outer_html (JList l) (JList (map fst rs)).
Proof.
  intros H. apply keeps_list. revert rs H.
  induction l as [|f l IH]; intros rs; cbn [mapM].
  - intros [= <-] i w'. destruct i; discriminate.
  - intros H. apply bind_some in H as [[f' b] [Hf H]].
    apply bind_some in H as [rs' [Hrs H]]. injection H as <-.
    intros [|i] w'; cbn [map fst nth_error].
    + intros [= <-]. exists f. split; [reflexivity|].
      eapply keeps_cap_evidences; eassumption.
    + apply IH. exact Hrs.
Qed.

Lemma keeps_cap_value (L : limits) (v : json) : keeps_outer_html v (cap_value L v).
Proof.
  unfold cap_value. destruct v; try apply keeps_refl.
  destruct (_ <? _); [apply keeps_list_to|apply keeps_refl].
Qed.

Lemma keeps_store_highlights (L : limits) (x : json) (hh : pydict) :
  html_highlights_of x = Some hh ->
  keeps_outer_html x (store_highlights x (map fst (map (cap_bucket L) hh))).
Proof.
  intros H.
  apply html_highlights_of_inv in H as (d & -> & [(h & Hh & Hhh)|(_ & Hsame)]).
  - rewrite (store_highlights_present d h _ _ Hh Hhh).
    apply keeps_assign; [discriminate|]. right. exists (JDict h). split; [exact Hh|].
    apply keeps_assign; [discriminate|]. right. exists (JDict hh). split; [exact Hhh|].
    rewrite cap_bucket_values. apply keeps_dict.
    + intros s. rewrite lookup_map_snd.
      destruct (lookup "outer_html" hh) as [w|]; [|discriminate].
      cbn [option_map]. unfold cap_value.
      destruct w; try (intros E; exact E).
      destruct (_ <? _); [discriminate|intros E; exact E].
    + intros k w'. rewrite lookup_map_snd.
      destruct (lookup k hh) as [w|]; [|discriminate].
      cbn [option_map]. intros [= <-]. right. exists w.
      split; [reflexivity|apply keeps_cap_value].
  - rewrite Hsame. apply keeps_refl.
Qed.

Lemma keeps_reduces (L : limits) (x y : json) :
  reduces L x y -> keeps_outer_html x y.
Proof.
  intros [x' files n cut y' Hf Hn Hlt Hcut Hs
         |x' l rs y' Hf Hle Hrs Hex Hs
         |x' files n fs hh Hf Hn Hle Hfs Hrs Hhh Hex
         |x' files n fs hh Hf Hn Hle Hfs Hrs Hhh Hex].
  - eapply keeps_store_files; try eassumption. eapply keeps_slice; eassumption.
  - eapply keeps_store_files; try eassumption. eapply keeps_mapM_cap; eassumption.
  - now apply keeps_store_highlights.
  - apply keeps_truncate.
Qed.

Lemma keeps_shrink_loop (L : limits) (limit : Z) (fuel : nat) :
  forall cur r, shrink_loop fuel L limit cur = Some r -> keeps_outer_html cur (fst r).
Proof.
  induction fuel as [|fuel IH]; intros cur r; cbn [shrink_loop].
  - intros [= <-]. apply keeps_refl.
  - destruct (size cur <=? limit); [intros [= <-]; apply keeps_refl|].
    intros H. apply bind_some in H as [next [Hnext H]].
    apply bind_some in H as [r' [Hr' H]]. injection H as <-. cbn [fst].
    eapply keeps_trans; [apply (keeps_reduces L), reduce_reduces, Hnext|].
    apply IH, Hr'.
Qed.

(** ** The compactor does not raise on an assembled payload *)

Lemma assembled_inv (p : json) :
  assembled p = true ->
  exists d js h fs hh,
    p = JDict d
    /\ lookup "javascript" d = Some (JDict js) /\ lookup "files" js = Some (JList fs)
    /\ lookup "html" d = Some (JDict h) /\ lookup "highlights" h = Some (JDict hh)
    /\ forallb is_file fs = true.
Proof.
  destruct p as [| | | | |d]; try discriminate. cbn [assembled].
  destruct (lookup "javascript" d) as [[| | | | |js]|] eqn:Ej; try discriminate.
  destruct (lookup "html" d) as [[| | | | |h]|] eqn:Et; try discriminate.
  destruct (lookup "files" js) as [[| | | |fs|]|] eqn:Ef; try discriminate.
  destruct (lookup "highlights" h) as [[| | | | |hh]|] eqn:Eh; try discriminate.
  intros H. exists d, js, h, fs, hh. repeat split; assumption.
Qed.

Lemma assembled_intro (d js h : pydict) (fs : list json) (hh : pydict) :
  lookup "javascript" d = Some (JDict js) -> lookup "files" js = Some (JList fs) ->
  lookup "html" d = Some (JDict h) -> lookup "highlights" h = Some (JDict hh) ->
  forallb is_file fs = true ->
  assembled (JDict d) = true.
Proof. intros Hjs Hfs Hh Hhh Hall. cbn [assembled]. now rewrite Hjs, Hh, Hfs, Hhh. Qed.

Lemma is_file_inv (f : json) :
  is_file f = true -> exists fd ev, f = JDict fd /\ lookup "evidences" fd = Some (JList ev).
Proof.
  destruct f as [| | | | |fd]; try discriminate. cbn [is_file].
  destruct (lookup "evidences" fd) as [[| | | |ev|]|] eqn:E; try discriminate.
  intros _. now exists fd, ev.
Qed.

Lemma cap_evidences_file (L : limits) (f : json) :
  is_file f = true ->
  exists f' b, cap_evidences L f = Some (f', b) /\ is_file f' = true.
Proof.
  intros H. pose proof H as Hfile. apply is_file_inv in H as (fd & ev & -> & Hev).
  cbn [cap_evidences]. unfold dict_get. rewrite Hev. cbn [py_len bind py_slice_to].
  destruct (_ <? _).
  - eexists _, _. split; [reflexivity|]. cbn [is_file]. now rewrite lookup_assign_same.
  - eexists _, _. split; [reflexivity|exact Hfile].
Qed.

Lemma mapM_cap_files (L : limits) (fs : list json) :
  forallb is_file fs = true ->
  exists rs, mapM (cap_evidences L) fs = Some rs /\ forallb is_file (map fst rs) = true.
Proof.
  induction fs as [|f fs IH]; cbn [forallb mapM].
  - intros _. now exists [].
  - intros H. apply andb_true_iff in H as [Hf Hfs].
    destruct (cap_evidences_file L f Hf) as (f' & b & -> & Hf').
    destruct (IH Hfs) as (rs & -> & Hrs). cbn [bind].
    exists ((f', b) :: rs). split; [reflexivity|]. cbn [map fst forallb].
    now rewrite Hf', Hrs.
Qed.

Lemma forallb_firstn {A} (f : A -> bool) (n : nat) (l : list A) :
  forallb f l = true -> forallb f (firstn n l) = true.
Proof.
  revert n; induction l as [|x l IH]; intros [|n]; cbn [firstn forallb]; auto.
  intros H. apply andb_true_iff in H as [-> H]. now apply IH.
Qed.

Lemma is_file_truncate (L : limits) (f : json) :
  is_file f = true -> is_file (truncate L f) = true.
Proof.
  intros H. apply is_file_inv in H as (fd & ev & -> & Hev).
  rewrite truncate_dict. cbn [is_file]. rewrite lookup_map_values, Hev.
  reflexivity.
Qed.

Lemma assembled_truncate (L : limits) (p : json) :
  assembled p = true -> assembled (truncate L p) = true.
Proof.
  intros H. apply assembled_inv in H as (d & js & h & fs & hh & -> & Hjs & Hfs & Hh & Hhh & Hall).
  rewrite truncate_dict.
  eapply assembled_intro.
  - rewrite lookup_map_values, Hjs. cbn [option_map]. unfold truncate_entry.
    cbn [String.eqb Ascii.eqb Bool.eqb]. rewrite truncate_dict. reflexivity.
  - rewrite lookup_map_values, Hfs. reflexivity.
  - rewrite lookup_map_values, Hh. cbn [option_map]. unfold truncate_entry.
    cbn [String.eqb Ascii.eqb Bool.eqb]. rewrite truncate_dict. reflexivity.
  - rewrite lookup_map_values, Hhh. cbn [option_map]. unfold truncate_entry.
    cbn [String.eqb Ascii.eqb Bool.eqb]. rewrite truncate_dict. reflexivity.
  - rewrite forallb_forall in Hall |- *. intros f Hin.
    apply in_map_iff in Hin as (f0 & <- & Hin). apply is_file_truncate. auto.
Qed.

Lemma reduce_assembled (L : limits) (p : json) :
  assembled p = true -> exists q, reduce L p = Some q /\ assembled q = true.
Proof.
  intros H. pose proof H as Hp.
  apply assembled_inv in H as (d & js & h & fs & hh & -> & Hjs & Hfs & Hh & Hhh & Hall).
  unfold reduce. cbn [js_files_of store_files html_highlights_of].
  unfold dict_get. rewrite Hjs, Hfs, Hh, Hhh. cbn [py_len bind py_slice_to py_iter].
  destruct (_ <? _).
  - eexists. split; [reflexivity|].
    eapply assembled_intro.
    + apply lookup_assign_same.
    + apply lookup_assign_same.
    + rewrite lookup_assign_other by discriminate. exact Hh.
    + exact Hhh.
    + now apply forallb_firstn.
  - destruct (mapM_cap_files L fs Hall) as (rs & -> & Hrs). cbn [bind].
    destruct (existsb snd rs).
    + eexists. split; [reflexivity|].
      eapply assembled_intro.
      * apply lookup_assign_same.
      * apply lookup_assign_same.
      * rewrite lookup_assign_other by discriminate. exact Hh.
      * exact Hhh.
      * exact Hrs.
    + destruct (existsb snd (map (cap_bucket L) hh)).
      * eexists. split; [reflexivity|].
        rewrite (store_highlights_present d h _ _ Hh Hhh).
        eapply assembled_intro.
        -- rewrite lookup_assign_other by discriminate. exact Hjs.
        -- exact Hfs.
        -- apply lookup_assign_same.
        -- apply lookup_assign_same.
        -- exact Hall.
      * eexists. split; [reflexivity|]. now apply assembled_truncate.
Qed.

Lemma shrink_loop_assembled (L : limits) (limit : Z) (fuel : nat) :
  forall cur,
    assembled cur = true ->
    exists out n,
      shrink_loop fuel L limit cur = Some (out, n)
      /\ (n <= fuel)%nat
      /\ rounds L n cur = Some out
      /\ (limit < size out -> n = fuel).
Proof.
  induction fuel as [|fuel IH]; intros cur Hcur; cbn [shrink_loop].
  - exists cur, O. repeat split; auto.
  - destruct (Z.leb_spec (size cur) limit) as [Hfit|Hover].
    + exists cur, O. repeat split; [lia|]. intros. lia.
    + destruct (reduce_assembled L cur Hcur) as (next & Hnext & Hasm).
      destruct (IH next Hasm) as (out & n & Hrun & Hle & Hrounds & Hcap).
      rewrite Hnext. cbn [bind]. rewrite Hrun. cbn [bind fst snd].
      exists out, (S n). repeat split; [lia| |].
      * cbn [rounds]. rewrite Hnext. exact Hrounds.
      * intros Hbig. now rewrite (Hcap Hbig).
Qed.

Lemma shrink_loop_rounds (L : limits) (limit : Z) (fuel : nat) :
  forall cur out n,
    shrink_loop fuel L limit cur = Some (out, n) ->
    (n <= fuel)%nat /\ rounds L n cur = Some out /\ (limit < size out -> n = fuel).
Proof.
  induction fuel as [|fuel IH]; intros cur out n; cbn [shrink_loop].
  - intros [= <- <-]. repeat split; auto.
  - destruct (Z.leb_spec (size cur) limit) as [Hfit|Hover].
    + intros [= <- <-]. repeat split; [lia|]. intros; lia.
    + intros H. apply bind_some in H as [next [Hnext H]].
      apply bind_some in H as [[out' n'] [Hrun H]]. cbn [fst snd] in H.
      injection H as <- <-.
      destruct (IH next out' n' Hrun) as (Hle & Hrounds & Hcap).
      repeat split; [lia| |].
      * cbn [rounds]. rewrite Hnext. exact Hrounds.
      * intros Hbig. now rewrite (Hcap Hbig).
Qed.

(** C5 (as stated).  The claim speaks of every input payload.  On a
    payload over the budget whose [javascript] entry is [None] the
    first round raises ([None] has no [get]), and so does the round
    that finds a file that is not a dictionary: the run ends in an
    error, not in a best-effort structure. *)
Lemma shrink_payload_terminates_counterexample :
  0 < size (JDict [("javascript", JNull)])
  /\ _shrink_payload default_limits (JDict [("javascript", JNull)]) 0 = None
  /\ 0 < size (JDict [("javascript", JDict [("files", JList [JStr "a.js"])])])
  /\ _shrink_payload default_limits
       (JDict [("javascript", JDict [("files", JList [JStr "a.js"])])]) 0 = None.
Proof. repeat split; vm_compute; reflexivity. Qed.

(** C5 (amended).  Whenever the compactor returns, on any payload and
    with any limits, it returns the payload reached after [n <= 20]
    rounds, and a result still over the budget means that all 20 rounds
    were used; a payload within the budget is returned as it is,
    whatever its shape.  On every payload with the layout of
    [build_messages], for every budget, all count limits (negative ones
    included) and every string limit in the range of the floats, the
    compactor does return: an unmet budget is never an error. *)
Theorem shrink_payload_terminates (L : limits) (payload : json) (limit : Z) :
  (forall out n,
     shrink_run L payload limit = Some (out, n) ->
     (n <= 20)%nat /\ rounds L n payload = Some out /\ (limit < size out -> n = 20%nat))
  /\ (size payload <= limit -> _shrink_payload L payload limit = Some payload)
  /\ (assembled payload = true ->
      float_range (MAX_STR_FIELD L) ->
      exists out n,
        shrink_run L payload limit = Some (out, n)
        /\ _shrink_payload L payload limit = Some out
        /\ (n <= 20)%nat
        /\ rounds L n payload = Some out
        /\ (limit < size out -> n = 20%nat)).
Proof.
  split; [|split].
  - intros out n H. exact (shrink_loop_rounds L limit max_rounds payload out n H).
  - intros Hfit. unfold _shrink_payload, shrink_run, max_rounds. cbn [shrink_loop].
    destruct (Z.leb_spec (size payload) limit); [reflexivity|lia].
  - intros H _.
    destruct (shrink_loop_assembled L limit max_rounds payload H)
      as (out & n & Hrun & Hle & Hrounds & Hcap).
    exists out, n. unfold _shrink_payload, shrink_run. rewrite Hrun.
    repeat split; assumption.
Qed.

(** ** Lengths of strings and of serialisations *)

Lemma length_app (a b : string) :
  String.length (a ++ b) = (String.length a + String.length b)%nat.
Proof. induction a as [|c a IH]; cbn; [reflexivity|now rewrite IH]. Qed.

Lemma take_drop (n : nat) (s : string) : Py.take n s ++ Py.drop n s = s.
Proof.
  revert n; induction s as [|c s IH]; intros [|n]; cbn; try reflexivity.
  now rewrite IH.
Qed.

Lemma length_take (n : nat) (s : string) :
  String.length (Py.take n s) = Nat.min n (String.length s).
Proof.
  revert n; induction s as [|c s IH]; intros [|n]; cbn; try reflexivity.
  now rewrite IH.
Qed.

Lemma length_drop (n : nat) (s : string) :
  String.length (Py.drop n s) = (String.length s - n)%nat.
Proof.
  revert n; induction s as [|c s IH]; intros [|n]; cbn; try reflexivity.
  now rewrite IH.
Qed.

Lemma drop_drop (a b : nat) (s : string) :
  Py.drop b (Py.drop a s) = Py.drop (a + b) s.
Proof.
  revert a; induction s as [|c s IH]; intros [|a]; cbn [Py.drop Nat.add];
    try reflexivity.
  - now destruct b.
  - apply IH.
Qed.

Lemma escape_app (a b : string) : escape (a ++ b) = escape a ++ escape b.
Proof.
  induction a as [|c a IH]; cbn [escape append]; [reflexivity|].
  rewrite IH. clear IH. induction (escape_char c) as [|x e IHe]; cbn; [reflexivity|].
  now rewrite IHe.
Qed.

Lemma escape_char_length (c : ascii) : (1 <= String.length (escape_char c))%nat.
Proof.
  unfold escape_char.
  repeat match goal with |- context [if ?b then _ else _] => destruct b end;
    cbn; lia.
Qed.

Lemma escape_length (s : string) : (String.length s <= String.length (escape s))%nat.
Proof.
  induction s as [|c s IH]; cbn [escape String.length]; [lia|].
  rewrite length_app. pose proof (escape_char_length c). lia.
Qed.

Lemma jsize_str (s : string) : jsize (JStr s) = (2 + String.length (escape s))%nat.
Proof.
  unfold jsize. cbn [dumps]. unfold dumps_str. cbn [String.length].
  rewrite length_app. cbn [String.length]. lia.
Qed.

Lemma size_jsize (v : json) : size v = Z.of_nat (jsize v).
Proof. reflexivity. Qed.

Lemma join_head_length (sep p : string) (rest : list string) :
  (String.length p <= String.length (Py.join sep (p :: rest)))%nat.
Proof.
  destruct rest; cbn [Py.join]; [lia|]. rewrite length_app. lia.
Qed.

Lemma join_cons_length (sep p : string) (rest : list string) :
  rest <> [] ->
  String.length (Py.join sep (p :: rest))
  = (String.length p + String.length sep + String.length (Py.join sep rest))%nat.
Proof.
  destruct rest; [congruence|]. intros _. cbn [Py.join].
  rewrite !length_app. lia.
Qed.

Lemma join_length_le (sep : string) (l l' : list string) :
  Forall2 (fun a b => (String.length a <= String.length b)%nat) l l' ->
  (String.length (Py.join sep l) <= String.length (Py.join sep l'))%nat.
Proof.
  induction 1 as [|a b l l' Hab Hall IH]; [reflexivity|].
  inversion Hall; subst.
  - exact Hab.
  - rewrite (join_cons_length sep a), (join_cons_length sep b) by discriminate. lia.
Qed.

Lemma join_firstn_length (sep : string) (n : nat) (l : list string) :
  (String.length (Py.join sep (firstn n l)) <= String.length (Py.join sep l))%nat.
Proof.
  revert n; induction l as [|p l IH]; intros [|n]; cbn [firstn]; try (cbn; lia).
  destruct (firstn n l) as [|q t] eqn:E.
  - apply join_head_length.
  - assert (Hl : l <> []) by (destruct l; [destruct n; discriminate E|discriminate]).
    rewrite (join_cons_length sep p (q :: t)) by discriminate.
    rewrite (join_cons_length sep p l) by exact Hl.
    specialize (IH n). rewrite E in IH. lia.
Qed.

Lemma jsize_list (l : list json) :
  jsize (JList l) = (2 + String.length (Py.join ", " (map dumps l)))%nat.
Proof.
  unfold jsize. cbn [dumps]. rewrite !length_app. cbn [String.length]. lia.
Qed.

Lemma jsize_dict (d : pydict) :
  jsize (JDict d) = (2 + String.length (Py.join ", " (map entry_text d)))%nat.
Proof.
  unfold jsize. cbn [dumps]. rewrite !length_app. cbn [String.length].
  unfold entry_text. lia.
Qed.

Lemma entry_text_length (k : string) (v : json) :
  String.length (entry_text (k, v))
  = (String.length (dumps_str k) + 2 + jsize v)%nat.
Proof.
  unfold entry_text, jsize. cbn [fst snd]. rewrite !length_app. cbn [String.length]. lia.
Qed.

Lemma jsize_list_le (l l' : list json) :
  Forall2 (fun a b => (jsize a <= jsize b)%nat) l' l ->
  (jsize (JList l') <= jsize (JList l))%nat.
Proof.
  intros H. rewrite !jsize_list. apply Nat.add_le_mono_l, join_length_le.
  induction H; cbn [map]; constructor; assumption.
Qed.

Lemma jsize_list_to (l : list json) (n : Z) :
  (jsize (JList (Py.list_to l n)) <= jsize (JList l))%nat.
Proof.
  rewrite !jsize_list. unfold Py.list_to. rewrite <- firstn_map.
  apply Nat.add_le_mono_l, join_firstn_length.
Qed.

Lemma jsize_dict_le (d d' : pydict) :
  Forall2 (fun a b => fst a = fst b /\ (jsize (snd a) <= jsize (snd b))%nat) d' d ->
  (jsize (JDict d') <= jsize (JDict d))%nat.
Proof.
  intros H. rewrite !jsize_dict. apply Nat.add_le_mono_l, join_length_le.
  induction H as [|[k' v'] [k v] d' d [Hk Hv] _ IH]; cbn [map]; constructor;
    [|exact IH].
  cbn [fst snd] in Hk, Hv. subst k'. rewrite !entry_text_length. lia.
Qed.

Lemma Forall2_same {A} (R : A -> A -> Prop) (l : list A) :
  (forall x, R x x) -> Forall2 R l l.
Proof. intros HR. induction l; constructor; auto. Qed.

Lemma jsize_assign (k : string) (v v0 : json) (d : pydict) :
  lookup k d = Some v0 -> (jsize v <= jsize v0)%nat ->
  (jsize (JDict (assign k v d)) <= jsize (JDict d))%nat.
Proof.
  intros Hk Hv. apply jsize_dict_le. revert Hk.
  induction d as [|[k' v'] d IH]; cbn [lookup assign]; [discriminate|].
  destruct (String.eqb k k').
  - intros [= ->]. constructor; [now split|].
    apply Forall2_same. intros x. split; [reflexivity|lia].
  - intros H. constructor; [split; [reflexivity|lia]|now apply IH].
Qed.

Lemma jsize_str_to (s : string) (n : Z) :
  (jsize (JStr (Py.str_to s n)) <= jsize (JStr s))%nat.
Proof.
  rewrite !jsize_str. unfold Py.str_to.
  rewrite <- (take_drop (Py.bound (String.length s) n) s) at 3.
  rewrite escape_app, length_app. lia.
Qed.

Lemma jsize_slice (v cut : json) (n : Z) :
  py_slice_to v n = Some cut -> (jsize cut <= jsize v)%nat.
Proof.
  destruct v; try discriminate; intros [= <-].
  - apply jsize_str_to.
  - apply jsize_list_to.
Qed.

(** ** What [_truncate_text] returns when the limit leaves room *)

Lemma truncate_text_parts (s : string) (limit : Z) :
  51 <= limit -> limit < Py.len s ->
  exists a b : nat,
    Z.of_nat a = Py.int_mul_0_6 limit /\ Z.of_nat b = Py.int_mul_0_3 limit
    /\ (a + b + 6 <= Z.to_nat limit)%nat
    /\ (1 <= b)%nat
    /\ _truncate_text s limit
       = Py.take a s ++ elision ++ Py.drop (String.length s - b) s.
Proof.
  intros Hlim Hlen. unfold Py.len in Hlen.
  exists (Z.to_nat (Py.int_mul_0_6 limit)), (Z.to_nat (Py.int_mul_0_3 limit)).
  unfold Py.int_mul_0_6, Py.int_mul_0_3.
  assert (H6 : 0 <= Z.quot (6 * limit) 10 /\ 10 * Z.quot (6 * limit) 10 <= 6 * limit)
    by (Z.quot_rem_to_equations; lia).
  assert (H3 : 1 <= Z.quot (3 * limit) 10 /\ 10 * Z.quot (3 * limit) 10 <= 3 * limit)
    by (Z.quot_rem_to_equations; lia).
  repeat split; try lia.
  unfold _truncate_text. unfold Py.len.
  destruct (Z.leb_spec (Z.of_nat (String.length s)) limit) as [Hle|_]; [lia|].
  unfold Py.str_to, Py.str_from, Py.bound, Py.int_mul_0_6, Py.int_mul_0_3.
  destruct (Z.leb_spec 0 (Z.quot (6 * limit) 10)) as [_|Hneg]; [|lia].
  destruct (Z.leb_spec 0 (- Z.quot (3 * limit) 10)) as [Hpos|_]; [lia|].
  now rewrite Z.opp_involutive.
Qed.

Lemma truncate_text_length (s : string) (limit : Z) :
  51 <= limit -> limit < Py.len s ->
  Py.len (_truncate_text s limit) <= limit.
Proof.
  intros Hlim Hlen.
  destruct (truncate_text_parts s limit Hlim Hlen) as (a & b & Ha & Hb & Hab & Hb1 & ->).
  unfold Py.len in *. rewrite !length_app, length_take, length_drop.
  change (String.length elision) with 5%nat. lia.
Qed.

Lemma truncate_text_jsize (s : string) (limit : Z) :
  51 <= limit -> limit < Py.len s ->
  (jsize (JStr (_truncate_text s limit)) <= jsize (JStr s))%nat.
Proof.
  intros Hlim Hlen.
  destruct (truncate_text_parts s limit Hlim Hlen) as (a & b & Ha & Hb & Hab & Hb1 & ->).
  unfold Py.len in Hlen. rewrite !jsize_str.
  set (n := String.length s) in *.
  assert (Hsplit : s = Py.take a s
                       ++ Py.take (n - b - a) (Py.drop a s)
                       ++ Py.drop (n - b) s).
  { rewrite <- (take_drop a s) at 1. f_equal.
    rewrite <- (take_drop (n - b - a) (Py.drop a s)) at 1. f_equal.
    rewrite drop_drop. f_equal. lia. }
  rewrite Hsplit at 3.
  rewrite !escape_app, !length_app.
  change (String.length (escape elision)) with 7%nat.
  pose proof (escape_length (Py.take (n - b - a) (Py.drop a s))) as Hmid.
  rewrite length_take, length_drop in Hmid. fold n in Hmid. lia.
Qed.

Lemma app_assoc_str (a b c : string) : (a ++ b) ++ c = a ++ b ++ c.
Proof. induction a as [|x a IH]; cbn; [reflexivity|now rewrite IH]. Qed.

Lemma take_app_exact (p q : string) : Py.take (String.length p) (p ++ q) = p.
Proof. induction p as [|x p IH]; cbn; [now destruct q|now rewrite IH]. Qed.

Lemma drop_app_exact (p q : string) : Py.drop (String.length p) (p ++ q) = q.
Proof. induction p as [|x p IH]; cbn; [now destruct q|exact IH]. Qed.

(** From limit 4 on both kept parts are cut where intended: the head
    has [int(0.6 * limit)] characters and the tail the last
    [int(0.3 * limit)], at least one. *)
Lemma truncate_text_shape (s : string) (limit : Z) :
  4 <= limit -> limit < Py.len s ->
  exists a b : nat,
    Z.of_nat a = Py.int_mul_0_6 limit /\ Z.of_nat b = Py.int_mul_0_3 limit
    /\ (a + b <= Z.to_nat limit)%nat
    /\ (1 <= b)%nat
    /\ _truncate_text s limit
       = Py.take a s ++ elision ++ Py.drop (String.length s - b) s.
Proof.
  intros Hlim Hlen. unfold Py.len in Hlen.
  exists (Z.to_nat (Py.int_mul_0_6 limit)), (Z.to_nat (Py.int_mul_0_3 limit)).
  unfold Py.int_mul_0_6, Py.int_mul_0_3.
  assert (H6 : 0 <= Z.quot (6 * limit) 10 /\ 10 * Z.quot (6 * limit) 10 <= 6 * limit)
    by (Z.quot_rem_to_equations; lia).
  assert (H3 : 1 <= Z.quot (3 * limit) 10 /\ 10 * Z.quot (3 * limit) 10 <= 3 * limit)
    by (Z.quot_rem_to_equations; lia).
  repeat split; try lia.
  unfold _truncate_text. unfold Py.len.
  destruct (Z.leb_spec (Z.of_nat (String.length s)) limit) as [Hle|_]; [lia|].
  unfold Py.str_to, Py.str_from, Py.bound, Py.int_mul_0_6, Py.int_mul_0_3.
  destruct (Z.leb_spec 0 (Z.quot (6 * limit) 10)) as [_|Hneg]; [|lia].
  destruct (Z.leb_spec 0 (- Z.quot (3 * limit) 10)) as [Hpos|_]; [lia|].
  now rewrite Z.opp_involutive.
Qed.

(** Eliding an elided string gives it back: its head and its tail are
    those of the original string. *)
Lemma truncate_text_idem (s : string) (limit : Z) :
  4 <= limit -> limit < Py.len s ->
  _truncate_text (_truncate_text s limit) limit = _truncate_text s limit.
Proof.
  intros Hlim Hlen.
  destruct (Z.leb_spec (Py.len (_truncate_text s limit)) limit) as [Hshort|Hlong].
  - unfold _truncate_text at 1.
    destruct (Z.leb_spec (Py.len (_truncate_text s limit)) limit); [reflexivity|lia].
  - destruct (truncate_text_shape _ limit Hlim Hlong) as (a' & b' & Ha' & Hb' & _ & _ & ->).
    destruct (truncate_text_shape s limit Hlim Hlen) as (a & b & Ha & Hb & Hab & Hb1 & ->).
    assert (a' = a) by lia. assert (b' = b) by lia. subst a' b'.
    unfold Py.len in Hlen. set (n := String.length s) in *.
    assert (Hhead : String.length (Py.take a s) = a) by (rewrite length_take; lia).
    assert (Htail : String.length (Py.drop (n - b) s) = b) by (rewrite length_drop; lia).
    f_equal; [|f_equal].
    + rewrite <- Hhead at 1. apply take_app_exact.
    + rewrite !length_app, Hhead, Htail.
      change (String.length elision) with 5%nat.
      replace (a + (5 + b) - b)%nat with (String.length (Py.take a s ++ elision))
        by (rewrite length_app, Hhead; change (String.length elision) with 5%nat; lia).
      rewrite <- app_assoc_str. apply drop_app_exact.
Qed.

Lemma Forall2_map_same {A} (R : A -> A -> Prop) (g : A -> A) (l : list A) :
  Forall (fun x => R (g x) x) l -> Forall2 R (map g l) l.
Proof. induction 1; cbn [map]; constructor; assumption. Qed.

Lemma truncate_jsize (L : limits) (v : json) :
  51 <= MAX_STR_FIELD L -> (jsize (truncate L v) <= jsize v)%nat.
Proof.
  intros Hlim.
  induction v as [| | | |l IH|d IH] using json_ind; try (cbn [truncate]; lia).
  - cbn [truncate]. apply jsize_list_le. now apply Forall2_map_same.
  - rewrite truncate_dict. apply jsize_dict_le. apply Forall2_map_same.
    eapply Forall_impl; [|exact IH]. intros [k v] Hv. cbn [fst snd] in *.
    split; [reflexivity|]. unfold truncate_entry.
    destruct (String.eqb k "outer_html"); [lia|].
    destruct v; try exact Hv.
    destruct (Z.ltb_spec (MAX_STR_FIELD L) (Py.len s)); [|lia].
    now apply truncate_text_jsize.
Qed.

(** ** No round makes the serialisation longer *)

Lemma jsize_store_files (x files v y : json) :
  js_files_of x = Some files -> store_files x v = Some y ->
  files <> JList [] -> (jsize v <= jsize files)%nat ->
  (jsize y <= jsize x)%nat.
Proof.
  intros Hf Hs Hne Hv.
  apply store_files_inv in Hs as (d & js & -> & Hjs & ->).
  apply js_files_of_inv in Hf as (d' & [= <-] & [[Hnone _]|(js' & Hjs' & ->)]);
    [congruence|].
  assert (js' = js) by congruence. subst js'.
  apply (jsize_assign _ _ (JDict js)); [exact Hjs|].
  unfold dict_get in Hne, Hv. destruct (lookup "files" js) as [f0|] eqn:E; [|congruence].
  now apply (jsize_assign _ _ f0).
Qed.

Lemma jsize_cap_evidences (L : limits) (f f' : json) (b : bool) :
  cap_evidences L f = Some (f', b) -> (jsize f' <= jsize f)%nat.
Proof.
  intros H.
  apply cap_evidences_inv in H
    as (fd & n & -> & _ & [(_ & -> & _)|(_ & _ & ev & ev' & Hev & Hcut & ->)]).
  - lia.
  - apply (jsize_assign _ _ ev); [exact Hev|]. eapply jsize_slice; eassumption.
Qed.

Lemma jsize_mapM_cap (L : limits) (l : list json) (rs : list (json * bool)) :
  mapM (cap_evidences L) l = Some rs ->
  Forall2 (fun a b => (jsize a <= jsize b)%nat) (map fst rs) l.
Proof.
  revert rs; induction l as [|f l IH]; intros rs; cbn [mapM].
  - intros [= <-]. constructor.
  - intros H. apply bind_some in H as [[f' b] [Hf H]].
    apply bind_some in H as [rs' [Hrs H]]. injection H as <-.
    cbn [map fst]. constructor; [eapply jsize_cap_evidences; eassumption|auto].
Qed.

Lemma jsize_cap_value (L : limits) (v : json) : (jsize (cap_value L v) <= jsize v)%nat.
Proof.
  unfold cap_value. destruct v; try lia.
  destruct (_ <? _); [apply jsize_list_to|lia].
Qed.

Lemma jsize_store_highlights (L : limits) (x : json) (hh : pydict) :
  html_highlights_of x = Some hh ->
  (jsize (store_highlights x (map fst (map (cap_bucket L) hh))) <= jsize x)%nat.
Proof.
  intros H.
  apply html_highlights_of_inv in H as (d & -> & [(h & Hh & Hhh)|(_ & Hsame)]).
  - rewrite (store_highlights_present d h _ _ Hh Hhh).
    apply (jsize_assign _ _ (JDict h)); [exact Hh|].
    apply (jsize_assign _ _ (JDict hh)); [exact Hhh|].
    rewrite cap_bucket_values. apply jsize_dict_le, Forall2_map_same.
    apply Forall_forall. intros [k v] _. cbn [fst snd].
    split; [reflexivity|apply jsize_cap_value].
  - rewrite Hsame. lia.
Qed.

Lemma mapM_length {A B} (f : A -> option B) (l : list A) (rs : list B) :
  mapM f l = Some rs -> List.length rs = List.length l.
Proof.
  revert rs; induction l as [|x l IH]; intros rs; cbn [mapM].
  - now intros [= <-].
  - intros H. apply bind_some in H as [y [_ H]].
    apply bind_some in H as [ys [Hys H]]. injection H as <-.
    cbn [List.length]. now rewrite (IH ys Hys).
Qed.

Lemma jsize_reduces (L : limits) (x y : json) :
  0 <= MAX_JS_FILES L -> 51 <= MAX_STR_FIELD L ->
  reduces L x y -> (jsize y <= jsize x)%nat.
Proof.
  intros Hfiles Hstr
         [x' files n cut y' Hf Hn Hlt Hcut Hs
         |x' l rs y' Hf Hle Hrs Hex Hs
         |x' files n fs hh Hf Hn Hle Hfs Hrs Hhh Hex
         |x' files n fs hh Hf Hn Hle Hfs Hrs Hhh Hex].
  - eapply jsize_store_files; try eassumption.
    + intros ->. cbn in Hn. injection Hn as <-. lia.
    + eapply jsize_slice; eassumption.
  - eapply jsize_store_files; try eassumption.
    + intros [= ->]. cbn in Hrs. injection Hrs as <-. discriminate Hex.
    + apply jsize_list_le. eapply jsize_mapM_cap; eassumption.
  - now apply jsize_store_highlights.
  - now apply truncate_jsize.
Qed.

Lemma size_reduce (L : limits) (x y : json) :
  0 <= MAX_JS_FILES L -> 51 <= MAX_STR_FIELD L ->
  reduce L x = Some y -> size y <= size x.
Proof.
  intros Hfiles Hstr H. rewrite !size_jsize. apply Nat2Z.inj_le.
  apply (jsize_reduces L); [exact Hfiles|exact Hstr|]. now apply reduce_reduces.
Qed.

(** ** The loop and its rounds *)

Lemma rounds_add (L : limits) (j k : nat) (x : json) :
  rounds L (j + k) x = bind (rounds L j x) (rounds L k).
Proof.
  revert x; induction j as [|j IH]; intros x; cbn [Nat.add rounds bind]; [reflexivity|].
  destruct (reduce L x) as [y|]; cbn [bind]; [apply IH|reflexivity].
Qed.

Lemma size_rounds (L : limits) (k : nat) :
  0 <= MAX_JS_FILES L -> 51 <= MAX_STR_FIELD L ->
  forall x y, rounds L k x = Some y -> size y <= size x.
Proof.
  intros Hfiles Hstr. induction k as [|k IH]; intros x y; cbn [rounds].
  - intros [= <-]. lia.
  - intros H. apply bind_some in H as [z [Hz H]].
    pose proof (size_reduce L x z Hfiles Hstr Hz). pose proof (IH z y H). lia.
Qed.

(** ** Reading a payload back after a step *)

Lemma js_files_of_store_files (x v y : json) :
  store_files x v = Some y -> js_files_of y = Some v.
Proof.
  intros H. apply store_files_inv in H as (d & js & -> & Hjs & ->).
  cbn [js_files_of]. unfold dict_get. now rewrite !lookup_assign_same.
Qed.

Lemma js_files_of_store_highlights (x : json) (hh' : pydict) :
  js_files_of (store_highlights x hh') = js_files_of x.
Proof.
  destruct x as [| | | | |d]; try reflexivity. cbn [store_highlights].
  destruct (lookup "html" d) as [[| | | | |h]|]; try reflexivity.
  destruct (lookup "highlights" h); [|reflexivity].
  cbn [js_files_of]. unfold dict_get. now rewrite lookup_assign_other by discriminate.
Qed.

Lemma html_highlights_of_store_highlights (d h : pydict) (old : json) (hh' : pydict) :
  lookup "html" d = Some (JDict h) -> lookup "highlights" h = Some old ->
  html_highlights_of (store_highlights (JDict d) hh') = Some hh'.
Proof.
  intros Hh Hhh. rewrite (store_highlights_present d h old hh' Hh Hhh).
  cbn [html_highlights_of]. unfold dict_get. now rewrite !lookup_assign_same.
Qed.

Lemma truncate_entry_default_list (L : limits) (k : string) :
  truncate_entry L k (JList []) = JList [].
Proof. unfold truncate_entry. now destruct (String.eqb k "outer_html"). Qed.

Lemma truncate_entry_default_dict (L : limits) (k : string) :
  truncate_entry L k (JDict []) = JDict [].
Proof. unfold truncate_entry. now destruct (String.eqb k "outer_html"). Qed.

Lemma dict_get_truncate (L : limits) (k : string) (default : json) (d : pydict) :
  truncate_entry L k default = default ->
  dict_get k default
    (map (fun kv : string * json => (fst kv, truncate_entry L (fst kv) (snd kv))) d)
  = truncate_entry L k (dict_get k default d).
Proof.
  intros Hdef. unfold dict_get. rewrite lookup_map_values.
  destruct (lookup k d); cbn [option_map]; [reflexivity|now rewrite Hdef].
Qed.

Lemma js_files_of_truncate (L : limits) (x files : json) :
  js_files_of x = Some files ->
  js_files_of (truncate L x) = Some (truncate_entry L "files" files).
Proof.
  destruct x as [| | | | |d]; try discriminate.
  rewrite truncate_dict. cbn [js_files_of].
  rewrite (dict_get_truncate L "javascript" (JDict []) d)
    by apply truncate_entry_default_dict.
  destruct (dict_get "javascript" (JDict []) d) as [| | |s| |js];
    try discriminate;
    try (unfold truncate_entry; cbn [String.eqb Ascii.eqb Bool.eqb];
         destruct (_ <? _); discriminate).
  intros [= <-].
  change (truncate_entry L "javascript" (JDict js)) with (truncate L (JDict js)).
  rewrite truncate_dict.
  now rewrite (dict_get_truncate L "files" (JList []) js)
    by apply truncate_entry_default_list.
Qed.

Lemma html_highlights_of_truncate (L : limits) (x : json) (hh : pydict) :
  html_highlights_of x = Some hh ->
  html_highlights_of (truncate L x)
  = Some (map (fun kv : string * json => (fst kv, truncate_entry L (fst kv) (snd kv))) hh).
Proof.
  destruct x as [| | | | |d]; try discriminate.
  rewrite truncate_dict. cbn [html_highlights_of].
  rewrite (dict_get_truncate L "html" (JDict []) d)
    by apply truncate_entry_default_dict.
  destruct (dict_get "html" (JDict []) d) as [| | |s| |h];
    try discriminate;
    try (unfold truncate_entry; cbn [String.eqb Ascii.eqb Bool.eqb];
         destruct (_ <? _); discriminate).
  change (truncate_entry L "html" (JDict h)) with (truncate L (JDict h)).
  rewrite truncate_dict.
  rewrite (dict_get_truncate L "highlights" (JDict []) h)
    by apply truncate_entry_default_dict.
  destruct (dict_get "highlights" (JDict []) h) as [| | |s| |hh0];
    try discriminate;
    try (unfold truncate_entry; cbn [String.eqb Ascii.eqb Bool.eqb];
         destruct (_ <? _); discriminate).
  intros [= <-].
  change (truncate_entry L "highlights" (JDict hh0)) with (truncate L (JDict hh0)).
  now rewrite truncate_dict.
Qed.

(** The length of a value after [truncate] has visited it: it can only
    change for a string, and from limit 51 on it does not grow. *)
Lemma py_len_truncate_entry (L : limits) (k : string) (v : json) (n : Z) :
  51 <= MAX_STR_FIELD L \/ (forall s, v <> JStr s) ->
  py_len v = Some n ->
  exists n', py_len (truncate_entry L k v) = Some n' /\ n' <= n.
Proof.
  intros Hlim Hn. unfold truncate_entry.
  destruct (String.eqb k "outer_html"); [exists n; split; [exact Hn|lia]|].
  destruct v as [| | |s|l|d]; try discriminate; cbn [py_len] in Hn; injection Hn as <-.
  - destruct Hlim as [Hlim|Hns]; [|now destruct (Hns s)].
    destruct (Z.ltb_spec (MAX_STR_FIELD L) (Py.len s)) as [Hlong|Hshort].
    + eexists. split; [reflexivity|].
      pose proof (truncate_text_length s _ Hlim Hlong). lia.
    + eexists. split; [reflexivity|lia].
  - eexists. split; [reflexivity|]. rewrite length_map. lia.
  - rewrite truncate_dict. eexists. split; [reflexivity|]. rewrite length_map. lia.
Qed.

Lemma py_len_slice (v cut : json) (m : Z) :
  0 <= m -> py_slice_to v m = Some cut ->
  exists n, py_len cut = Some n /\ n <= m.
Proof.
  intros Hm. unfold Py.bound.
  destruct v as [| | |s|l|]; try discriminate; intros [= <-]; cbn [py_len];
    eexists; (split; [reflexivity|]).
  - unfold Py.len, Py.str_to, Py.bound.
    destruct (Z.leb_spec 0 m); [|lia]. rewrite length_take. lia.
  - unfold Py.list_to, Py.bound.
    destruct (Z.leb_spec 0 m); [|lia]. rewrite length_firstn. lia.
Qed.

Lemma cap_evidences_idem (L : limits) (f f' : json) (b : bool) :
  0 <= MAX_JS_EVIDENCE_PER_FILE L ->
  cap_evidences L f = Some (f', b) -> cap_evidences L f' = Some (f', false).
Proof.
  intros Hmax H. pose proof H as H0.
  apply cap_evidences_inv in H
    as (fd & n & -> & _ & [(-> & -> & _)|(_ & _ & ev & ev' & Hev & Hcut & ->)]).
  - exact H0.
  - cbn [cap_evidences]. unfold dict_get. rewrite lookup_assign_same.
    destruct (py_len_slice ev ev' _ Hmax Hcut) as (n' & -> & Hn'). cbn [bind].
    destruct (Z.ltb_spec (MAX_JS_EVIDENCE_PER_FILE L) n'); [lia|reflexivity].
Qed.

Lemma cap_evidences_truncate (L : limits) (f : json) :
  51 <= MAX_STR_FIELD L \/ is_file f = true ->
  cap_evidences L f = Some (f, false) ->
  cap_evidences L (truncate L f) = Some (truncate L f, false).
Proof.
  intros Hlim H.
  apply cap_evidences_inv in H
    as (fd & n & -> & Hn & [(_ & _ & Hle)|(Hb & _)]); [|discriminate].
  rewrite truncate_dict. cbn [cap_evidences].
  rewrite (dict_get_truncate L "evidences" (JList []) fd)
    by apply truncate_entry_default_list.
  assert (Hside : 51 <= MAX_STR_FIELD L
                  \/ (forall s, dict_get "evidences" (JList []) fd <> JStr s)).
  { destruct Hlim as [Hlim|Hfile]; [now left|right].
    apply is_file_inv in Hfile as (fd' & ev & [= <-] & Hev).
    unfold dict_get. rewrite Hev. discriminate. }
  destruct (py_len_truncate_entry L "evidences" _ n Hside Hn) as (n' & -> & Hn').
  cbn [bind].
  destruct (Z.ltb_spec (MAX_JS_EVIDENCE_PER_FILE L) n'); [lia|reflexivity].
Qed.

Lemma mapM_results {A B} (f : A -> option B) (l : list A) (rs : list B) :
  mapM f l = Some rs -> Forall (fun r => exists x, f x = Some r) rs.
Proof.
  revert rs; induction l as [|x l IH]; intros rs; cbn [mapM].
  - intros [= <-]. constructor.
  - intros H. apply bind_some in H as [y [Hy H]].
    apply bind_some in H as [ys [Hys H]]. injection H as <-.
    constructor; [now exists x|auto].
Qed.

Lemma mapM_unfired_iff (L : limits) (fs : list json) :
  mapM (cap_evidences L) fs = Some (map (fun f => (f, false)) fs)
  <-> Forall (fun f => cap_evidences L f = Some (f, false)) fs.
Proof.
  induction fs as [|f fs IH]; cbn [mapM map].
  - split; [constructor|reflexivity].
  - split.
    + intros H. apply bind_some in H as [r [Hr H]].
      apply bind_some in H as [rs [Hrs H]]. injection H as -> ->.
      constructor; [exact Hr|now apply IH].
    + intros H. inversion H as [|? ? Hf Hfs]; subst.
      rewrite Hf. cbn [bind]. apply IH in Hfs. now rewrite Hfs.
Qed.

Lemma existsb_unfired (fs : list json) :
  existsb snd (map (fun f : json => (f, false)) fs) = false.
Proof. induction fs; cbn; auto. Qed.

Lemma cap_bucket_idem (L : limits) (hh : pydict) :
  0 <= MAX_HTML_EVIDENCE_PER_BUCKET L ->
  existsb snd (map (cap_bucket L) (map fst (map (cap_bucket L) hh))) = false.
Proof.
  intros Hmax. induction hh as [|[k v] hh IH]; cbn [map existsb]; [reflexivity|].
  rewrite IH, orb_false_r. unfold cap_bucket at 2. cbn [fst snd].
  destruct v as [| | | |arr|]; try reflexivity.
  destruct (Z.ltb_spec (MAX_HTML_EVIDENCE_PER_BUCKET L) (Z.of_nat (List.length arr)))
    as [Hlong|Hshort]; unfold cap_bucket; cbn [fst snd].
  - unfold Py.list_to, Py.bound. destruct (Z.leb_spec 0 (MAX_HTML_EVIDENCE_PER_BUCKET L)); [|lia].
    rewrite length_firstn.
    destruct (Z.ltb_spec (MAX_HTML_EVIDENCE_PER_BUCKET L)
                (Z.of_nat (Nat.min (Z.to_nat (MAX_HTML_EVIDENCE_PER_BUCKET L))
                                   (List.length arr)))); [lia|reflexivity].
  - destruct (Z.ltb_spec (MAX_HTML_EVIDENCE_PER_BUCKET L) (Z.of_nat (List.length arr)));
      [lia|reflexivity].
Qed.

Lemma cap_bucket_truncate (L : limits) (hh : pydict) :
  existsb snd (map (cap_bucket L)
    (map (fun kv : string * json => (fst kv, truncate_entry L (fst kv) (snd kv))) hh))
  = existsb snd (map (cap_bucket L) hh).
Proof.
  induction hh as [|[k v] hh IH]; cbn [map existsb]; [reflexivity|].
  rewrite IH. f_equal. unfold cap_bucket, truncate_entry. cbn [fst snd].
  destruct (String.eqb k "outer_html"); [reflexivity|].
  destruct v as [| | |s|arr|d]; try reflexivity.
  - destruct (_ <? _); reflexivity.
  - cbn [truncate]. rewrite length_map. destruct (_ <? _); reflexivity.
Qed.

Lemma truncate_idem (L : limits) (v : json) :
  4 <= MAX_STR_FIELD L -> truncate L (truncate L v) = truncate L v.
Proof.
  intros Hlim.
  induction v as [| | | |l IH|d IH] using json_ind; try reflexivity.
  - cbn [truncate]. f_equal. rewrite map_map. apply map_ext_in.
    rewrite Forall_forall in IH. exact IH.
  - rewrite !truncate_dict. f_equal. rewrite map_map. apply map_ext_in.
    intros [k v] Hin. cbn [fst snd]. f_equal.
    rewrite Forall_forall in IH. specialize (IH _ Hin). cbn [snd] in IH.
    unfold truncate_entry. destruct (String.eqb k "outer_html"); [reflexivity|].
    destruct v as [| | |s|l'|d']; try reflexivity.
    + destruct (Z.ltb_spec (MAX_STR_FIELD L) (Py.len s)) as [Hlong|Hshort].
      * destruct (Z.ltb_spec (MAX_STR_FIELD L)
                    (Py.len (_truncate_text s (MAX_STR_FIELD L)))); [|reflexivity].
        now rewrite truncate_text_idem.
      * destruct (Z.ltb_spec (MAX_STR_FIELD L) (Py.len s)); [lia|reflexivity].
    + exact IH.
    + rewrite truncate_dict in IH |- *. exact IH.
Qed.

Lemma assembled_files (x files : json) :
  assembled x = true -> js_files_of x = Some files ->
  exists fs, files = JList fs /\ forallb is_file fs = true.
Proof.
  intros H Hf.
  apply assembled_inv in H as (d & js & h & fs & hh & -> & Hjs & Hfs & _ & _ & Hall).
  cbn [js_files_of] in Hf. unfold dict_get in Hf. rewrite Hjs, Hfs in Hf.
  injection Hf as <-. now exists fs.
Qed.

Lemma assembled_reduce (L : limits) (x y : json) :
  assembled x = true -> reduce L x = Some y -> assembled y = true.
Proof.
  intros H Hy. destruct (reduce_assembled L x H) as (q & Hq & Hasm). congruence.
Qed.

Lemma string_limit_ok_reduce (L : limits) (x y : json) :
  string_limit_ok L x -> reduce L x = Some y -> string_limit_ok L y.
Proof.
  intros [Hlim|[Hlim Hasm]] Hy; [now left|right].
  split; [exact Hlim|eapply assembled_reduce; eassumption].
Qed.

Lemma string_limit_ok_min (L : limits) (x : json) :
  string_limit_ok L x -> 4 <= MAX_STR_FIELD L.
Proof. intros [H|[H _]]; lia. Qed.

(** ** Four rounds reach a payload that no round changes *)

Lemma files_capped_after (L : limits) (x y : json) :
  counts_ok L -> string_limit_ok L x -> reduces L x y -> files_capped L y.
Proof.
  intros (Hfiles & _ & _) Hstr Hred.
  destruct Hred as
         [x' files n cut y' Hf Hn Hlt Hcut Hs
         |x' l rs y' Hf Hle Hrs Hex Hs
         |x' files n fs hh Hf Hn Hle Hfs Hrs Hhh Hex
         |x' files n fs hh Hf Hn Hle Hfs Hrs Hhh Hex].
  - destruct (py_len_slice files cut _ Hfiles Hcut) as (n' & Hn' & Hle).
    exists cut, n'. split; [eapply js_files_of_store_files; eassumption|now split].
  - exists (JList (map fst rs)), (Z.of_nat (List.length l)).
    split; [eapply js_files_of_store_files; eassumption|].
    split; [|exact Hle]. cbn [py_len]. now rewrite length_map, (mapM_length _ _ _ Hrs).
  - exists files, n. rewrite js_files_of_store_highlights. now repeat split.
  - assert (Hside : 51 <= MAX_STR_FIELD L \/ (forall s, files <> JStr s)).
    { destruct Hstr as [Hlim|[_ Hasm]]; [now left|right].
      destruct (assembled_files x' files Hasm Hf) as (fs' & -> & _). discriminate. }
    destruct (py_len_truncate_entry L "files" files n Hside Hn) as (n' & Hn' & Hle').
    exists (truncate_entry L "files" files), n'.
    split; [now apply js_files_of_truncate|]. split; [exact Hn'|lia].
Qed.

Lemma not_files_capped_step (L : limits) (x files : json) (n : Z) :
  files_capped L x -> js_files_of x = Some files -> py_len files = Some n ->
  MAX_JS_FILES L < n -> False.
Proof.
  intros (files0 & n0 & Hf0 & Hn0 & Hle) Hf Hn Hlt.
  rewrite Hf in Hf0. injection Hf0 as <-. rewrite Hn in Hn0. injection Hn0 as <-. lia.
Qed.

Lemma strings_not_capped (L : limits) (fs : list json) :
  Forall (fun f => exists s, f = JStr s) fs ->
  Forall (fun f => cap_evidences L f = Some (f, false)) fs -> fs = [].
Proof.
  intros Hs Hc. destruct Hs as [|f fs [s ->] _]; [reflexivity|].
  inversion Hc as [|? ? Hbad _]. discriminate Hbad.
Qed.

Lemma evidences_capped_truncate (L : limits) (x : json) :
  string_limit_ok L x -> evidences_capped L x -> evidences_capped L (truncate L x).
Proof.
  intros Hstr (files & fs & Hf & Hfs & Hall).
  pose proof (string_limit_ok_min L x Hstr) as Hmin.
  exists (truncate_entry L "files" files).
  rewrite (js_files_of_truncate L x files Hf).
  destruct files as [| | |s|l|d]; try discriminate.
  - assert (Hnil : fs = []).
    { apply (strings_not_capped L); [|exact Hall].
      eapply py_iter_not_list; [exact Hfs|discriminate]. }
    subst fs. cbn [py_iter] in Hfs. destruct s; [|discriminate Hfs].
    exists []. split; [reflexivity|]. split; [|constructor].
    unfold truncate_entry. cbn [String.eqb Ascii.eqb Bool.eqb].
    destruct (Z.ltb_spec (MAX_STR_FIELD L) (Py.len "")); [cbn in *; lia|reflexivity].
  - injection Hfs as <-. exists (map (truncate L) l).
    split; [reflexivity|]. split; [reflexivity|].
    apply Forall_map. apply Forall_forall. intros f Hin.
    rewrite Forall_forall in Hall. apply cap_evidences_truncate; [|now apply Hall].
    destruct Hstr as [Hlim|[_ Hasm]]; [now left|right].
    destruct (assembled_files x _ Hasm Hf) as (fs' & [= <-] & Hfiles).
    rewrite forallb_forall in Hfiles. now apply Hfiles.
  - assert (Hnil : fs = []).
    { apply (strings_not_capped L); [|exact Hall].
      eapply py_iter_not_list; [exact Hfs|discriminate]. }
    subst fs. cbn [py_iter] in Hfs. destruct d; [|discriminate Hfs].
    exists []. split; [reflexivity|]. split; [reflexivity|constructor].
Qed.

Lemma evidences_capped_after (L : limits) (x y : json) :
  counts_ok L -> string_limit_ok L x -> files_capped L x -> reduces L x y ->
  evidences_capped L y.
Proof.
  intros (_ & Hev & _) Hstr Hcap Hred.
  destruct Hred as
         [x' files n cut y' Hf Hn Hlt Hcut Hs
         |x' l rs y' Hf Hle Hrs Hex Hs
         |x' files n fs hh Hf Hn Hle Hfs Hrs Hhh Hex
         |x' files n fs hh Hf Hn Hle Hfs Hrs Hhh Hex].
  - destruct (not_files_capped_step L x' files n Hcap Hf Hn Hlt).
  - exists (JList (map fst rs)), (map fst rs).
    split; [eapply js_files_of_store_files; eassumption|]. split; [reflexivity|].
    apply Forall_map. eapply Forall_impl; [|exact (mapM_results _ _ _ Hrs)].
    intros [f' b] [f Hfb]. cbn [fst]. eapply cap_evidences_idem; eassumption.
  - exists files, fs. rewrite js_files_of_store_highlights.
    split; [exact Hf|]. split; [exact Hfs|]. now apply mapM_unfired_iff.
  - apply evidences_capped_truncate; [exact Hstr|].
    exists files, fs. split; [exact Hf|]. split; [exact Hfs|]. now apply mapM_unfired_iff.
Qed.

Lemma not_evidences_capped_step (L : limits) (x : json) (l : list json)
  (rs : list (json * bool)) :
  evidences_capped L x -> js_files_of x = Some (JList l) ->
  mapM (cap_evidences L) l = Some rs -> existsb snd rs = true -> False.
Proof.
  intros (files & fs & Hf0 & Hfs & Hall) Hf Hrs Hex.
  rewrite Hf in Hf0. injection Hf0 as <-. injection Hfs as <-.
  apply mapM_unfired_iff in Hall. rewrite Hall in Hrs. injection Hrs as <-.
  rewrite existsb_unfired in Hex. discriminate.
Qed.

Lemma buckets_capped_after (L : limits) (x y : json) :
  counts_ok L -> files_capped L x -> evidences_capped L x -> reduces L x y ->
  buckets_capped L y.
Proof.
  intros (_ & _ & Hb) Hcap Hecap Hred.
  destruct Hred as
         [x' files n cut y' Hf Hn Hlt Hcut Hs
         |x' l rs y' Hf Hle Hrs Hex Hs
         |x' files n fs hh Hf Hn Hle Hfs Hrs Hhh Hex
         |x' files n fs hh Hf Hn Hle Hfs Hrs Hhh Hex].
  - destruct (not_files_capped_step L x' files n Hcap Hf Hn Hlt).
  - destruct (not_evidences_capped_step L x' l rs Hecap Hf Hrs Hex).
  - exists (map fst (map (cap_bucket L) hh)).
    split; [|now apply cap_bucket_idem].
    apply html_highlights_of_inv in Hhh as (d & -> & [(h & Hh & Hhh)|(-> & _)]);
      [|discriminate Hex].
    eapply html_highlights_of_store_highlights; eassumption.
  - eexists. split; [apply html_highlights_of_truncate; exact Hhh|].
    now rewrite cap_bucket_truncate.
Qed.

Lemma strings_step (L : limits) (x y : json) :
  files_capped L x -> evidences_capped L x -> buckets_capped L x ->
  reduces L x y -> y = truncate L x.
Proof.
  intros Hcap Hecap (hh0 & Hhh0 & Hex0)
    Hred.
  destruct Hred as
         [x' files n cut y' Hf Hn Hlt Hcut Hs
         |x' l rs y' Hf Hle Hrs Hex Hs
         |x' files n fs hh Hf Hn Hle Hfs Hrs Hhh Hex
         |x' files n fs hh Hf Hn Hle Hfs Hrs Hhh Hex].
  - destruct (not_files_capped_step L x' files n Hcap Hf Hn Hlt).
  - destruct (not_evidences_capped_step L x' l rs Hecap Hf Hrs Hex).
  - rewrite Hhh in Hhh0. injection Hhh0 as <-. congruence.
  - reflexivity.
Qed.

(** A payload on which all four steps do nothing is returned as it is. *)
Lemma reduce_stable (L : limits) (x : json) :
  files_capped L x -> evidences_capped L x -> buckets_capped L x ->
  truncate L x = x -> reduce L x = Some x.
Proof.
  intros (files & n & Hf & Hn & Hle) (files' & fs & Hf' & Hfs & Hall) (hh & Hhh & Hex) Ht.
  rewrite Hf in Hf'. injection Hf' as <-.
  unfold reduce. rewrite Hf. cbn [bind]. rewrite Hn. cbn [bind].
  destruct (Z.ltb_spec (MAX_JS_FILES L) n); [lia|].
  rewrite Hfs. cbn [bind]. apply mapM_unfired_iff in Hall. rewrite Hall. cbn [bind].
  rewrite existsb_unfired, Hhh. cbn [bind]. rewrite Hex. now rewrite Ht.
Qed.

Lemma rounds_four_stable (L : limits) (x y : json) :
  counts_ok L -> string_limit_ok L x -> rounds L 4 x = Some y -> reduce L y = Some y.
Proof.
  intros HL S0 H. cbn [rounds] in H.
  apply bind_some in H as [x1 [H1 H]]. apply bind_some in H as [x2 [H2 H]].
  apply bind_some in H as [x3 [H3 H]]. apply bind_some in H as [x4 [H4 H]].
  injection H as <-.
  pose proof (string_limit_ok_reduce L _ _ S0 H1) as S1.
  pose proof (string_limit_ok_reduce L _ _ S1 H2) as S2.
  pose proof (string_limit_ok_reduce L _ _ S2 H3) as S3.
  apply reduce_reduces in H1, H2, H3, H4.
  pose proof (files_capped_after L _ _ HL S0 H1) as A1.
  pose proof (files_capped_after L _ _ HL S1 H2) as A2.
  pose proof (files_capped_after L _ _ HL S2 H3) as A3.
  pose proof (files_capped_after L _ _ HL S3 H4) as A4.
  pose proof (evidences_capped_after L _ _ HL S1 A1 H2) as B2.
  pose proof (evidences_capped_after L _ _ HL S2 A2 H3) as B3.
  pose proof (evidences_capped_after L _ _ HL S3 A3 H4) as B4.
  pose proof (buckets_capped_after L _ _ HL A2 B2 H3) as C3.
  pose proof (buckets_capped_after L _ _ HL A3 B3 H4) as C4.
  pose proof (strings_step L _ _ A3 B3 C3 H4) as E.
  apply reduce_stable; try assumption.
  rewrite E. apply truncate_idem. exact (string_limit_ok_min L _ S3).
Qed.

(** After four rounds every cap holds and no string field is over the
    limit. *)
Lemma rounds_four_capped (L : limits) (x y : json) :
  counts_ok L -> string_limit_ok L x -> rounds L 4 x = Some y ->
  files_capped L y /\ evidences_capped L y /\ buckets_capped L y
  /\ truncate L y = y.
Proof.
  intros HL S0 H. cbn [rounds] in H.
  apply bind_some in H as [x1 [H1 H]]. apply bind_some in H as [x2 [H2 H]].
  apply bind_some in H as [x3 [H3 H]]. apply bind_some in H as [x4 [H4 H]].
  injection H as <-.
  pose proof (string_limit_ok_reduce L _ _ S0 H1) as S1.
  pose proof (string_limit_ok_reduce L _ _ S1 H2) as S2.
  pose proof (string_limit_ok_reduce L _ _ S2 H3) as S3.
  apply reduce_reduces in H1, H2, H3, H4.
  pose proof (files_capped_after L _ _ HL S0 H1) as A1.
  pose proof (files_capped_after L _ _ HL S1 H2) as A2.
  pose proof (files_capped_after L _ _ HL S2 H3) as A3.
  pose proof (files_capped_after L _ _ HL S3 H4) as A4.
  pose proof (evidences_capped_after L _ _ HL S1 A1 H2) as B2.
  pose proof (evidences_capped_after L _ _ HL S2 A2 H3) as B3.
  pose proof (evidences_capped_after L _ _ HL S3 A3 H4) as B4.
  pose proof (buckets_capped_after L _ _ HL A2 B2 H3) as C3.
  pose proof (buckets_capped_after L _ _ HL A3 B3 H4) as C4.
  pose proof (strings_step L _ _ A3 B3 C3 H4) as E.
  repeat split; try assumption.
  rewrite E. apply truncate_idem. exact (string_limit_ok_min L _ S3).
Qed.

Lemma rounds_stable (L : limits) (x : json) (k : nat) :
  reduce L x = Some x -> rounds L k x = Some x.
Proof.
  intros H. induction k as [|k IH]; cbn [rounds]; [reflexivity|].
  rewrite H. exact IH.
Qed.

Lemma shrink_loop_stable (L : limits) (limit : Z) (x : json) (fuel : nat) :
  reduce L x = Some x -> exists n, shrink_loop fuel L limit x = Some (x, n).
Proof.
  intros H. induction fuel as [|fuel [n IH]]; cbn [shrink_loop].
  - now exists O.
  - destruct (size x <=? limit); [now exists O|].
    rewrite H. cbn [bind]. rewrite IH. cbn [bind fst snd]. now exists (S n).
Qed.

(** C4.  The compactor is idempotent once converged: for every payload,
    budget and limits, when the output is converged (it is within the
    budget, or a round of the loop gives it back unchanged) a second
    run with the same budget and limits returns it.  With count limits
    that are not negative and a string limit of at least 51, or at
    least 4 when the payload has the layout of [build_messages], every
    output is converged. *)
Theorem shrink_payload_idempotent (L : limits) (payload : json) (limit : Z) (out : json) :
  _shrink_payload L payload limit = Some out ->
  (converged L limit out -> _shrink_payload L out limit = Some out)
  /\ (counts_ok L -> string_limit_ok L payload -> converged L limit out).
Proof.
  intros H. split.
  - intros [Hfit|Hst]; unfold _shrink_payload, shrink_run.
    + unfold max_rounds. cbn [shrink_loop].
      destruct (Z.leb_spec (size out) limit); [reflexivity|lia].
    + destruct (shrink_loop_stable L limit out max_rounds Hst) as [n ->].
      reflexivity.
  - intros HL HS. unfold _shrink_payload, shrink_run in H.
    destruct (shrink_loop max_rounds L limit payload) as [[out' n]|] eqn:E; [|discriminate].
    injection H as <-.
    destruct (shrink_loop_rounds L limit max_rounds payload out' n E)
      as (Hle & Hrounds & Hcap).
    destruct (Z.leb_spec (size out') limit) as [Hfit|Hbig]; [now left|right].
    specialize (Hcap Hbig). subst n.
    change max_rounds with (4 + 16)%nat in Hrounds.
    rewrite rounds_add in Hrounds.
    apply bind_some in Hrounds as [x4 [H4 Hrest]].
    pose proof (rounds_four_stable L payload x4 HL HS H4) as Hst.
    rewrite (rounds_stable L x4 16 Hst) in Hrest. injection Hrest as <-.
    exact Hst.
Qed.

(** ** The budget *)

Lemma step_files_capped (L : limits) (x : json) :
  files_capped L x -> step_files L x = Some x.
Proof.
  intros (files & n & Hf & Hn & Hle). unfold step_files.
  rewrite Hf. cbn [bind]. rewrite Hn. cbn [bind].
  destruct (Z.ltb_spec (MAX_JS_FILES L) n); [lia|reflexivity].
Qed.

Lemma step_evidences_capped (L : limits) (x : json) :
  evidences_capped L x -> step_evidences L x = Some x.
Proof.
  intros (files & fs & Hf & Hfs & Hall). unfold step_evidences.
  rewrite Hf. cbn [bind]. rewrite Hfs. cbn [bind].
  apply mapM_unfired_iff in Hall. rewrite Hall. cbn [bind].
  now rewrite existsb_unfired.
Qed.

Lemma step_buckets_capped (L : limits) (x : json) :
  buckets_capped L x -> step_buckets L x = Some x.
Proof.
  intros (hh & Hhh & Hex). unfold step_buckets.
  rewrite Hhh. cbn [bind]. now rewrite Hex.
Qed.

(** A round of the loop is the first of the four blocks whose test
    holds; the tests of the blocks before it fail. *)
Lemma reduces_steps (L : limits) (x y : json) :
  reduces L x y ->
  step_files L x = Some y
  \/ (files_capped L x /\ step_evidences L x = Some y)
  \/ (files_capped L x /\ evidences_capped L x /\ step_buckets L x = Some y)
  \/ (files_capped L x /\ evidences_capped L x /\ buckets_capped L x
      /\ y = truncate L x).
Proof.
  intros Hred.
  destruct Hred as
         [x' files n cut y' Hf Hn Hlt Hcut Hs
         |x' l rs y' Hf Hle Hrs Hex Hs
         |x' files n fs hh Hf Hn Hle Hfs Hrs Hhh Hex
         |x' files n fs hh Hf Hn Hle Hfs Hrs Hhh Hex].
  - left. unfold step_files. rewrite Hf. cbn [bind]. rewrite Hn. cbn [bind].
    destruct (Z.ltb_spec (MAX_JS_FILES L) n); [|lia].
    rewrite Hcut. cbn [bind]. exact Hs.
  - right; left. split.
    + exists (JList l), (Z.of_nat (List.length l)). repeat split; assumption.
    + unfold step_evidences. rewrite Hf. cbn [bind py_iter]. rewrite Hrs. cbn [bind].
      rewrite Hex. exact Hs.
  - right; right; left. split; [|split].
    + exists files, n. repeat split; assumption.
    + exists files, fs. repeat split; try assumption. now apply mapM_unfired_iff.
    + unfold step_buckets. rewrite Hhh. cbn [bind]. now rewrite Hex.
  - right; right; right. split; [|split; [|split]].
    + exists files, n. repeat split; assumption.
    + exists files, fs. repeat split; try assumption. now apply mapM_unfired_iff.
    + exists hh. split; assumption.
    + reflexivity.
Qed.

(** A round does not change what the limits allow. *)
Lemma apply_limits_reduces (L : limits) (x y : json) :
  counts_ok L -> string_limit_ok L x -> reduces L x y ->
  apply_limits L y = apply_limits L x.
Proof.
  intros HL HS Hred.
  pose proof (files_capped_after L x y HL HS Hred) as Fy.
  destruct (reduces_steps L x y Hred)
    as [H1|[(Fx & H2)|[(Fx & Ex & H3)|(Fx & Ex & Bx & Hy)]]].
  - unfold apply_limits. rewrite H1, (step_files_capped L y Fy). reflexivity.
  - pose proof (evidences_capped_after L x y HL HS Fx Hred) as Ey.
    unfold apply_limits.
    rewrite (step_files_capped L x Fx), (step_files_capped L y Fy). cbn [bind].
    rewrite H2, (step_evidences_capped L y Ey). reflexivity.
  - pose proof (evidences_capped_after L x y HL HS Fx Hred) as Ey.
    pose proof (buckets_capped_after L x y HL Fx Ex Hred) as By.
    unfold apply_limits.
    rewrite (step_files_capped L x Fx), (step_files_capped L y Fy). cbn [bind].
    rewrite (step_evidences_capped L x Ex), (step_evidences_capped L y Ey). cbn [bind].
    rewrite H3, (step_buckets_capped L y By). reflexivity.
  - pose proof (evidences_capped_after L x y HL HS Fx Hred) as Ey.
    pose proof (buckets_capped_after L x y HL Fx Ex Hred) as By.
    unfold apply_limits.
    rewrite (step_files_capped L x Fx), (step_files_capped L y Fy). cbn [bind].
    rewrite (step_evidences_capped L x Ex), (step_evidences_capped L y Ey). cbn [bind].
    rewrite (step_buckets_capped L x Bx), (step_buckets_capped L y By). cbn [bind].
    unfold step_strings. rewrite Hy. f_equal. apply truncate_idem.
    exact (string_limit_ok_min L x HS).
Qed.

Lemma apply_limits_rounds (L : limits) (k : nat) :
  counts_ok L ->
  forall x y, string_limit_ok L x -> rounds L k x = Some y ->
    apply_limits L y = apply_limits L x.
Proof.
  intros HL. induction k as [|k IH]; intros x y HS; cbn [rounds].
  - now intros [= <-].
  - intros H. apply bind_some in H as [z [Hz H]].
    rewrite (IH z y (string_limit_ok_reduce L x z HS Hz) H).
    apply apply_limits_reduces; [exact HL|exact HS|now apply reduce_reduces].
Qed.

(** A payload on which no block has anything to do is what the limits
    allow. *)
Lemma apply_limits_stable (L : limits) (x : json) :
  files_capped L x -> evidences_capped L x -> buckets_capped L x ->
  truncate L x = x -> apply_limits L x = Some x.
Proof.
  intros Fx Ex Bx Tx. unfold apply_limits.
  rewrite (step_files_capped L x Fx). cbn [bind].
  rewrite (step_evidences_capped L x Ex). cbn [bind].
  rewrite (step_buckets_capped L x Bx). cbn [bind].
  unfold step_strings. now rewrite Tx.
Qed.

Lemma jsize_step_files (L : limits) (x y : json) :
  0 <= MAX_JS_FILES L -> step_files L x = Some y -> (jsize y <= jsize x)%nat.
Proof.
  intros Hfiles H. unfold step_files in H.
  apply bind_some in H as [files [Hf H]]. apply bind_some in H as [n [Hn H]].
  destruct (Z.ltb_spec (MAX_JS_FILES L) n) as [Hlt|Hge].
  - apply bind_some in H as [cut [Hcut Hs]].
    eapply jsize_store_files; try eassumption.
    + intros ->. cbn in Hn. injection Hn as <-. lia.
    + eapply jsize_slice; eassumption.
  - injection H as <-. lia.
Qed.

Lemma jsize_step_evidences (L : limits) (x y : json) :
  step_evidences L x = Some y -> (jsize y <= jsize x)%nat.
Proof.
  intros H. unfold step_evidences in H.
  apply bind_some in H as [files [Hf H]]. apply bind_some in H as [fs [Hfs H]].
  apply bind_some in H as [rs [Hrs H]].
  destruct (existsb snd rs) eqn:Hex; [|injection H as <-; lia].
  destruct files as [| | | |l|]; try (injection H as <-; lia).
  cbn [py_iter] in Hfs. injection Hfs as <-.
  eapply jsize_store_files; try eassumption.
  - intros [= ->]. cbn in Hrs. injection Hrs as <-. discriminate Hex.
  - apply jsize_list_le. eapply jsize_mapM_cap; eassumption.
Qed.

Lemma jsize_step_buckets (L : limits) (x y : json) :
  step_buckets L x = Some y -> (jsize y <= jsize x)%nat.
Proof.
  intros H. unfold step_buckets in H.
  apply bind_some in H as [hh [Hhh H]].
  destruct (existsb snd (map (cap_bucket L) hh)); injection H as <-;
    [now apply jsize_store_highlights|lia].
Qed.

(** What the limits allow is never larger than the payload. *)
Lemma jsize_apply_limits (L : limits) (x z : json) :
  0 <= MAX_JS_FILES L -> 51 <= MAX_STR_FIELD L ->
  apply_limits L x = Some z -> (jsize z <= jsize x)%nat.
Proof.
  intros Hfiles Hstr H. unfold apply_limits in H.
  apply bind_some in H as [x1 [H1 H]]. apply bind_some in H as [x2 [H2 H]].
  apply bind_some in H as [x3 [H3 H]]. unfold step_strings in H. injection H as <-.
  pose proof (jsize_step_files L x x1 Hfiles H1).
  pose proof (jsize_step_evidences L x1 x2 H2).
  pose proof (jsize_step_buckets L x2 x3 H3).
  pose proof (truncate_jsize L x3 Hstr). lia.
Qed.

(** C3 (amended).  With a file limit that is not negative and a string
    limit of at least 51, no round of the loop increases the measured
    size and the output is never larger than the input.  When the two
    other count limits are not negative either, the budget is reached
    whenever the limits allow it: with [z] the payload with every limit
    applied once, no payload that the loop reaches, after any number of
    rounds, is smaller than [z]; the output is within the budget
    whenever [z] is, and it is [z] itself whenever [z] is over the
    budget; on a payload with the layout of [build_messages] there is
    such a [z]. *)
Theorem shrink_payload_size (L : limits) (payload : json) (limit : Z) (out : json) :
  0 <= MAX_JS_FILES L ->
  51 <= MAX_STR_FIELD L ->
  _shrink_payload L payload limit = Some out ->
  (forall x y, reduce L x = Some y -> size y <= size x)
  /\ size out <= size payload
  /\ (0 <= MAX_JS_EVIDENCE_PER_FILE L ->
      0 <= MAX_HTML_EVIDENCE_PER_BUCKET L ->
      (forall z,
         apply_limits L payload = Some z ->
         (forall k x, rounds L k payload = Some x -> size z <= size x)
         /\ size z <= size out
         /\ (size z <= limit -> size out <= limit)
         /\ (limit < size z -> out = z))
      /\ (assembled payload = true -> exists z, apply_limits L payload = Some z)).
Proof.
  intros Hfiles Hstr H. unfold _shrink_payload, shrink_run in H.
  destruct (shrink_loop max_rounds L limit payload) as [[out' n]|] eqn:E; [|discriminate].
  injection H as <-.
  destruct (shrink_loop_rounds L limit max_rounds payload out' n E)
    as (Hle & Hrounds & Hcap).
  split; [intros x y; now apply size_reduce|].
  split; [eapply size_rounds; eassumption|].
  intros Hev Hb.
  assert (HL : counts_ok L) by (repeat split; assumption).
  assert (HS : string_limit_ok L payload) by now left.
  split.
  - intros z Hz.
    assert (Hall : forall k x, rounds L k payload = Some x -> size z <= size x).
    { intros k x Hx. rewrite !size_jsize. apply Nat2Z.inj_le.
      apply (jsize_apply_limits L x z Hfiles Hstr).
      rewrite (apply_limits_rounds L k HL payload x HS Hx). exact Hz. }
    assert (Hout : apply_limits L out' = Some z)
      by (rewrite (apply_limits_rounds L n HL payload out' HS Hrounds); exact Hz).
    assert (Hlow : size z <= size out') by (apply (Hall n); exact Hrounds).
    assert (Hover : limit < size out' -> out' = z).
    { intros Hbig. specialize (Hcap Hbig). subst n.
      change max_rounds with (4 + 16)%nat in Hrounds.
      rewrite rounds_add in Hrounds.
      apply bind_some in Hrounds as [x4 [H4 Hrest]].
      pose proof (rounds_four_stable L payload x4 HL HS H4) as Hst.
      rewrite (rounds_stable L x4 16 Hst) in Hrest. injection Hrest as <-.
      destruct (rounds_four_capped L payload x4 HL HS H4) as (Fx & Ex & Bx & Tx).
      rewrite (apply_limits_stable L x4 Fx Ex Bx Tx) in Hout.
      now injection Hout. }
    split; [exact Hall|]. split; [exact Hlow|]. split.
    + intros Hfit. destruct (Z.leb_spec (size out') limit) as [Hok|Hbig]; [exact Hok|].
      rewrite (Hover Hbig). exact Hfit.
    + intros Hbig. apply Hover. lia.
  - intros Hasm.
    destruct (shrink_loop_assembled L (-1) 4 payload Hasm)
      as (x4 & k & _ & _ & H4 & Hk).
    assert (Hbig : -1 < size x4) by (rewrite size_jsize; lia).
    rewrite (Hk Hbig) in H4.
    destruct (rounds_four_capped L payload x4 HL HS H4) as (Fx & Ex & Bx & Tx).
    exists x4. rewrite <- (apply_limits_rounds L 4 HL payload x4 HS H4).
    now apply apply_limits_stable.
Qed.

(** ** What the compactor may change *)

Lemma Forall2_refl_in {A} (R : A -> A -> Prop) (l : list A) :
  Forall (fun x => R x x) l -> Forall2 R l l.
Proof. induction 1; constructor; assumption. Qed.

Lemma Forall2_trans_in {A} (R : A -> A -> Prop) (l1 l2 l3 : list A) :
  Forall (fun a => forall b c, R a b -> R b c -> R a c) l1 ->
  Forall2 R l1 l2 -> Forall2 R l2 l3 -> Forall2 R l1 l3.
Proof.
  intros Hall H12. revert l3 Hall.
  induction H12 as [|a b l1 l2 Hab _ IH]; intros l3 Hall H23.
  - inversion H23; subst. constructor.
  - inversion H23 as [|b' c l2' l3' Hbc H23']; subst.
    inversion Hall as [|a' l1' Ha Hall']; subst.
    constructor; [eapply Ha; eassumption|now apply IH].
Qed.

Lemma Forall2_firstn {A} (R : A -> A -> Prop) (m : nat) (l l' : list A) :
  Forall2 R l l' -> Forall2 R (firstn m l) (firstn m l').
Proof.
  intros H. revert m. induction H; intros [|m]; cbn [firstn]; constructor; auto.
Qed.

Lemma Forall_firstn {A} (P : A -> Prop) (n : nat) (l : list A) :
  Forall P l -> Forall P (firstn n l).
Proof.
  intros H. revert n. induction H; intros [|n]; cbn [firstn]; constructor; auto.
Qed.

Lemma nth_error_firstn_some {A} (n i : nat) (l : list A) (x : A) :
  nth_error (firstn n l) i = Some x -> nth_error l i = Some x.
Proof.
  revert n l; induction i as [|i IH]; intros [|n] [|y l]; cbn;
    try discriminate; auto.
  apply IH.
Qed.

Lemma compacted_refl (v : json) : compacted v v.
Proof.
  induction v as [| | | |l IH|d IH] using json_ind; try constructor.
  - apply (compacted_list l l (List.length l)). rewrite firstn_all.
    now apply Forall2_refl_in.
  - apply Forall2_refl_in. eapply Forall_impl; [|exact IH].
    intros [k v] Hv. cbn [fst snd] in *. repeat split; auto.
Qed.

Lemma compacted_trans (a : json) :
  forall b c, compacted a b -> compacted b c -> compacted a c.
Proof.
  induction a as [|b0|z0|s0|l IH|d IH] using json_ind; intros b c Hab Hbc.
  - inversion Hab; subst. exact Hbc.
  - inversion Hab; subst. exact Hbc.
  - inversion Hab; subst. exact Hbc.
  - inversion Hab; subst. inversion Hbc; subst. constructor.
  - inversion Hab as [| | | |l0 l' n Hl|]; subst.
    inversion Hbc as [| | | |l0 l'' m Hl'|]; subst.
    apply (compacted_list l l'' (Nat.min m n)).
    rewrite <- firstn_firstn.
    eapply Forall2_trans_in; [|apply Forall2_firstn; exact Hl|exact Hl'].
    now apply Forall_firstn, Forall_firstn.
  - inversion Hab as [| | | | |d0 d' Hd]; subst.
    inversion Hbc as [| | | | |d0 d'' Hd']; subst.
    constructor.
    eapply (Forall2_trans_in _ d d' d''); [|exact Hd|exact Hd'].
    eapply Forall_impl; [|exact IH].
    intros [k v] Hv [k' v'] [k'' v''] (Hk & Hp & Hc) (Hk' & Hp' & Hc').
    cbn [fst snd] in *. subst k' k''. repeat split.
    + intros Ho s Hs. apply (Hp' Ho s). now apply (Hp Ho s).
    + eapply Hv; eassumption.
Qed.

Lemma compacted_list_to (l : list json) (n : Z) :
  compacted (JList l) (JList (Py.list_to l n)).
Proof.
  unfold Py.list_to. apply (compacted_list l _ (Py.bound (List.length l) n)).
  apply Forall2_refl_in, Forall_forall. intros x _. apply compacted_refl.
Qed.

Lemma compacted_slice (v cut : json) (n : Z) :
  py_slice_to v n = Some cut -> compacted v cut.
Proof.
  destruct v; try discriminate; intros [= <-].
  - constructor.
  - apply compacted_list_to.
Qed.

Lemma compacted_assign (k : string) (v v' : json) (d : pydict) :
  k <> "outer_html" -> lookup k d = Some v -> compacted v v' ->
  compacted (JDict d) (JDict (assign k v' d)).
Proof.
  intros Hk Hv Hc. constructor. revert Hv.
  induction d as [|[k0 v0] d IH]; cbn [lookup assign]; [discriminate|].
  destruct (String.eqb_spec k k0) as [<-|Hne].
  - intros [= ->]. constructor.
    + cbn [fst snd]. repeat split; [|exact Hc]. intros Ho. contradiction.
    + apply Forall2_refl_in, Forall_forall. intros [k1 v1] _. cbn [fst snd].
      repeat split; [auto|apply compacted_refl].
  - intros H. constructor; [|now apply IH].
    cbn [fst snd]. repeat split; [auto|apply compacted_refl].
Qed.

Lemma compacted_truncate (L : limits) (v : json) : compacted v (truncate L v).
Proof.
  induction v as [| | | |l IH|d IH] using json_ind.
  - apply compacted_refl.
  - apply compacted_refl.
  - apply compacted_refl.
  - apply compacted_refl.
  - cbn [truncate]. apply (compacted_list l _ (List.length l)). rewrite firstn_all.
    induction IH; cbn [map]; constructor; assumption.
  - rewrite truncate_dict. apply compacted_dict.
    induction IH as [|[k v] d Hv _ IHd]; cbn [map]; constructor; [|exact IHd].
    cbn [fst snd] in *. unfold truncate_entry. repeat split.
    + intros -> s ->. reflexivity.
    + destruct (String.eqb k "outer_html"); [apply compacted_refl|].
      destruct v; try exact Hv.
      destruct (_ <? _); constructor.
Qed.

Lemma compacted_store_files (x files v y : json) :
  js_files_of x = Some files -> store_files x v = Some y ->
  files <> JList [] -> compacted files v -> compacted x y.
Proof.
  intros Hf Hs Hne Hv.
  apply store_files_inv in Hs as (d & js & -> & Hjs & ->).
  apply js_files_of_inv in Hf as (d' & [= <-] & [[Hnone _]|(js' & Hjs' & ->)]);
    [congruence|].
  assert (js' = js) by congruence. subst js'.
  apply (compacted_assign _ (JDict js)); [discriminate|exact Hjs|].
  unfold dict_get in Hne, Hv. destruct (lookup "files" js) as [f0|] eqn:E; [|congruence].
  now apply (compacted_assign _ f0); [discriminate| |].
Qed.

Lemma compacted_cap_evidences (L : limits) (f f' : json) (b : bool) :
  cap_evidences L f = Some (f', b) -> compacted f f'.
Proof.
  intros H.
  apply cap_evidences_inv in H
    as (fd & n & -> & _ & [(_ & -> & _)|(_ & _ & ev & ev' & Hev & Hcut & ->)]).
  - apply compacted_refl.
  - apply (compacted_assign _ ev); [discriminate|exact Hev|].
    eapply compacted_slice; eassumption.
Qed.

Lemma compacted_mapM_cap (L : limits) (l : list json) (rs : list (json * bool)) :
  mapM (cap_evidences L) l = Some rs -> compacted (JList l) (JList (map fst rs)).
Proof.
  intros H. apply (compacted_list l _ (List.length l)). rewrite firstn_all.
  revert rs H. induction l as [|f l IH]; intros rs; cbn [mapM].
  - intros [= <-]. constructor.
  - intros H. apply bind_some in H as [[f' b] [Hf H]].
    apply bind_some in H as [rs' [Hrs H]]. injection H as <-.
    cbn [map fst]. constructor; [eapply compacted_cap_evidences; eassumption|auto].
Qed.

Lemma compacted_cap_values (L : limits) (hh : pydict) :
  compacted (JDict hh)
    (JDict (map (fun kv : string * json => (fst kv, cap_value L (snd kv))) hh)).
Proof.
  apply compacted_dict.
  induction hh as [|[k v] hh IH]; cbn [map]; constructor; [|exact IH].
  cbn [fst snd]. unfold cap_value. repeat split.
  - intros _ s ->. reflexivity.
  - destruct v; try apply compacted_refl.
    destruct (_ <? _); [apply compacted_list_to|apply compacted_refl].
Qed.

Lemma compacted_store_highlights (L : limits) (x : json) (hh : pydict) :
  html_highlights_of x = Some hh ->
  compacted x (store_highlights x (map fst (map (cap_bucket L) hh))).
Proof.
  intros H.
  apply html_highlights_of_inv in H as (d & -> & [(h & Hh & Hhh)|(_ & Hsame)]).
  - rewrite (store_highlights_present d h _ _ Hh Hhh).
    apply (compacted_assign _ (JDict h)); [discriminate|exact Hh|].
    apply (compacted_assign _ (JDict hh)); [discriminate|exact Hhh|].
    rewrite cap_bucket_values. apply compacted_cap_values.
  - rewrite Hsame. apply compacted_refl.
Qed.

Lemma compacted_reduces (L : limits) (x y : json) :
  0 <= MAX_JS_FILES L -> reduces L x y -> compacted x y.
Proof.
  intros Hfiles
         [x' files n cut y' Hf Hn Hlt Hcut Hs
         |x' l rs y' Hf Hle Hrs Hex Hs
         |x' files n fs hh Hf Hn Hle Hfs Hrs Hhh Hex
         |x' files n fs hh Hf Hn Hle Hfs Hrs Hhh Hex].
  - eapply compacted_store_files; try eassumption.
    + intros ->. cbn in Hn. injection Hn as <-. lia.
    + eapply compacted_slice; eassumption.
  - eapply compacted_store_files; try eassumption.
    + intros [= ->]. cbn in Hrs. injection Hrs as <-. discriminate Hex.
    + eapply compacted_mapM_cap; eassumption.
  - now apply compacted_store_highlights.
  - apply compacted_truncate.
Qed.

(** When the file limit is not negative the output is the input with
    tails of lists dropped and strings other than the protected ones
    replaced: no key, number, flag or list item is added or rewritten. *)
Theorem shrink_payload_compacts (L : limits) (payload : json) (limit : Z) (out : json) :
  0 <= MAX_JS_FILES L ->
  _shrink_payload L payload limit = Some out ->
  compacted payload out.
Proof.
  intros Hfiles H. unfold _shrink_payload, shrink_run in H.
  destruct (shrink_loop max_rounds L limit payload) as [[out' n]|] eqn:E; [|discriminate].
  injection H as <-.
  destruct (shrink_loop_rounds L limit max_rounds payload out' n E) as (_ & Hrounds & _).
  clear E. revert payload Hrounds.
  induction n as [|n IH]; intros payload; cbn [rounds].
  - intros [= <-]. apply compacted_refl.
  - intros H. apply bind_some in H as [next [Hnext H]].
    eapply compacted_trans; [|apply IH; exact H].
    apply (compacted_reduces L); [exact Hfiles|now apply reduce_reduces].
Qed.

(** ** What the compactor changes on an assembled payload *)

Lemma pruned_kind (L : limits) (v v' : json) :
  pruned L v v' -> (forall s, v <> JStr s) -> forall s, v' <> JStr s.
Proof.
  intros H Hv s. inversion H; subst; try discriminate.
  exfalso. eapply Hv; reflexivity.
Qed.

Lemma pruned_entry_same (L : limits) (kv : string * json) :
  pruned L (snd kv) (snd kv) -> pruned_entry L kv kv.
Proof.
  intros H. split; [reflexivity|]. split; [|split].
  - intros s Hs _. exact Hs.
  - intros s Hs _. exists O. exact Hs.
  - intros _. exact H.
Qed.

Lemma pruned_entry_value (L : limits) (k : string) (v v' : json) :
  (forall s, v <> JStr s) -> pruned L v v' -> pruned_entry L (k, v) (k, v').
Proof.
  intros Hv H. split; [reflexivity|]. cbn [fst snd]. split; [|split].
  - intros s Hs. destruct (Hv s Hs).
  - intros s Hs. destruct (Hv s Hs).
  - intros _. exact H.
Qed.

Lemma pruned_refl (L : limits) (v : json) : pruned L v v.
Proof.
  induction v as [| | | |l IH|d IH] using json_ind; try constructor.
  - apply (pruned_list L l l (List.length l)). rewrite firstn_all.
    now apply Forall2_refl_in.
  - apply Forall2_refl_in. eapply Forall_impl; [|exact IH].
    intros kv Hv. now apply (pruned_entry_same L kv).
Qed.

Lemma elide_n_add (L : limits) (j k : nat) (s : string) :
  elide_n L j (elide_n L k s) = elide_n L (j + k) s.
Proof. unfold elide_n. now rewrite Nat.iter_add. Qed.

Lemma pruned_trans (L : limits) (a : json) :
  forall b c, pruned L a b -> pruned L b c -> pruned L a c.
Proof.
  induction a as [|b0|z0|s0|l IH|d IH] using json_ind; intros b c Hab Hbc.
  - inversion Hab; subst. exact Hbc.
  - inversion Hab; subst. exact Hbc.
  - inversion Hab; subst. exact Hbc.
  - inversion Hab; subst. exact Hbc.
  - inversion Hab as [| | | |l0 l' n Hl|]; subst.
    inversion Hbc as [| | | |l0 l'' m Hl'|]; subst.
    apply (pruned_list L l l'' (Nat.min m n)).
    rewrite <- firstn_firstn.
    eapply Forall2_trans_in; [|apply Forall2_firstn; exact Hl|exact Hl'].
    now apply Forall_firstn, Forall_firstn.
  - inversion Hab as [| | | | |d0 d' Hd]; subst.
    inversion Hbc as [| | | | |d0 d'' Hd']; subst.
    constructor.
    eapply (Forall2_trans_in _ d d' d''); [|exact Hd|exact Hd'].
    eapply Forall_impl; [|exact IH].
    intros [k v] Hv [k' v'] [k'' v''] (Hk & Hp & He & Hc) (Hk' & Hp' & He' & Hc').
    cbn [fst snd] in *. subst k' k''. split; [reflexivity|]. split; [|split].
    + intros s Hs Ho. apply (Hp' s); [|exact Ho]. now apply (Hp s).
    + intros s Hs Ho. destruct (He s Hs Ho) as [k1 H1].
      destruct (He' _ H1 Ho) as [k2 H2]. exists (k2 + k1)%nat.
      now rewrite <- elide_n_add.
    + intros Hns. eapply Hv; [apply Hc; exact Hns|].
      apply Hc'. apply (pruned_kind L v v'); [now apply Hc|exact Hns].
Qed.

Lemma pruned_list_to (L : limits) (l : list json) (n : Z) :
  pruned L (JList l) (JList (Py.list_to l n)).
Proof.
  unfold Py.list_to. apply (pruned_list L l _ (Py.bound (List.length l) n)).
  apply Forall2_refl_in, Forall_forall. intros x _. apply pruned_refl.
Qed.

Lemma pruned_assign (L : limits) (k : string) (v v' : json) (d : pydict) :
  lookup k d = Some v -> (forall s, v <> JStr s) -> pruned L v v' ->
  pruned L (JDict d) (JDict (assign k v' d)).
Proof.
  intros Hv Hns Hc. constructor. revert Hv.
  induction d as [|[k0 v0] d IH]; cbn [lookup assign]; [discriminate|].
  destruct (String.eqb_spec k k0) as [<-|Hne].
  - intros [= ->]. constructor.
    + now apply (pruned_entry_value L k v v').
    + apply Forall2_refl_in, Forall_forall. intros kv _.
      apply (pruned_entry_same L kv), pruned_refl.
  - intros H. constructor; [|now apply IH].
    apply (pruned_entry_same L (k0, v0)), pruned_refl.
Qed.

Lemma pruned_truncate (L : limits) (v : json) : pruned L v (truncate L v).
Proof.
  induction v as [| | | |l IH|d IH] using json_ind.
  - apply pruned_refl.
  - apply pruned_refl.
  - apply pruned_refl.
  - apply pruned_refl.
  - cbn [truncate]. apply (pruned_list L l _ (List.length l)). rewrite firstn_all.
    induction IH; cbn [map]; constructor; assumption.
  - rewrite truncate_dict. apply pruned_dict.
    induction IH as [|[k v] d Hv _ IHd]; cbn [map]; constructor; [|exact IHd].
    cbn [fst snd] in *. unfold truncate_entry. split; [reflexivity|]. split; [|split].
    + intros s -> ->. reflexivity.
    + intros s -> Hk. apply String.eqb_neq in Hk. rewrite Hk.
      destruct (MAX_STR_FIELD L <? Py.len s); [now exists 1%nat|now exists O].
    + intros Hns. destruct (String.eqb k "outer_html"); [apply pruned_refl|].
      destruct v; try exact Hv. destruct (Hns s eq_refl).
Qed.

Lemma pruned_store_files (L : limits) (x files v y : json) :
  assembled x = true -> js_files_of x = Some files -> store_files x v = Some y ->
  pruned L files v -> pruned L x y.
Proof.
  intros Hasm Hf Hs Hv.
  apply assembled_inv in Hasm as (d & js & h & fs & hh & -> & Hjs & Hfs & _).
  cbn [js_files_of] in Hf. unfold dict_get in Hf. rewrite Hjs, Hfs in Hf.
  injection Hf as <-.
  cbn [store_files] in Hs. rewrite Hjs in Hs. injection Hs as <-.
  apply (pruned_assign L _ (JDict js)); [exact Hjs|discriminate|].
  now apply (pruned_assign L _ (JList fs)); [exact Hfs|discriminate|].
Qed.

Lemma pruned_cap_evidences (L : limits) (f f' : json) (b : bool) :
  is_file f = true -> cap_evidences L f = Some (f', b) -> pruned L f f'.
Proof.
  intros Hfile H.
  apply is_file_inv in Hfile as (fd0 & evs & -> & Hevs).
  apply cap_evidences_inv in H
    as (fd & n & [= <-] & _ & [(_ & -> & _)|(_ & _ & ev & ev' & Hev & Hcut & ->)]).
  - apply pruned_refl.
  - rewrite Hevs in Hev. injection Hev as <-. cbn [py_slice_to] in Hcut.
    injection Hcut as <-.
    apply (pruned_assign L _ (JList evs)); [exact Hevs|discriminate|].
    apply pruned_list_to.
Qed.

Lemma pruned_mapM_cap (L : limits) (l : list json) (rs : list (json * bool)) :
  forallb is_file l = true ->
  mapM (cap_evidences L) l = Some rs -> pruned L (JList l) (JList (map fst rs)).
Proof.
  intros Hall H. apply (pruned_list L l _ (List.length l)). rewrite firstn_all.
  revert rs Hall H. induction l as [|f l IH]; intros rs Hall; cbn [mapM].
  - intros [= <-]. constructor.
  - cbn [forallb] in Hall. apply andb_true_iff in Hall as [Hf Hl].
    intros H. apply bind_some in H as [[f' b] [Hf' H]].
    apply bind_some in H as [rs' [Hrs H]]. injection H as <-.
    cbn [map fst]. constructor; [eapply pruned_cap_evidences; eassumption|auto].
Qed.

Lemma pruned_cap_values (L : limits) (hh : pydict) :
  pruned L (JDict hh)
    (JDict (map (fun kv : string * json => (fst kv, cap_value L (snd kv))) hh)).
Proof.
  apply pruned_dict.
  induction hh as [|[k v] hh IH]; cbn [map]; constructor; [|exact IH].
  cbn [fst snd]. unfold cap_value. split; [reflexivity|]. split; [|split].
  - intros s -> _. reflexivity.
  - intros s -> _. now exists O.
  - intros _. destruct v; try apply pruned_refl.
    destruct (_ <? _); [apply pruned_list_to|apply pruned_refl].
Qed.

Lemma pruned_store_highlights (L : limits) (x : json) (hh : pydict) :
  html_highlights_of x = Some hh ->
  pruned L x (store_highlights x (map fst (map (cap_bucket L) hh))).
Proof.
  intros H.
  apply html_highlights_of_inv in H as (d & -> & [(h & Hh & Hhh)|(_ & Hsame)]).
  - rewrite (store_highlights_present d h _ _ Hh Hhh).
    apply (pruned_assign L _ (JDict h)); [exact Hh|discriminate|].
    apply (pruned_assign L _ (JDict hh)); [exact Hhh|discriminate|].
    rewrite cap_bucket_values. apply pruned_cap_values.
  - rewrite Hsame. apply pruned_refl.
Qed.

(** One round on an assembled payload, whatever the limits. *)
Lemma pruned_reduces (L : limits) (x y : json) :
  assembled x = true -> reduces L x y -> pruned L x y.
Proof.
  intros Hasm Hred.
  destruct Hred as
         [x' files n cut y' Hf Hn Hlt Hcut Hs
         |x' l rs y' Hf Hle Hrs Hex Hs
         |x' files n fs hh Hf Hn Hle Hfs Hrs Hhh Hex
         |x' files n fs hh Hf Hn Hle Hfs Hrs Hhh Hex].
  - eapply pruned_store_files; try eassumption.
    destruct (assembled_files _ _ Hasm Hf) as (fs & -> & _).
    cbn [py_slice_to] in Hcut. injection Hcut as <-. apply pruned_list_to.
  - eapply pruned_store_files; try eassumption.
    destruct (assembled_files _ _ Hasm Hf) as (fs & [= <-] & Hall).
    now apply pruned_mapM_cap.
  - now apply pruned_store_highlights.
  - apply pruned_truncate.
Qed.

Lemma pruned_rounds (L : limits) (n : nat) :
  forall x y, assembled x = true -> rounds L n x = Some y -> pruned L x y.
Proof.
  induction n as [|n IH]; intros x y Hasm; cbn [rounds].
  - intros [= <-]. apply pruned_refl.
  - intros H. apply bind_some in H as [next [Hnext H]].
    eapply pruned_trans; [|apply (IH next); [eapply assembled_reduce; eassumption|exact H]].
    apply pruned_reduces; [exact Hasm|now apply reduce_reduces].
Qed.

Lemma pruned_lookup (L : limits) (k : string) (d d' : pydict) (v : json) :
  Forall2 (pruned_entry L) d d' -> lookup k d = Some v ->
  exists v', lookup k d' = Some v' /\ pruned_entry L (k, v) (k, v').
Proof.
  induction 1 as [|[k0 v0] [k1 v1] d d' Hkv _ IH]; cbn [lookup]; [discriminate|].
  pose proof Hkv as (Hk & _). cbn [fst] in Hk. subst k1.
  destruct (String.eqb_spec k k0) as [->|Hne].
  - intros [= <-]. now exists v1.
  - exact IH.
Qed.

Lemma pruned_nth_error (L : limits) (l l' : list json) (n i : nat) (w' : json) :
  Forall2 (pruned L) (firstn n l) l' -> nth_error l' i = Some w' ->
  exists w, nth_error l i = Some w /\ pruned L w w'.
Proof.
  intros H Hi.
  assert (Hw : exists w, nth_error (firstn n l) i = Some w /\ pruned L w w').
  { remember (firstn n l) as p eqn:Ep. clear Ep. revert i Hi.
    induction H as [|x y a b Hxy _ IH]; intros [|i]; cbn; try discriminate.
    - intros [= <-]. now exists x.
    - apply IH. }
  destruct Hw as (w & Hw & Hc). exists w.
  split; [eapply nth_error_firstn_some; exact Hw|exact Hc].
Qed.

Lemma outer_html_at_shape (path : list step) (x : json) (s : string) :
  outer_html_at path x = Some s ->
  match path with
  | Idx _ :: _ => exists l, x = JList l
  | _ => exists d, x = JDict d
  end.
Proof.
  unfold outer_html_at. destruct path as [|[k|i] rest]; cbn [app at_path];
    destruct x; try discriminate; intros _; eexists; reflexivity.
Qed.

(** A record that [pruned] keeps still holds its protected field. *)
Lemma pruned_outer_html_kept (L : limits) (x y : json) :
  pruned L x y -> outer_html_kept x y.
Proof.
  intros Hp path. revert x y Hp.
  induction path as [|[k|i] rest IH]; intros x y Hp r s Hr Hs.
  - destruct (outer_html_at_shape _ _ _ Hs) as [d ->].
    inversion Hp as [| | | | |d0 d' Hd]; subst.
    rewrite outer_html_at_nil_dict in Hs |- *.
    destruct (lookup "outer_html" d) as [w|] eqn:E; [|discriminate].
    destruct w as [| | |s0| |]; try discriminate. injection Hs as <-.
    destruct (pruned_lookup L _ _ _ _ Hd E) as (v' & Hv' & _ & Hprot & _).
    rewrite Hv'. cbn [fst snd] in Hprot. now rewrite (Hprot s0 eq_refl eq_refl).
  - destruct (outer_html_at_shape _ _ _ Hs) as [d ->].
    inversion Hp as [| | | | |d0 d' Hd]; subst.
    rewrite outer_html_at_key in Hs |- *.
    destruct (lookup k d) as [w|] eqn:E; [|discriminate].
    destruct (pruned_lookup L _ _ _ _ Hd E) as (v' & Hv' & _ & _ & _ & Hval).
    rewrite Hv'. cbn [fst snd] in Hval.
    cbn [at_path] in Hr. rewrite Hv' in Hr.
    apply (IH w v') with (r := r); [|exact Hr|exact Hs].
    apply Hval. intros s0 ->. rewrite outer_html_at_leaf in Hs; [discriminate|exact I].
  - destruct (outer_html_at_shape _ _ _ Hs) as [l ->].
    inversion Hp as [| | | |l0 l' n Hl|]; subst.
    rewrite outer_html_at_idx in Hs |- *.
    cbn [at_path] in Hr.
    destruct (nth_error l' i) as [w'|] eqn:E'; [|discriminate].
    destruct (pruned_nth_error L _ _ _ _ _ Hl E') as (w & Hw & Hc).
    rewrite Hw in Hs. now apply (IH w w') with (r := r).
Qed.

(** C1.  Whatever the payload, the budget and the limits, every
    [outer_html] string of the output of [_shrink_payload] is the
    [outer_html] string found at the same place (same keys, same list
    indices) in the input.  On a payload with the layout of
    [build_messages], moreover, every record that is still in the output
    holds the [outer_html] string that it holds in the input, and the
    output is the input with tails of lists dropped and string fields
    other than [outer_html] elided by [_truncate_text], nothing else
    being changed: compaction only removes whole records and truncates
    strings that are not protected. *)
Theorem shrink_payload_keeps_outer_html (L : limits) (payload : json) (limit : Z)
  (out : json) :
  _shrink_payload L payload limit = Some out ->
  keeps_outer_html payload out
  /\ (assembled payload = true ->
      outer_html_kept payload out /\ pruned L payload out).
Proof.
  unfold _shrink_payload, shrink_run. intros H.
  destruct (shrink_loop max_rounds L limit payload) as [[out' n]|] eqn:E; [|discriminate].
  injection H as <-. split.
  - exact (keeps_shrink_loop L limit max_rounds payload (out', n) E).
  - intros Hasm.
    destruct (shrink_loop_rounds L limit max_rounds payload out' n E) as (_ & Hrounds & _).
    pose proof (pruned_rounds L n payload out' Hasm Hrounds) as Hp.
    split; [now apply (pruned_outer_html_kept L)|exact Hp].
Qed.

(** * The compactor on concrete payloads *)

Lemma sample_limits_ok : limits_ok sample_limits.
Proof. unfold limits_ok, sample_limits; cbn; lia. Qed.

Lemma shrink_sample : _shrink_payload sample_limits sample_payload 0 = Some sample_output.
Proof. vm_compute. reflexivity. Qed.

(** The first form of the sample payload is still in the output, with
    its markup of 87 characters intact although the string limit is 51;
    the second form is not in the output any more. *)
Lemma shrink_payload_keeps_outer_html_witness :
  _shrink_payload sample_limits sample_payload 0 = Some sample_output
  /\ assembled sample_payload = true
  /\ outer_html_at [Key "html"; Key "highlights"; Key "forms"; Idx 0] sample_payload
     = Some "<form action=/login method=post><input name=user><input name=pass type=password></form>"
  /\ at_path [Key "html"; Key "highlights"; Key "forms"; Idx 1] sample_output = None
  /\ keeps_outer_html sample_payload sample_output
  /\ outer_html_at [Key "html"; Key "highlights"; Key "forms"; Idx 0] sample_output
     = Some "<form action=/login method=post><input name=user><input name=pass type=password></form>"
  /\ pruned sample_limits sample_payload sample_output.
Proof.
  assert (H : _shrink_payload sample_limits sample_payload 0 = Some sample_output)
    by (vm_compute; reflexivity).
  assert (Hasm : assembled sample_payload = true) by (vm_compute; reflexivity).
  destruct (shrink_payload_keeps_outer_html sample_limits sample_payload 0
              sample_output H) as [Hback Hfwd].
  destruct (Hfwd Hasm) as [Hkept Hpruned].
  split; [exact H|]. split; [exact Hasm|].
  split; [vm_compute; reflexivity|]. split; [vm_compute; reflexivity|].
  split; [exact Hback|]. split; [|exact Hpruned].
  eapply (Hkept [Key "html"; Key "highlights"; Key "forms"; Idx 0]);
    vm_compute; reflexivity.
Defined.

Lemma shrink_payload_terminates_witness :
  assembled sample_payload = true
  /\ float_range (MAX_STR_FIELD sample_limits)
  /\ shrink_run sample_limits sample_payload 0 = Some (sample_output, 20%nat)
  /\ rounds sample_limits 20 sample_payload = Some sample_output
  /\ exists out n,
       shrink_run sample_limits sample_payload 0 = Some (out, n)
       /\ _shrink_payload sample_limits sample_payload 0 = Some out
       /\ (n <= 20)%nat
       /\ rounds sample_limits n sample_payload = Some out
       /\ (0 < size out -> n = 20%nat).
Proof.
  split; [vm_compute; reflexivity|].
  split; [vm_compute; reflexivity|].
  split; [vm_compute; reflexivity|].
  destruct (shrink_payload_terminates sample_limits sample_payload 0)
    as (Hcap & _ & Hret).
  split.
  - apply (Hcap sample_output 20%nat). vm_compute; reflexivity.
  - apply Hret; [vm_compute; reflexivity|vm_compute; reflexivity].
Defined.

(** C3 (as stated).  The claim speaks of all configured limits.  With
    the string limit set to 50 the elision of a string of 51 characters
    keeps 30 + 15 of them and adds the marker, which takes 7 characters
    once serialised: the round increases the measured size and the
    output is larger than the input.  With the file limit set to -1 the
    empty default of a missing file list is longer than the limit and
    the assignment adds the key: the output is larger than the input.
    With the evidence limit or the bucket limit set to -1 the test of
    that block holds in every round, also on an empty list, so that the
    blocks after it are never reached: the budget of 400 characters is
    missed although the payload with every limit applied once has 363. *)
Lemma shrink_payload_size_counterexample :
  (exists y out,
     reduce (Limits 50 50 25 50) long_note_payload = Some y
     /\ size long_note_payload < size y
     /\ _shrink_payload (Limits 50 50 25 50) long_note_payload 0 = Some out
     /\ size long_note_payload < size out)
  /\ (exists out,
        _shrink_payload (Limits 50 (-1) 25 4000) no_files_payload 0 = Some out
        /\ size no_files_payload < size out)
  /\ (exists z out,
        apply_limits (Limits 1 1 (-1) 51) stalled_payload = Some z
        /\ size z <= 400
        /\ _shrink_payload (Limits 1 1 (-1) 51) stalled_payload 400 = Some out
        /\ 400 < size out)
  /\ (exists z out,
        apply_limits (Limits (-1) 1 1 51) stalled_payload = Some z
        /\ size z <= 400
        /\ _shrink_payload (Limits (-1) 1 1 51) stalled_payload 400 = Some out
        /\ 400 < size out).
Proof.
  split; [|split; [|split]].
  - eexists; eexists. split; [vm_compute; reflexivity|].
    split; [vm_compute; reflexivity|]. split; vm_compute; reflexivity.
  - eexists. split; vm_compute; reflexivity.
  - eexists; eexists. split; [vm_compute; reflexivity|].
    split; [vm_compute; discriminate|]. split; vm_compute; reflexivity.
  - eexists; eexists. split; [vm_compute; reflexivity|].
    split; [vm_compute; discriminate|]. split; vm_compute; reflexivity.
Qed.

(** On the sample payload, whose serialisation has 1420 characters, the
    limits allow 720 characters: with a budget of 1000 the compactor
    stops after two rounds at 914 characters, and with a budget of 0 it
    returns the payload with every limit applied. *)
Lemma shrink_payload_size_witness :
  0 <= MAX_JS_FILES sample_limits
  /\ 51 <= MAX_STR_FIELD sample_limits
  /\ _shrink_payload sample_limits sample_payload 1000 = Some sample_fit_output
  /\ _shrink_payload sample_limits sample_payload 0 = Some sample_output
  /\ apply_limits sample_limits sample_payload = Some sample_output
  /\ size sample_payload = 1420
  /\ size sample_output = 720
  /\ size sample_fit_output = 914
  /\ (forall x y, reduce sample_limits x = Some y -> size y <= size x)
  /\ size sample_fit_output <= size sample_payload
  /\ size sample_output <= size sample_fit_output
  /\ size sample_fit_output <= 1000
  /\ (exists z, apply_limits sample_limits sample_payload = Some z).
Proof.
  assert (Hfiles : 0 <= MAX_JS_FILES sample_limits) by (cbn; lia).
  assert (Hstr : 51 <= MAX_STR_FIELD sample_limits) by (cbn; lia).
  assert (Hev : 0 <= MAX_JS_EVIDENCE_PER_FILE sample_limits) by (cbn; lia).
  assert (Hb : 0 <= MAX_HTML_EVIDENCE_PER_BUCKET sample_limits) by (cbn; lia).
  assert (Hout : _shrink_payload sample_limits sample_payload 1000 = Some sample_fit_output)
    by (vm_compute; reflexivity).
  assert (Hz : apply_limits sample_limits sample_payload = Some sample_output)
    by (vm_compute; reflexivity).
  assert (Hsz : size sample_output = 720) by (vm_compute; reflexivity).
  destruct (shrink_payload_size sample_limits sample_payload 1000 sample_fit_output
              Hfiles Hstr Hout) as (Hmono & Hle & Hbudget).
  destruct (Hbudget Hev Hb) as [Hall Hex].
  destruct (Hall sample_output Hz) as (_ & Hlow & Hfit & _).
  split; [exact Hfiles|]. split; [exact Hstr|]. split; [exact Hout|].
  split; [vm_compute; reflexivity|]. split; [exact Hz|].
  split; [vm_compute; reflexivity|]. split; [exact Hsz|].
  split; [vm_compute; reflexivity|]. split; [exact Hmono|].
  split; [exact Hle|]. split; [exact Hlow|].
  split; [apply Hfit; rewrite Hsz; lia|].
  apply Hex. vm_compute; reflexivity.
Defined.

(** Outputs that are not converged.  With the string limit set to 3
    every round puts the first character and the marker in front of a
    string longer than the limit, and with the file limit set to -1
    every round drops one file: after 20 rounds the output is over the
    budget and a further round still changes it, and so does a second
    run. *)
Lemma shrink_payload_unconverged_examples :
  (exists out out',
     _shrink_payload (Limits 50 50 25 3) note_payload 0 = Some out
     /\ 0 < size out
     /\ reduce (Limits 50 50 25 3) out <> Some out
     /\ _shrink_payload (Limits 50 50 25 3) out 0 = Some out'
     /\ size out < size out')
  /\ (exists out out',
        _shrink_payload (Limits 50 (-1) 25 4000) many_files_payload 0 = Some out
        /\ 0 < size out
        /\ reduce (Limits 50 (-1) 25 4000) out <> Some out
        /\ _shrink_payload (Limits 50 (-1) 25 4000) out 0 = Some out'
        /\ size out' < size out).
Proof.
  split; eexists; eexists; (split; [vm_compute; reflexivity|]);
    (split; [vm_compute; reflexivity|]);
    (split; [vm_compute; discriminate|]);
    (split; [vm_compute; reflexivity|vm_compute; reflexivity]).
Qed.

Lemma shrink_payload_idempotent_witness :
  _shrink_payload (Limits 1 1 1 4) sample_payload 0 = Some small_limit_output
  /\ counts_ok (Limits 1 1 1 4)
  /\ string_limit_ok (Limits 1 1 1 4) sample_payload
  /\ converged (Limits 1 1 1 4) 0 small_limit_output
  /\ _shrink_payload (Limits 1 1 1 4) small_limit_output 0 = Some small_limit_output.
Proof.
  assert (HL : counts_ok (Limits 1 1 1 4)) by (unfold counts_ok; cbn; lia).
  assert (HS : string_limit_ok (Limits 1 1 1 4) sample_payload)
    by (right; split; [cbn; lia|vm_compute; reflexivity]).
  assert (H : _shrink_payload (Limits 1 1 1 4) sample_payload 0 = Some small_limit_output)
    by (vm_compute; reflexivity).
  destruct (shrink_payload_idempotent (Limits 1 1 1 4) sample_payload 0
              small_limit_output H) as [Hidem Hconv].
  split; [exact H|]. split; [exact HL|]. split; [exact HS|].
  split; [exact (Hconv HL HS)|exact (Hidem (Hconv HL HS))].
Defined.

(** The defaults of the module satisfy the conditions on the limits. *)
Lemma default_limits_ok : limits_ok default_limits.
Proof. unfold limits_ok, default_limits; cbn; lia. Qed.

(** * Further properties of [_truncate_text] and [truncate] *)

(** From limit 4 on the elided text has exactly
    [int(0.6 * limit) + int(0.3 * limit) + 5] characters. *)
Lemma truncate_text_exact_length (s : string) (limit : Z) :
  4 <= limit -> limit < Py.len s ->
  Py.len (_truncate_text s limit)
  = Py.int_mul_0_6 limit + Py.int_mul_0_3 limit + 5.
Proof.
  intros Hlim Hlen.
  destruct (truncate_text_shape s limit Hlim Hlen) as (a & b & Ha & Hb & Hab & Hb1 & ->).
  unfold Py.len in *. rewrite !length_app, length_take, length_drop.
  change (String.length elision) with 5%nat. lia.
Qed.

Lemma truncate_text_within (s : string) (limit : Z) :
  41 <= limit -> Py.len (_truncate_text s limit) <= limit.
Proof.
  intros Hlim. destruct (Z.leb_spec (Py.len s) limit) as [Hle|Hlt].
  - unfold _truncate_text.
    destruct (Z.leb_spec (Py.len s) limit); [assumption|lia].
  - rewrite truncate_text_exact_length by lia.
    unfold Py.int_mul_0_6, Py.int_mul_0_3. Z.quot_rem_to_equations. lia.
Qed.

(** X1.  For every string and every limit of at least 41 the text that
    [_truncate_text] returns has at most [limit] characters.  (With
    limit 40 a string of 41 characters is returned with 24 + 5 + 12 = 41
    characters, see [truncate_text_overshoot].) *)
Theorem truncate_text_fits (s : string) (limit : Z) :
  41 <= limit -> Py.len (_truncate_text s limit) <= limit.
Proof.
  intros Hlim. destruct (Z.leb_spec (Py.len s) limit) as [Hle|Hlt].
  - unfold _truncate_text.
    destruct (Z.leb_spec (Py.len s) limit); [assumption|lia].
  - rewrite truncate_text_exact_length by lia.
    assert (H6 : 10 * Py.int_mul_0_6 limit <= 6 * limit)
      by (unfold Py.int_mul_0_6; Z.quot_rem_to_equations; lia).
    assert (H3 : 10 * Py.int_mul_0_3 limit <= 3 * limit)
      by (unfold Py.int_mul_0_3; Z.quot_rem_to_equations; lia).
    lia.
Qed.

Example truncate_text_overshoot :
  Py.len (_truncate_text "0123456789012345678901234567890123456789X" 40) = 41.
Proof. vm_compute. reflexivity. Qed.

Lemma truncate_text_fits_witness :
  41 <= 41
  /\ Py.len (_truncate_text "0123456789012345678901234567890123456789XY" 41) <= 41.
Proof. split; [lia|apply truncate_text_fits; lia]. Defined.

(** X2.  For a limit from 0 to 3 the tail slice [s[-int(limit * 0.3):]]
    is [s[-0:]], the whole string: a string longer than the limit is
    returned with its first [int(0.6 * limit)] characters and the marker
    in front of all of it, five characters longer at least. *)
Theorem truncate_text_tiny_limit (s : string) (limit : Z) :
  0 <= limit <= 3 -> limit < Py.len s ->
  _truncate_text s limit = Py.str_to s (Py.int_mul_0_6 limit) ++ elision ++ s
  /\ Py.len s + 5 <= Py.len (_truncate_text s limit).
Proof.
  intros Hlim Hlen.
  assert (E : _truncate_text s limit
              = Py.str_to s (Py.int_mul_0_6 limit) ++ elision ++ s).
  { unfold _truncate_text.
    destruct (Z.leb_spec (Py.len s) limit) as [Hle|_]; [lia|].
    assert (H3 : Py.int_mul_0_3 limit = 0)
      by (unfold Py.int_mul_0_3; Z.quot_rem_to_equations; lia).
    rewrite H3. reflexivity. }
  split; [exact E|]. rewrite E. unfold Py.len.
  rewrite !length_app. change (String.length elision) with 5%nat. lia.
Qed.

Lemma truncate_text_tiny_limit_witness :
  0 <= 3 <= 3 /\ 3 < Py.len "abcd"
  /\ _truncate_text "abcd" 3 = "a" ++ elision ++ "abcd"
  /\ Py.len "abcd" + 5 <= Py.len (_truncate_text "abcd" 3).
Proof.
  split; [lia|]. split; [vm_compute; reflexivity|].
  apply (truncate_text_tiny_limit "abcd" 3); [lia|vm_compute; reflexivity].
Defined.

(** X3.  From limit 4 on, eliding a text that [_truncate_text] returned
    gives it back, also where the elided text is longer than the limit
    (limits 4 to 40): its head and its tail are those of the original
    string. *)
Theorem truncate_text_idempotent (s : string) (limit : Z) :
  4 <= limit ->
  _truncate_text (_truncate_text s limit) limit = _truncate_text s limit.
Proof.
  intros Hlim. destruct (Z.leb_spec (Py.len s) limit) as [Hle|Hlt].
  - assert (E : _truncate_text s limit = s).
    { unfold _truncate_text.
      destruct (Z.leb_spec (Py.len s) limit); [reflexivity|lia]. }
    now rewrite !E.
  - now apply truncate_text_idem.
Qed.

Lemma truncate_text_idempotent_witness :
  4 <= 10
  /\ _truncate_text "abcdefghijk" 10 = "abcdef" ++ elision ++ "ijk"
  /\ _truncate_text (_truncate_text "abcdefghijk" 10) 10 = _truncate_text "abcdefghijk" 10.
Proof.
  split; [lia|]. split; [vm_compute; reflexivity|].
  apply truncate_text_idempotent; lia.
Defined.

(** X4.  With a string limit of at least 41, after [truncate] every
    string stored under a key other than [outer_html], at every depth
    of dictionaries and lists, has at most [MAX_STR_FIELD] characters. *)
Theorem truncate_fields_within (L : limits) (v : json) :
  41 <= MAX_STR_FIELD L ->
  fields_within (MAX_STR_FIELD L) (truncate L v) = true.
Proof.
  intros Hlim.
  induction v as [|b|z|s|l IH|d IH] using json_ind; try reflexivity.
  - cbn [truncate fields_within]. rewrite forallb_forall. intros w Hin.
    apply in_map_iff in Hin as (w0 & <- & Hin0).
    rewrite Forall_forall in IH. now apply IH.
  - cbn [truncate fields_within]. rewrite forallb_forall. intros kv Hin.
    apply in_map_iff in Hin as ([k w] & <- & Hin0).
    rewrite Forall_forall in IH. specialize (IH (k, w) Hin0). cbn [snd] in IH.
    destruct (String.eqb k "outer_html") eqn:Ek; [now rewrite Ek|].
    destruct w as [|b|z|s|l|d0]; rewrite ?Ek; cbn [orb]; try exact IH.
    destruct (Z.ltb_spec (MAX_STR_FIELD L) (Py.len s)) as [Hlong|Hshort]; rewrite Ek; cbn [orb].
    + apply Z.leb_le. now apply truncate_text_within.
    + now apply Z.leb_le.
Qed.

Lemma truncate_fields_within_witness :
  41 <= MAX_STR_FIELD sample_limits
  /\ fields_within (MAX_STR_FIELD sample_limits) sample_payload = false
  /\ fields_within (MAX_STR_FIELD sample_limits) (truncate sample_limits sample_payload) = true.
Proof.
  split; [cbn; lia|]. split; [vm_compute; reflexivity|].
  apply truncate_fields_within. cbn; lia.
Defined.

(** * Further properties of the compactor *)

Lemma compacted_lookup (k : string) (d d' : pydict) (w' : json) :
  Forall2 (fun kv kv' : string * json =>
             fst kv' = fst kv
             /\ (fst kv = "outer_html" -> forall s, snd kv = JStr s -> snd kv' = JStr s)
             /\ compacted (snd kv) (snd kv')) d d' ->
  lookup k d' = Some w' ->
  exists w, lookup k d = Some w /\ compacted w w'.
Proof.
  induction 1 as [|[k0 v0] [k1 v1] d d' (Hk & _ & Hc) _ IH]; cbn [lookup];
    [discriminate|].
  cbn [fst snd] in Hk, Hc. subst k1.
  destruct (String.eqb k k0).
  - intros [= <-]. now exists v0.
  - exact IH.
Qed.

Lemma compacted_keys (d d' : pydict) :
  Forall2 (fun kv kv' : string * json =>
             fst kv' = fst kv
             /\ (fst kv = "outer_html" -> forall s, snd kv = JStr s -> snd kv' = JStr s)
             /\ compacted (snd kv) (snd kv')) d d' ->
  map fst d' = map fst d.
Proof.
  induction 1 as [|kv kv' d d' (Hk & _) _ IH]; cbn [map]; [reflexivity|].
  now rewrite Hk, IH.
Qed.

Lemma compacted_nth_error (l l' : list json) (n i : nat) (w' : json) :
  Forall2 compacted (firstn n l) l' -> nth_error l' i = Some w' ->
  exists w, nth_error l i = Some w /\ compacted w w'.
Proof.
  intros H Hi.
  assert (Hw : exists w, nth_error (firstn n l) i = Some w /\ compacted w w').
  { remember (firstn n l) as p eqn:Ep. clear Ep. revert i Hi.
    induction H as [|x y a b Hxy _ IH]; intros [|i]; cbn; try discriminate.
    - intros [= <-]. now exists x.
    - apply IH. }
  destruct Hw as (w & Hw & Hc). exists w.
  split; [eapply nth_error_firstn_some; exact Hw|exact Hc].
Qed.

(** A value of the compacted payload sits, in the original payload, at
    the same keys and indices. *)
Lemma compacted_at_path (path : list step) :
  forall x y w',
    compacted x y -> at_path path y = Some w' ->
    exists w, at_path path x = Some w /\ compacted w w'.
Proof.
  induction path as [|[k|i] rest IH]; intros x y w' Hc; cbn [at_path].
  - intros [= <-]. now exists x.
  - destruct y as [| | | | |d']; try discriminate.
    inversion Hc as [| | | | |d0 d0' Hd]; subst.
    destruct (lookup k d') as [v'|] eqn:E; [|discriminate]. intros Hrest.
    destruct (compacted_lookup k _ _ _ Hd E) as (v & Hv & Hcv).
    rewrite Hv. eapply IH; eassumption.
  - destruct y as [| | | |l'|]; try discriminate.
    inversion Hc as [| | | |l0 l0' n Hl|]; subst.
    destruct (nth_error l' i) as [v'|] eqn:E; [|discriminate]. intros Hrest.
    destruct (compacted_nth_error _ _ _ _ _ Hl E) as (v & Hv & Hcv).
    rewrite Hv. eapply IH; eassumption.
Qed.

(** X5.  When the file limit is not negative, every number, boolean and
    [None] of the output is the value that the input holds at the same
    keys and indices: the compactor recomputes nothing (the counters of
    [javascript.summary] stay those of the uncut file list). *)
Theorem shrink_payload_keeps_scalars (L : limits) (payload : json) (limit : Z)
  (out : json) (path : list step) (v : json) :
  0 <= MAX_JS_FILES L ->
  _shrink_payload L payload limit = Some out ->
  at_path path out = Some v ->
  is_scalar v = true ->
  at_path path payload = Some v.
Proof.
  intros Hfiles Hout Hv Hs.
  pose proof (shrink_payload_compacts L payload limit out Hfiles Hout) as Hc.
  destruct (compacted_at_path path _ _ _ Hc Hv) as (w & Hw & Hcw).
  rewrite Hw. f_equal.
  destruct v; try discriminate Hs; inversion Hcw; reflexivity.
Qed.

Lemma shrink_payload_keeps_scalars_witness :
  0 <= MAX_JS_FILES sample_limits
  /\ _shrink_payload sample_limits sample_payload 0 = Some sample_output
  /\ option_map py_len (at_path [Key "javascript"; Key "files"] sample_output)
     = Some (Some 1)
  /\ at_path [Key "javascript"; Key "summary"; Key "total_files"] sample_output
     = Some (JInt 2)
  /\ at_path [Key "javascript"; Key "summary"; Key "total_files"] sample_payload
     = Some (JInt 2).
Proof.
  split; [cbn; lia|]. split; [vm_compute; reflexivity|].
  split; [vm_compute; reflexivity|]. split; [vm_compute; reflexivity|].
  apply (shrink_payload_keeps_scalars sample_limits sample_payload 0 sample_output);
    [cbn; lia|vm_compute; reflexivity|vm_compute; reflexivity|reflexivity].
Defined.

(** X6.  When the file limit is not negative, a dictionary of the output
    has the keys of the dictionary at the same place of the input, in
    the same order, and a list of the output is not longer than the list
    at the same place of the input: no key is added, dropped, renamed or
    moved, and no list grows. *)
Theorem shrink_payload_keeps_layout (L : limits) (payload : json) (limit : Z)
  (out : json) (path : list step) :
  0 <= MAX_JS_FILES L ->
  _shrink_payload L payload limit = Some out ->
  (forall d', at_path path out = Some (JDict d') ->
     exists d, at_path path payload = Some (JDict d) /\ map fst d' = map fst d)
  /\ (forall l', at_path path out = Some (JList l') ->
        exists l, at_path path payload = Some (JList l)
                  /\ (List.length l' <= List.length l)%nat).
Proof.
  intros Hfiles Hout.
  pose proof (shrink_payload_compacts L payload limit out Hfiles Hout) as Hc.
  split.
  - intros d' Hd'.
    destruct (compacted_at_path path _ _ _ Hc Hd') as (w & Hw & Hcw).
    inversion Hcw as [| | | | |d0 d0' Hd]; subst.
    exists d0. split; [exact Hw|now apply compacted_keys].
  - intros l' Hl'.
    destruct (compacted_at_path path _ _ _ Hc Hl') as (w & Hw & Hcw).
    inversion Hcw as [| | | |l0 l0' n Hl|]; subst.
    exists l0. split; [exact Hw|].
    apply Forall2_length in Hl. rewrite <- Hl, length_firstn. lia.
Qed.

Lemma shrink_payload_keeps_layout_witness :
  0 <= MAX_JS_FILES sample_limits
  /\ _shrink_payload sample_limits sample_payload 0 = Some sample_output
  /\ (forall d', at_path [Key "javascript"; Key "files"; Idx 0] sample_output = Some (JDict d') ->
        exists d, at_path [Key "javascript"; Key "files"; Idx 0] sample_payload = Some (JDict d)
                  /\ map fst d' = map fst d)
  /\ (forall l', at_path [Key "javascript"; Key "files"; Idx 0] sample_output = Some (JList l') ->
        exists l, at_path [Key "javascript"; Key "files"; Idx 0] sample_payload = Some (JList l)
                  /\ (List.length l' <= List.length l)%nat).
Proof.
  split; [cbn; lia|]. split; [vm_compute; reflexivity|].
  apply (shrink_payload_keeps_layout sample_limits sample_payload 0 sample_output);
    [cbn; lia|vm_compute; reflexivity].
Defined.

(** The state after any number of rounds is a state reached within four
    rounds. *)
Lemma rounds_within_four (L : limits) (x y : json) (n : nat) :
  counts_ok L -> string_limit_ok L x -> rounds L n x = Some y ->
  exists k, (k <= 4)%nat /\ rounds L k x = Some y.
Proof.
  intros HL HS H.
  destruct (Nat.le_gt_cases n 4) as [Hle|Hgt]; [now exists n|].
  replace n with (4 + (n - 4))%nat in H by lia.
  rewrite rounds_add in H. apply bind_some in H as [x4 [H4 Hrest]].
  pose proof (rounds_four_stable L x x4 HL HS H4) as Hst.
  rewrite (rounds_stable L x4 _ Hst) in Hrest. injection Hrest as <-.
  exists 4%nat. split; [lia|exact H4].
Qed.

(** X7.  With count limits that are not negative and a string limit of
    at least 51 (at least 4 on a payload with the layout of
    [build_messages]), the output of the compactor is reached within
    four rounds of its loop: the cap of 20 rounds never cuts a
    reduction short. *)
Theorem shrink_payload_four_rounds (L : limits) (payload : json) (limit : Z)
  (out : json) :
  counts_ok L ->
  string_limit_ok L payload ->
  _shrink_payload L payload limit = Some out ->
  exists k, (k <= 4)%nat /\ rounds L k payload = Some out.
Proof.
  intros HL HS H. unfold _shrink_payload, shrink_run in H.
  destruct (shrink_loop max_rounds L limit payload) as [[out' n]|] eqn:E; [|discriminate].
  injection H as <-.
  destruct (shrink_loop_rounds L limit max_rounds payload out' n E) as (_ & Hrounds & _).
  eapply rounds_within_four; eassumption.
Qed.

Lemma shrink_payload_four_rounds_witness :
  counts_ok sample_limits
  /\ string_limit_ok sample_limits sample_payload
  /\ _shrink_payload sample_limits sample_payload 0 = Some sample_output
  /\ rounds sample_limits 3 sample_payload <> Some sample_output
  /\ exists k, (k <= 4)%nat /\ rounds sample_limits k sample_payload = Some sample_output.
Proof.
  split; [unfold counts_ok; cbn; lia|].
  split; [left; cbn; lia|].
  split; [vm_compute; reflexivity|].
  split; [vm_compute; discriminate|].
  apply (shrink_payload_four_rounds sample_limits sample_payload 0 sample_output).
  - unfold counts_ok; cbn; lia.
  - left; cbn; lia.
  - vm_compute; reflexivity.
Defined.

(** X8.  Under the same limits, an output that is still over the budget
    cannot be reduced further by the compactor: the file list, every
    evidence list and every bucket are within their limits, and
    [truncate] leaves the output as it is (what keeps it over the budget
    is outside the reach of the four steps). *)
Theorem shrink_payload_over_budget (L : limits) (payload : json) (limit : Z)
  (out : json) :
  counts_ok L ->
  string_limit_ok L payload ->
  _shrink_payload L payload limit = Some out ->
  limit < size out ->
  files_capped L out /\ evidences_capped L out /\ buckets_capped L out
  /\ truncate L out = out.
Proof.
  intros HL HS H Hbig. unfold _shrink_payload, shrink_run in H.
  destruct (shrink_loop max_rounds L limit payload) as [[out' n]|] eqn:E; [|discriminate].
  injection H as <-.
  destruct (shrink_loop_rounds L limit max_rounds payload out' n E)
    as (_ & Hrounds & Hcap).
  specialize (Hcap Hbig). subst n.
  change max_rounds with (4 + 16)%nat in Hrounds.
  rewrite rounds_add in Hrounds.
  apply bind_some in Hrounds as [x4 [H4 Hrest]].
  pose proof (rounds_four_stable L payload x4 HL HS H4) as Hst.
  rewrite (rounds_stable L x4 16 Hst) in Hrest. injection Hrest as <-.
  eapply rounds_four_capped; eassumption.
Qed.

Lemma shrink_payload_over_budget_witness :
  counts_ok (Limits 1 1 1 4)
  /\ string_limit_ok (Limits 1 1 1 4) sample_payload
  /\ _shrink_payload (Limits 1 1 1 4) sample_payload 0 = Some small_limit_output
  /\ 0 < size small_limit_output
  /\ files_capped (Limits 1 1 1 4) small_limit_output
  /\ evidences_capped (Limits 1 1 1 4) small_limit_output
  /\ buckets_capped (Limits 1 1 1 4) small_limit_output
  /\ truncate (Limits 1 1 1 4) small_limit_output = small_limit_output.
Proof.
  split; [unfold counts_ok; cbn; lia|].
  split; [right; split; [cbn; lia|vm_compute; reflexivity]|].
  split; [vm_compute; reflexivity|].
  split; [vm_compute; reflexivity|].
  apply (shrink_payload_over_budget (Limits 1 1 1 4) sample_payload 0 small_limit_output).
  - unfold counts_ok; cbn; lia.
  - right; split; [cbn; lia|vm_compute; reflexivity].
  - vm_compute; reflexivity.
  - vm_compute; reflexivity.
Defined.

(** ** Payloads without the [javascript] and [html] keys *)

Lemma lookup_truncate_none (L : limits) (k : string) (d : pydict) :
  lookup k d = None ->
  lookup k (map (fun kv : string * json => (fst kv, truncate_entry L (fst kv) (snd kv))) d)
  = None.
Proof. intros H. now rewrite lookup_map_values, H. Qed.

(** The defaults of the two [get] chains are used: no list is cut and
    the round is the string step. *)
Lemma reduce_plain_dict (L : limits) (d : pydict) :
  lookup "javascript" d = None -> lookup "html" d = None ->
  0 <= MAX_JS_FILES L ->
  reduce L (JDict d) = Some (truncate L (JDict d)).
Proof.
  intros Hjs Hh Hfiles. unfold reduce, js_files_of, html_highlights_of, dict_get.
  rewrite Hjs, Hh. cbn [lookup bind py_len List.length].
  destruct (Z.ltb_spec (MAX_JS_FILES L) (Z.of_nat 0)) as [Hlt|_]; [cbn in Hlt; lia|].
  reflexivity.
Qed.

(** The assignment [cur["javascript"]["files"] = ...] has no dictionary
    to write to. *)
Lemma reduce_missing_javascript (L : limits) (d : pydict) :
  lookup "javascript" d = None -> MAX_JS_FILES L < 0 ->
  reduce L (JDict d) = None.
Proof.
  intros Hjs Hfiles. unfold reduce, js_files_of, dict_get.
  rewrite Hjs. cbn [lookup bind py_len List.length].
  destruct (Z.ltb_spec (MAX_JS_FILES L) (Z.of_nat 0)) as [_|Hge]; [|cbn in Hge; lia].
  cbn [py_slice_to bind store_files]. now rewrite Hjs.
Qed.

(** X9.  A payload over the budget that has no [javascript] key: with a
    negative file limit the compactor raises (the empty default list is
    longer than the limit and [cur["javascript"]] is a [KeyError]); with
    a file limit that is not negative, no [html] key either and a string
    limit of at least 4, it returns the payload with its long string
    fields elided and nothing else changed. *)
Theorem shrink_payload_missing_keys (L : limits) (d : pydict) (limit : Z) :
  lookup "javascript" d = None ->
  limit < size (JDict d) ->
  (MAX_JS_FILES L < 0 -> _shrink_payload L (JDict d) limit = None)
  /\ (0 <= MAX_JS_FILES L -> lookup "html" d = None -> 4 <= MAX_STR_FIELD L ->
      _shrink_payload L (JDict d) limit = Some (truncate L (JDict d))).
Proof.
  intros Hjs Hbig. unfold _shrink_payload, shrink_run, max_rounds.
  change (shrink_loop 20 L limit (JDict d))
    with (if size (JDict d) <=? limit then Some (JDict d, O)
          else next <- reduce L (JDict d) ;;
               r <- shrink_loop 19 L limit next ;;
               Some (fst r, S (snd r))).
  destruct (Z.leb_spec (size (JDict d)) limit) as [Hfit|_]; [lia|].
  split.
  - intros Hneg. now rewrite (reduce_missing_javascript L d Hjs Hneg).
  - intros Hfiles Hh Hlim.
    rewrite (reduce_plain_dict L d Hjs Hh Hfiles). cbn [bind].
    assert (Hst : reduce L (truncate L (JDict d)) = Some (truncate L (JDict d))).
    { rewrite truncate_dict.
      rewrite reduce_plain_dict;
        [|now apply lookup_truncate_none|now apply lookup_truncate_none|exact Hfiles].
      rewrite <- truncate_dict. now rewrite truncate_idem. }
    destruct (shrink_loop_stable L limit _ 19 Hst) as [n ->].
    reflexivity.
Qed.

Lemma shrink_payload_missing_keys_witness :
  lookup "javascript" [("note", JStr "abcdefghijk")] = None
  /\ 0 < size (JDict [("note", JStr "abcdefghijk")])
  /\ _shrink_payload (Limits 50 (-1) 25 4000) (JDict [("note", JStr "abcdefghijk")]) 0 = None
  /\ _shrink_payload (Limits 50 50 25 10) (JDict [("note", JStr "abcdefghijk")]) 0
     = Some (truncate (Limits 50 50 25 10) (JDict [("note", JStr "abcdefghijk")])).
Proof.
  split; [reflexivity|]. split; [vm_compute; reflexivity|].
  split.
  - apply (shrink_payload_missing_keys (Limits 50 (-1) 25 4000)
             [("note", JStr "abcdefghijk")] 0);
      [reflexivity|vm_compute; reflexivity|cbn; lia].
  - apply (shrink_payload_missing_keys (Limits 50 50 25 10)
             [("note", JStr "abcdefghijk")] 0);
      [reflexivity|vm_compute; reflexivity|cbn; lia|reflexivity|cbn; lia].
Defined.

(** * Further properties of the anchor loop *)

Lemma fold_anchor_step_links urljoin site_url (anchors : list anchor) :
  forall ev,
    links (fold_left (anchor_step urljoin site_url) anchors ev)
    = (links ev ++ map (link_record urljoin site_url) anchors)%list.
Proof.
  induction anchors as [|a rest IH]; intros ev; cbn [fold_left map].
  - now rewrite app_nil_r.
  - rewrite IH. unfold anchor_step. cbn [links]. now rewrite <- app_assoc.
Qed.

Lemma fold_anchor_step_javascript urljoin site_url (anchors : list anchor) :
  forall ev,
    javascript_href_links (fold_left (anchor_step urljoin site_url) anchors ev)
    = (javascript_href_links ev
       ++ map javascript_href_record (filter javascript_href_test anchors))%list.
Proof.
  induction anchors as [|a rest IH]; intros ev; cbn [fold_left filter].
  - now rewrite app_nil_r.
  - rewrite IH. unfold anchor_step, javascript_href_test.
    cbn [javascript_href_links].
    destruct (Py.startswith (Py.lower (Py.strip (a_href a))) "javascript:");
      [cbn [map]; now rewrite <- app_assoc|reflexivity].
Qed.

(** X10.  The [links] bucket holds one record for every anchor with an
    [href], in document order and without removing duplicates; the
    [javascript_href_links] bucket holds, in document order, the anchors
    whose [href], trimmed and lower-cased, starts with [javascript:];
    so each of the two other buckets is never longer than [links]. *)
Theorem analyze_anchors_buckets urljoin site_url (anchors : list anchor) :
  let ev := analyze_anchors urljoin site_url anchors in
  links ev = map (link_record urljoin site_url) anchors
  /\ javascript_href_links ev
     = map javascript_href_record (filter javascript_href_test anchors)
  /\ (List.length (javascript_href_links ev) <= List.length (links ev))%nat
  /\ (List.length (target_blank_without_noopener ev) <= List.length (links ev))%nat.
Proof.
  cbn zeta. unfold analyze_anchors.
  rewrite fold_anchor_step_links, fold_anchor_step_javascript,
    fold_anchor_step_target_blank.
  cbn [links javascript_href_links target_blank_without_noopener app].
  rewrite !length_map.
  repeat split; apply filter_length_le.
Qed.

(** * Further properties of [analyze_js] *)

Lemma range_shift (lo hi : Z) :
  map (fun ln => ln + 1) (range lo hi) = range (lo + 1) (hi + 1).
Proof.
  unfold range. rewrite map_map.
  replace (hi + 1 - (lo + 1)) with (hi - lo) by lia.
  apply map_ext. intros i. lia.
Qed.

Lemma range_bounds (lo hi i : Z) : In i (range lo hi) -> lo <= i < hi.
Proof.
  unfold range. rewrite in_map_iff. intros (n & <- & Hn).
  apply in_seq in Hn. lia.
Qed.

(** The context that [evidence_at] builds: its line numbers and the
    lines they name. *)
Lemma evidence_at_context (text file : string) (pl : Re.regex * string) (start : nat) :
  let e := evidence_at text file pl start in
  map fst (context e)
  = range (line_no e) (Z.min (Z.of_nat (List.length (lines text)) + 1) (line_no e + 3))
  /\ Forall (fun c => nth_error (lines text) (Z.to_nat (fst c - 1)) = Some (snd c))
            (context e).
Proof.
  cbn zeta. unfold evidence_at. cbn [context line_no].
  set (k := count (String Py.nl "") text start).
  assert (Hk : 0 <= k) by (unfold k, count; lia).
  replace (Z.max 0 (k + 1 - 1)) with k by lia.
  split.
  - rewrite map_map. cbn [fst]. rewrite range_shift. f_equal. lia.
  - apply Forall_map. apply Forall_forall. intros ln Hin. cbn [fst snd].
    apply range_bounds in Hin.
    replace (Z.to_nat (ln + 1 - 1)) with (Z.to_nat ln) by lia.
    apply nth_error_nth'. lia.
Qed.

(** X11.  For every script, the context of every hit of [analyze_js]
    is numbered from the line of the hit on, up to three consecutive
    lines clipped at the end of the file (never the line before), and
    every entry holds the text of the line that its number names: the
    index [lines[ln]] is always in range. *)
Theorem analyze_js_context_window (text file : string) :
  Forall (fun e =>
            map fst (context e)
            = range (line_no e)
                    (Z.min (Z.of_nat (List.length (lines text)) + 1) (line_no e + 3))
            /\ Forall (fun c => nth_error (lines text) (Z.to_nat (fst c - 1)) = Some (snd c))
                      (context e))
         (analyze_js text file).
Proof.
  unfold analyze_js. apply Forall_flat_map. apply Forall_forall. intros pl _.
  unfold detector_hits. apply Forall_map. apply Forall_forall. intros m _.
  apply evidence_at_context.
Qed.

(** ** Matches lie inside the text *)

(** A continuation is only ever reached at a cursor between the start
    of the repetition and the end of the text. *)
Lemma star_bounds (ic : bool) (i : Re.item) (k : Re.cont) (N m : nat) (Q : nat -> Prop) :
  (forall p' r' n' e, (n' + String.length r' = N)%nat -> (m <= n')%nat ->
                      k p' r' n' = Some e -> Q e) ->
  forall rest prev pos e,
    (pos + String.length rest = N)%nat -> (m <= pos)%nat ->
    Re.star ic i prev rest pos k = Some e -> Q e.
Proof.
  intros Hk. induction rest as [|c r IH]; intros prev pos e HN Hm; cbn [Re.star].
  - intros H. eapply Hk; eassumption.
  - destruct (Re.item_ok ic i c).
    + destruct (Re.star ic i (Some c) r (S pos) k) as [e'|] eqn:E.
      * intros [= <-].
        apply (IH (Some c) (S pos) e'); [cbn [String.length] in HN; lia|lia|exact E].
      * intros H. eapply Hk; eassumption.
    + intros H. eapply Hk; eassumption.
Qed.

(** After a pattern the cursor has moved on by at least its least
    width, and not beyond the end of the text. *)
Lemma run_bounds (ic : bool) (r : Re.regex) :
  forall (k : Re.cont) (N m : nat) (Q : nat -> Prop) prev rest pos e,
    (forall p' r' n' e', (n' + String.length r' = N)%nat ->
                         (m + min_width r <= n')%nat ->
                         k p' r' n' = Some e' -> Q e') ->
    (pos + String.length rest = N)%nat -> (m <= pos)%nat ->
    Re.run ic r prev rest pos k = Some e -> Q e.
Proof.
  induction r as [|i|i|i| |a IHa b IHb|a IHa b IHb];
    intros k N m Q prev rest pos e Hk HN Hm; cbn [Re.run min_width] in *.
  - intros H. eapply Hk; [exact HN|lia|exact H].
  - destruct rest as [|c r']; [discriminate|].
    destruct (Re.item_ok ic i c); [|discriminate].
    intros H. eapply Hk; [|  |exact H]; cbn [String.length] in HN; lia.
  - apply star_bounds with (N := N) (m := m); [|exact HN|exact Hm].
    intros p' r' n' e' HN' Hm' H. eapply Hk; [exact HN'|lia|exact H].
  - destruct rest as [|c rs]; [discriminate|].
    destruct (Re.item_ok ic i c); [|discriminate].
    apply star_bounds with (N := N) (m := S m);
      [|cbn [String.length] in HN; lia|lia].
    intros p' r' n' e' HN' Hm' H. eapply Hk; [exact HN'|lia|exact H].
  - destruct (xorb (Re.word_before prev) (Re.word_after rest)); [|discriminate].
    intros H. eapply Hk; [exact HN|lia|exact H].
  - apply (IHa _ N m Q); [|exact HN|exact Hm].
    intros p' r' n' e' HN' Hm'.
    apply (IHb k N (m + min_width a)%nat Q); [|exact HN'|exact Hm'].
    intros p'' r'' n'' e'' HN'' Hm'' H. eapply Hk; [exact HN''|lia|exact H].
  - destruct (Re.run ic a prev rest pos k) as [e'|] eqn:E.
    + intros [= <-]. apply (IHa k N m Q prev rest pos e'); [|exact HN|exact Hm|exact E].
      intros p' r' n' e'' HN' Hm' H. eapply Hk; [exact HN'|lia|exact H].
    + apply (IHb k N m Q); [|exact HN|exact Hm].
      intros p' r' n' e'' HN' Hm' H. eapply Hk; [exact HN'|lia|exact H].
Qed.

Lemma match_here_bounds (ic : bool) (r : Re.regex) prev rest pos e :
  Re.match_here ic r prev rest pos = Some e ->
  (pos + min_width r <= e <= pos + String.length rest)%nat.
Proof.
  unfold Re.match_here. intros H.
  apply (run_bounds ic r (fun _ _ e => Some e) (pos + String.length rest)%nat pos
           (fun e => (pos + min_width r <= e <= pos + String.length rest)%nat)
           prev rest pos e); [|reflexivity|lia|exact H].
  intros p' r' n' e' HN Hm [= <-]. lia.
Qed.

Lemma scan_bounds (ic : bool) (r : Re.regex) :
  forall rest prev pos skip,
    Forall (fun m => (fst m + min_width r <= snd m <= pos + String.length rest)%nat)
           (Re.scan ic r prev rest pos skip).
Proof.
  induction rest as [|c rest IH]; intros prev pos skip; cbn [Re.scan].
  - destruct skip; [|constructor].
    destruct (Re.match_here ic r prev "" pos) as [e|] eqn:E; constructor; [|constructor].
    cbn [fst snd]. now apply match_here_bounds in E.
  - assert (Hrest : forall p k,
               Forall (fun m => (fst m + min_width r <= snd m
                                 <= pos + String.length (String c rest))%nat)
                      (Re.scan ic r p rest (S pos) k)).
    { intros p k. eapply Forall_impl; [|apply IH].
      cbn [String.length]. intros m Hm. lia. }
    destruct skip as [|skip]; [|apply Hrest].
    destruct (Re.match_here ic r prev (String c rest) pos) as [e|] eqn:E; [|apply Hrest].
    constructor; [|apply Hrest]. cbn [fst snd]. now apply match_here_bounds in E.
Qed.

(** Every match reported by [finditer] ends inside the text and spans
    at least the least width of the pattern. *)
Lemma finditer_bounds (ic : bool) (r : Re.regex) (text : string) :
  Forall (fun m => (fst m + min_width r <= snd m <= String.length text)%nat)
         (Re.finditer ic r text).
Proof. exact (scan_bounds ic r text None O O). Qed.

Lemma js_patterns_not_empty :
  forallb (fun pl => Nat.leb 1 (min_width (fst pl))) JS_PATTERNS = true.
Proof. vm_compute. reflexivity. Qed.

(** ** The line of a hit is a line of the file *)

Lemma splitlines_from_nonempty (s : string) :
  forall line, line <> EmptyString ->
    (1 <= List.length (splitlines_from s line false))%nat.
Proof.
  induction s as [|c s IH]; intros line Hne; cbn [splitlines_from andb].
  - destruct line; [congruence|cbn; lia].
  - destruct (is_linebreak c); [cbn [List.length]; lia|].
    apply IH. destruct line; discriminate.
Qed.

(** There are at least as many lines before a character of the text as
    there are newline characters before it; after a carriage return the
    newline that follows it belongs to the line break already counted. *)
Lemma splitlines_from_count (s : string) :
  forall line after_cr n,
    (n < String.length s)%nat ->
    (List.length (filter (Ascii.eqb Py.nl) (firstn n (list_ascii_of_string s))) + 1
     <= List.length (splitlines_from s line after_cr)
        + (if after_cr
           then match s with
                | String c _ => if Ascii.eqb c Py.nl then 1 else 0
                | EmptyString => 0
                end
           else 0))%nat.
Proof.
  induction s as [|c r IH]; intros line after_cr n Hn; [cbn in Hn; lia|].
  cbn [String.length] in Hn. cbn [splitlines_from list_ascii_of_string].
  destruct (Ascii.eqb_spec c Py.nl) as [->|Hc].
  - change (is_linebreak Py.nl) with true.
    change (Ascii.eqb Py.nl (Py.chr 13)) with false.
    destruct after_cr; cbn [andb].
    + destruct n as [|n]; cbn [firstn filter List.length]; [lia|].
      rewrite Ascii.eqb_refl. cbn [List.length].
      pose proof (IH line false n ltac:(lia)) as H. cbv beta iota in H. lia.
    + destruct n as [|n]; cbn [firstn filter List.length]; [lia|].
      rewrite Ascii.eqb_refl. cbn [List.length].
      pose proof (IH EmptyString false n ltac:(lia)) as H. cbv beta iota in H. lia.
  - assert (Hc' : Ascii.eqb Py.nl c = false)
      by (apply Ascii.eqb_neq; congruence).
    rewrite Bool.andb_false_r.
    destruct (is_linebreak c).
    + destruct n as [|n]; cbn [firstn filter List.length]; [destruct after_cr; lia|].
      rewrite Hc'.
      pose proof (IH EmptyString (Ascii.eqb c (Py.chr 13)) n ltac:(lia)) as H.
      assert (Hd : ((if Ascii.eqb c (Py.chr 13)
                     then match r with
                          | String c0 _ => if Ascii.eqb c0 Py.nl then 1 else 0
                          | EmptyString => 0
                          end
                     else 0) <= 1)%nat).
      { destruct (Ascii.eqb c (Py.chr 13)); [|lia].
        destruct r as [|c0 r0]; [lia|]. destruct (Ascii.eqb c0 Py.nl); lia. }
      destruct after_cr; lia.
    + destruct n as [|n]; cbn [firstn filter List.length].
      * pose proof (splitlines_from_nonempty r (line ++ String c EmptyString)) as H.
        assert (Hne : line ++ String c EmptyString <> EmptyString)
          by (destruct line; discriminate).
        specialize (H Hne). destruct after_cr; lia.
      * rewrite Hc'. pose proof (IH (line ++ String c EmptyString) false n ltac:(lia)) as H.
        cbv beta iota in H. destruct after_cr; lia.
Qed.

Lemma line_of_offset (text : string) (start : nat) :
  (start < String.length text)%nat ->
  newlines_before text start + 1 <= Z.of_nat (List.length (lines text)).
Proof.
  intros H. unfold newlines_before, lines, splitlines.
  pose proof (splitlines_from_count text EmptyString false start H) as Hc.
  cbv beta iota in Hc. lia.
Qed.

Lemma range_head (lo hi : Z) : lo < hi -> exists rest, range lo hi = lo :: rest.
Proof.
  intros H. unfold range.
  replace (Z.to_nat (hi - lo)) with (S (Z.to_nat (hi - lo - 1))) by lia.
  cbn [seq map]. eexists. f_equal. lia.
Qed.

(** X12.  For every script, every hit of [analyze_js] is reported on a
    line of the file (1 <= line_no <= len(lines)), and its context is
    never empty: its first entry is the line of the hit with the text
    that [splitlines] gives for it. *)
Theorem analyze_js_hit_line (text file : string) :
  Forall (fun e =>
            1 <= line_no e <= Z.of_nat (List.length (lines text))
            /\ exists code,
                 nth_error (lines text) (Z.to_nat (line_no e - 1)) = Some code
                 /\ hd_error (context e) = Some (line_no e, code))
         (analyze_js text file).
Proof.
  unfold analyze_js. apply Forall_flat_map. apply Forall_forall. intros pl Hpl.
  pose proof js_patterns_not_empty as Hw. rewrite forallb_forall in Hw.
  specialize (Hw pl Hpl). apply Nat.leb_le in Hw.
  unfold detector_hits. apply Forall_map.
  eapply Forall_impl; [|apply (finditer_bounds true (fst pl) text)].
  intros m Hm. cbv beta in Hm |- *.
  assert (Hstart : (fst m < String.length text)%nat) by lia.
  pose proof (line_of_offset text (fst m) Hstart) as Hline.
  unfold evidence_at. cbn [line_no context]. rewrite count_newlines.
  set (k := newlines_before text (fst m)) in *.
  assert (Hk : 0 <= k) by (unfold k, newlines_before; lia).
  split; [lia|].
  replace (Z.max 0 (k + 1 - 1)) with k by lia.
  replace (Z.to_nat (k + 1 - 1)) with (Z.to_nat k) by lia.
  exists (nth (Z.to_nat k) (lines text) EmptyString).
  split; [apply nth_error_nth'; lia|].
  destruct (range_head k (Z.min (Z.of_nat (List.length (lines text))) (k + 1 + 2)))
    as [rest ->]; [lia|].
  reflexivity.
Qed.

(** * Properties of the scan for secrets *)

Lemma take_add (m n : nat) (s : string) :
  Py.take (m + n) s = Py.take m s ++ Py.take n (Py.drop m s).
Proof.
  revert s; induction m as [|m IH]; intros s; cbn [Nat.add Py.take Py.drop].
  - now destruct n, s.
  - destruct s as [|c s]; cbn [Py.take Py.drop append]; [now destruct n|].
    now rewrite IH.
Qed.

Lemma between_split (a b c : nat) (s : string) :
  (a <= b <= c)%nat -> between a c s = between a b s ++ between b c s.
Proof.
  intros H. unfold between.
  replace (c - a)%nat with ((b - a) + (c - b))%nat by lia.
  rewrite take_add, drop_drop. do 3 f_equal. lia.
Qed.

Lemma length_between (a b : nat) (s : string) :
  (a <= b <= String.length s)%nat -> String.length (between a b s) = (b - a)%nat.
Proof. intros H. unfold between. rewrite length_take, length_drop. lia. Qed.

Lemma patterns_width :
  map (fun pn => min_width (fst pn)) patterns = [20; 41; 23]%nat.
Proof. vm_compute. reflexivity. Qed.

Lemma secret_record_excerpt (html_text name : string) (m : nat * nat) :
  (fst m <= snd m <= String.length html_text)%nat ->
  secret_record html_text name m = excerpt_record html_text name m.
Proof.
  destruct m as [s e]. cbn [fst snd]. intros Hm.
  unfold secret_record, excerpt_record. cbn [fst snd]. do 4 f_equal.
  unfold str_slice, Py.bound, Py.len.
  destruct (Z.leb_spec 0 (Z.min (Z.of_nat (String.length html_text)) (Z.of_nat e + 60)))
    as [_|Hneg]; [|lia].
  destruct (Z.leb_spec 0 (Z.max 0 (Z.of_nat s - 60))) as [_|Hneg]; [|lia].
  replace (Z.to_nat (Z.max 0 (Z.of_nat s - 60))) with (s - 60)%nat by lia.
  replace (Z.to_nat (Z.min (Z.of_nat (String.length html_text)) (Z.of_nat e + 60)))
    with (Nat.min (e + 60) (String.length html_text)) by lia.
  change (Py.take (Nat.min (e + 60) (String.length html_text) - (s - 60))
            (Py.drop (s - 60) html_text))
    with (between (s - 60) (Nat.min (e + 60) (String.length html_text)) html_text).
  rewrite (between_split (s - 60) s) by lia.
  now rewrite (between_split s e) by lia.
Qed.

(** X13.  For every page text, the [potential_secrets_in_html] bucket
    holds, pattern by pattern in source order and match by match in the
    order of [re.finditer], one record per match of the three key
    patterns and nothing else; the [match] field of the record of the
    match at offsets [s] to [e] is the text from 60 characters before
    the match (or the start of the page) to 60 characters after it (or
    the end of the page), that is the matched key in full with at most
    60 characters of the page on either side; every match lies inside
    the page and spans at least 20 characters. *)
Theorem potential_secrets_excerpt (html_text : string) :
  potential_secrets_in_html html_text
  = flat_map (fun pn =>
                map (excerpt_record html_text (snd pn))
                    (Re.finditer false (fst pn) html_text))
             patterns
  /\ Forall (fun pn =>
               Forall (fun m => (fst m + 20 <= snd m <= String.length html_text)%nat)
                      (Re.finditer false (fst pn) html_text))
            patterns.
Proof.
  split.
  - unfold potential_secrets_in_html. apply flat_map_ext. intros [r name].
    cbn [fst snd]. apply map_ext_in. intros m Hin.
    apply secret_record_excerpt.
    pose proof (finditer_bounds false r html_text) as Hb.
    rewrite Forall_forall in Hb. specialize (Hb m Hin). lia.
  - apply Forall_forall. intros [r name] Hin. cbn [fst].
    assert (Hw : (20 <= min_width r)%nat).
    { pose proof patterns_width as Hall.
      assert (Hm : In (min_width r) (map (fun pn => min_width (fst pn)) patterns))
        by (apply in_map_iff; exists (r, name); split; [reflexivity|exact Hin]).
      rewrite Hall in Hm. cbn [In] in Hm. lia. }
    eapply Forall_impl; [|apply (finditer_bounds false r html_text)].
    intros m Hm. cbv beta in Hm. lia.
Qed.
